(** * agora-scan: the deposit exporter and the Prysm consensus client

    A shallow embedding of two source files of the explorer back end:

    - the execution-layer deposit exporter ([eth1DepositsExporter],
      [fetchEth1Deposits], [saveEth1Deposits],
      [eth1BatchRequestHeadersAndTxs]);
    - the Prysm client ([GetEpochAssignments], [parseRpcBlock] and the four
      per-fork block parsers; [GetBlocksBySlot], [GetBlockStatusByEpoch],
      [GetBalancesForEpoch], [GetBalancesForSlot] and [get]; and the parts
      of [GetEpochData] and [GetSlotData] that run in sequence).

    Go's [uint64] is [Z] with the wrap-around written out ([u64]); byte
    slices are [list byte]; Go maps are [gmap]; an [error] is its message.
    Calls that leave the process (the execution node, the beacon node, the
    SQL connection) are fields of type classes over an abstract world state
    that every call threads through; library functions whose code is not part
    of the repository (signature checks, transaction decoding, bit lists) are
    fields of type classes as well. *)

From Stdlib Require Import ZArith List String Ascii Bool Lia.
From Stdlib.Strings Require Import Byte.
From stdpp Require Import base option list gmap strings pretty countable.

Open Scope string_scope.
Open Scope list_scope.
Open Scope Z_scope.

(** ** Machine integers, bytes, errors *)

Definition u64 (z : Z) : Z := z mod 2 ^ 64.

Definition uint64 (z : Z) : Prop := 0 <= z < 2 ^ 64.

(** Go's [int64(x)] of a [uint64]: the same 64 bits read as two's complement. *)
Definition int64_of_u64 (z : Z) : Z :=
  if z <? 2 ^ 63 then z else z - 2 ^ 64.

Definition bytes : Type := list byte.

#[global] Instance byte_eq_dec : EqDecision byte := Byte.byte_eq_dec.

#[global] Instance byte_countable : Countable byte :=
  inj_countable Byte.to_N Byte.of_N Byte.of_to_N.

Definition hexdigit (n : N) : ascii :=
  match String.get (N.to_nat n) "0123456789abcdef" with
  | Some c => c
  | None => "0"%char
  end.

Definition hex_of_byte (b : byte) : string :=
  String (hexdigit (Byte.to_N b / 16)) (String (hexdigit (Byte.to_N b mod 16)) EmptyString).

(** [fmt.Sprintf("%x", bs)]: lower-case hexadecimal, two digits a byte. *)
Fixpoint hex (bs : bytes) : string :=
  match bs with
  | [] => EmptyString
  | b :: bs' => hex_of_byte b +:+ hex bs'
  end.

(** [common.Hash.Hex()] and [fmt.Sprintf("0x%x", h)] print the same text. *)
Definition hex0x (bs : bytes) : string := "0x" +:+ hex bs.

(** A Go [error] is modelled by the text of its [Error()] method; [None]
    is the nil error.  [fmt.Errorf(prefix + "%w", err)] prepends its text. *)
Definition error : Type := string.

Definition wrapf (pre : string) (e : error) : error := pre +:+ e.

(** The outcome of a call that can end in a run-time panic (an index out of
    range, a nil dereference, a division by zero) instead of returning. *)
Inductive run (A : Type) : Type :=
| Returns (a : A)
| Panics (why : string).
Arguments Returns {A} a.
Arguments Panics {A} why.

(** ** Regular expressions of the exporter

    [regexp.MatchString] looks for a match anywhere in the text.  The two
    patterns of the source are a literal, and a literal, one or more decimal
    digits and a literal. *)

Definition isDigit (c : ascii) : bool :=
  let n := nat_of_ascii c in (48 <=? n)%nat && (n <=? 57)%nat.

Fixpoint dropPrefix (p s : string) : option string :=
  match p with
  | EmptyString => Some s
  | String a p' =>
      match s with
      | String b s' => if Ascii.eqb a b then dropPrefix p' s' else None
      | EmptyString => None
      end
  end.

Fixpoint dropDigits (s : string) : string :=
  match s with
  | String c s' => if isDigit c then dropDigits s' else s
  | EmptyString => s
  end.

(** Does a match of the pattern start at the first character of [s]? *)
Definition tooMuchResultsHere (s : string) : bool :=
  match dropPrefix "query returned more than " s with
  | Some (String c r) =>
      isDigit c && bool_decide (is_Some (dropPrefix " results" (dropDigits r)))
  | _ => false
  end.

Definition entityTooLargeHere (s : string) : bool :=
  bool_decide (is_Some (dropPrefix "413 Request Entity Too Large" s)).

Fixpoint matchAnywhere (here : string -> bool) (s : string) : bool :=
  here s ||
  match s with
  | String _ s' => matchAnywhere here s'
  | EmptyString => false
  end.

(** [infuraToMuchResultsErrorRE.MatchString] *)
Definition infuraToMuchResultsErrorRE (s : string) : bool :=
  matchAnywhere tooMuchResultsHere s.

(** [gethRequestEntityTooLargeRE.MatchString] *)
Definition gethRequestEntityTooLargeRE (s : string) : bool :=
  matchAnywhere entityTooLargeHere s.

(** ** The deposit exporter *)

Definition eth1LookBack : Z := 100.
Definition eth1MaxFetch : Z := 1000.

(** Lines 76-97 of [eth1DepositsExporter]: the block range of one iteration,
    from the highest block number among the stored deposits, the last block
    fetched, the first block of the deposit contract and the chain height.
    Every [+] and [-] is Go's on [uint64]. *)
Definition scanRange (lastDepositBlock lastFetchedBlock eth1DepositContractFirstBlock blockHeight : Z)
  : Z * Z :=
  let fromBlock := u64 (lastDepositBlock + 1) in
  let toBlock := blockHeight in
  let fromBlock :=
    if fromBlock <? eth1DepositContractFirstBlock then eth1DepositContractFirstBlock else fromBlock in
  let fromBlock :=
    if fromBlock <? u64 (lastFetchedBlock + 1) then u64 (lastFetchedBlock + 1) else fromBlock in
  let toBlock :=
    if u64 (toBlock - fromBlock) >? eth1MaxFetch then u64 (fromBlock + 1000) else toBlock in
  let toBlock := if toBlock >? blockHeight then blockHeight else toBlock in
  let fromBlock :=
    if (u64 (toBlock - fromBlock) <? eth1LookBack) && (toBlock >? eth1LookBack)
    then u64 (toBlock - eth1LookBack)
    else fromBlock in
  (fromBlock, toBlock).

(** *** Data of the exporter *)

(** [gethTypes.Log], the fields the exporter reads. *)
Record Log : Type := mkLog {
  Log_Topics : list bytes;
  Log_Data : bytes;
  Log_BlockNumber : Z;
  Log_TxHash : bytes;
  Log_TxIndex : Z;
  Log_Removed : bool;
}.

(** Modelled from the spec: [types.Eth1Deposit] is declared in a package that
    is not among the sources.  The fields are those of the spec's Deposit
    (transaction hash and merkle-tree index, public key, withdrawal
    credentials, amount, signature, transaction input, sender and timestamp,
    removal and signature-validity flags), under the names
    [fetchEth1Deposits] assigns and [saveEth1Deposits] reads. *)
Record Eth1Deposit : Type := mkEth1Deposit {
  TxHash : bytes;
  TxInput : bytes;
  TxIndex : Z;
  BlockNumber : Z;
  BlockTs : Z;
  FromAddress : bytes;
  PublicKey : bytes;
  WithdrawalCredentials : bytes;
  Amount : Z;
  Signature : bytes;
  MerkletreeIndex : bytes;
  Removed : bool;
  ValidSignature : bool;
}.

(** [ethpb.Deposit_Data] *)
Record Deposit_Data : Type := mkDeposit_Data {
  DD_PublicKey : bytes;
  DD_WithdrawalCredentials : bytes;
  DD_Amount : Z;
  DD_Signature : bytes;
}.

(** [gethTypes.Header]: the zero value [&gethTypes.Header{}] has time 0. *)
Record Header : Type := mkHeader {
  Header_Number : Z;
  Header_Time : Z;
}.

Definition zeroHeader : Header := mkHeader 0 0.

(** The content of a decoded [gethTypes.Transaction]. *)
Record TxInner : Type := mkTxInner {
  tx_hash : bytes;
  tx_data : bytes;
  tx_chainId : option Z;
  tx_signature : bytes;
}.

(** [gethTypes.Transaction]: the zero value [&gethTypes.Transaction{}] has no
    content ([None]), and its accessors dereference nil. *)
Definition Transaction : Type := option TxInner.

Inductive BatchArg : Type :=
| ArgString (s : string)
| ArgBlockNumber (n : Z)
| ArgBool (b : bool).

(** What [BatchElem.Result] points to. *)
Inductive BatchResult : Type :=
| HeaderResult (h : Header)
| TxResult (tx : Transaction).

(** [gethRPC.BatchElem].  [BatchCall] writes the reply into the object
    [BE_Result] points to and sets [BE_Error] of the element. *)
Record BatchElem : Type := mkBatchElem {
  BE_Method : string;
  BE_Args : list BatchArg;
  BE_Result : BatchResult;
  BE_Error : option error;
}.

(** Modelled from the spec: [utils.Config] is declared in a package that is
    not among the sources; these are the fields the two files read. *)
Record Config : Type := mkConfig {
  Eth1DepositContractFirstBlock : Z;
  GenesisForkVersion : string;
  ConfigName : string;
  SlotsPerEpoch : Z;
  PageSize : Z;
}.

(** Functions of the Prysm and go-ethereum libraries the exporter calls. *)
Class Eth1Lib : Type := {
  (** [hash.HashKeccak256] of the event's signature text *)
  eth1DepositEventSignature : bytes;
  (** [params.BeaconConfig()]: [DomainDeposit] and [ZeroHash] *)
  DomainDeposit : bytes;
  ZeroHash : bytes;
  hex_DecodeString : string -> bytes * option error;
  ComputeDomain : bytes -> bytes -> bytes -> bytes * option error;
  (** pubkey, withdrawal credentials, amount, signature, merkle tree index *)
  UnpackDepositLogData : bytes -> (bytes * bytes * bytes * bytes * bytes) * option error;
  VerifyDepositSignature : Deposit_Data -> bytes -> option error;
  FromBytes8 : bytes -> Z;
  (** [gethTypes.NewLondonSigner(chainID).Sender(tx)] *)
  LondonSigner_Sender : Z -> TxInner -> bytes * option error;
}.

(** The execution node and the SQL connection, over a world state [W].  The
    database calls only say whether the call fails; what a statement does to
    the table is [upsert] below. *)
Class Eth1World (W : Type) : Type := {
  (** [eth1Client.HeaderByNumber(ctx, nil)], then [header.Number.Uint64()] *)
  HeaderByNumber : W -> (Z * option error) * W;
  FilterLogs : Z -> Z -> W -> (list Log * option error) * W;
  (** the transport error, and the elements as the call leaves them *)
  BatchCall : list BatchElem -> W -> (option error * list BatchElem) * W;
  db_Get : W -> option error * W;
  db_Begin : W -> option error * W;
  db_Prepare : W -> option error * W;
  db_Exec : Eth1Deposit -> W -> option error * W;
  db_Commit : W -> option error * W;
}.

(** *** The table [eth1_deposits] *)

Record Row : Type := mkRow {
  tx_hash_col : bytes;
  tx_input : bytes;
  tx_index : Z;
  block_number : Z;
  block_ts : Z;
  from_address : bytes;
  publickey : bytes;
  withdrawal_credentials : bytes;
  amount : Z;
  signature : bytes;
  merkletree_index : bytes;
  removed : bool;
  valid_signature : bool;
}.

(** The unique index [(tx_hash, merkletree_index)] that [ON CONFLICT] names:
    the table holds at most one row a key. *)
Definition Key : Type := bytes * bytes.

Abbreviation Table := (gmap Key Row).

(** The row of [VALUES ($1, ..., $13)], in the order of [Exec]'s arguments. *)
Definition row_of (d : Eth1Deposit) : Row :=
  {| tx_hash_col := TxHash d;
     tx_input := TxInput d;
     tx_index := TxIndex d;
     block_number := BlockNumber d;
     block_ts := BlockTs d;
     from_address := FromAddress d;
     publickey := PublicKey d;
     withdrawal_credentials := WithdrawalCredentials d;
     amount := Amount d;
     signature := Signature d;
     merkletree_index := MerkletreeIndex d;
     removed := Removed d;
     valid_signature := ValidSignature d |}.

Definition key_of (r : Row) : Key := (tx_hash_col r, merkletree_index r).

(** [DO UPDATE SET c = EXCLUDED.c] for the twelve columns the statement
    lists; [tx_hash] is not among them. *)
Definition do_update (old excluded : Row) : Row :=
  {| tx_hash_col := tx_hash_col old;
     tx_input := tx_input excluded;
     tx_index := tx_index excluded;
     block_number := block_number excluded;
     block_ts := block_ts excluded;
     from_address := from_address excluded;
     publickey := publickey excluded;
     withdrawal_credentials := withdrawal_credentials excluded;
     amount := amount excluded;
     signature := signature excluded;
     merkletree_index := merkletree_index excluded;
     removed := removed excluded;
     valid_signature := valid_signature excluded |}.

(** [INSERT ... ON CONFLICT (tx_hash, merkletree_index) DO UPDATE SET ...] *)
Definition upsert (d : Eth1Deposit) (t : Table) : Table :=
  let r := row_of d in
  match t !! key_of r with
  | None => <[key_of r := r]> t
  | Some old => <[key_of r := do_update old r]> t
  end.

(** Every row is stored under its own key. *)
Definition table_wf (t : Table) : Prop :=
  forall k r, t !! k = Some r -> key_of r = k.

(** [select coalesce(max(block_number),0) from eth1_deposits] *)
Definition max_block_number (t : Table) : Z :=
  map_fold (fun _ r m => Z.max (block_number r) m) 0 t.

(** A local transaction ([db.WriterDb.Begin()]): statements work on
    [tx_pending]; [Commit] publishes it; [Rollback] of a transaction that is
    not committed drops it, and does nothing after a commit. *)
Record Tx : Type := mkTx {
  tx_store : Table;
  tx_pending : Table;
  tx_done : bool;
}.

Definition Tx_Begin (t : Table) : Tx := mkTx t t false.

Definition Tx_Exec (d : Eth1Deposit) (tx : Tx) : Tx :=
  mkTx (tx_store tx) (upsert d (tx_pending tx)) (tx_done tx).

Definition Tx_Commit (tx : Tx) : Tx :=
  if tx_done tx then tx else mkTx (tx_pending tx) (tx_pending tx) true.

Definition Tx_Rollback (tx : Tx) : Tx :=
  if tx_done tx then tx else mkTx (tx_store tx) (tx_store tx) true.

(** *** The functions of the exporter *)

(** [strings.Replace(s, "0x", "", -1)] *)
Fixpoint remove0x (s : string) : string :=
  match s with
  | String "0" (String "x" r) => remove0x r
  | String c r => String c (remove0x r)
  | EmptyString => EmptyString
  end.

Definition set_BlockTs (v : Z) (d : Eth1Deposit) : Eth1Deposit :=
  mkEth1Deposit (TxHash d) (TxInput d) (TxIndex d) (BlockNumber d) v (FromAddress d)
    (PublicKey d) (WithdrawalCredentials d) (Amount d) (Signature d) (MerkletreeIndex d)
    (Removed d) (ValidSignature d).

Definition set_TxInput (v : bytes) (d : Eth1Deposit) : Eth1Deposit :=
  mkEth1Deposit (TxHash d) v (TxIndex d) (BlockNumber d) (BlockTs d) (FromAddress d)
    (PublicKey d) (WithdrawalCredentials d) (Amount d) (Signature d) (MerkletreeIndex d)
    (Removed d) (ValidSignature d).

Definition set_FromAddress (v : bytes) (d : Eth1Deposit) : Eth1Deposit :=
  mkEth1Deposit (TxHash d) (TxInput d) (TxIndex d) (BlockNumber d) (BlockTs d) v
    (PublicKey d) (WithdrawalCredentials d) (Amount d) (Signature d) (MerkletreeIndex d)
    (Removed d) (ValidSignature d).

(** The three slices the loop over the logs appends to. *)
Record Decoded : Type := mkDecoded {
  blocksToFetch : list Z;
  txsToFetch : list string;
  depositsToSave : list Eth1Deposit;
}.

(** What [eth1BatchRequestHeadersAndTxs] builds before the call: the
    elements, the two maps and the slice [errors].  A map holds the pointer
    it shares with an element, which is the element's position in [elems];
    [errors] holds a copy of each element's (nil) error. *)
Record Batch : Type := mkBatch {
  elems : list BatchElem;
  headers : gmap Z nat;
  txs : gmap string nat;
  errors : list (option error);
}.

(** What one iteration does that the statements below follow: its fetches,
    its save and its sleep. *)
Inductive Event : Type :=
| EvFetch (fromBlock toBlock : Z)
| EvSave (deposits : list Eth1Deposit)
| EvSleep (seconds : Z).

Section Exporter.
Context {lib : Eth1Lib} {W : Type} {world : Eth1World W} (cfg : Config).

Definition addHeaderElem (bt : Batch) (b : Z) : Batch :=
  let header := zeroHeader in
  let err : option error := None in
  mkBatch
    (elems bt ++ [mkBatchElem "eth_getBlockByNumber"
                    [ArgBlockNumber (int64_of_u64 b); ArgBool false]
                    (HeaderResult header) err])
    (<[b := length (elems bt)]> (headers bt))
    (txs bt)
    (errors bt ++ [err]).

Definition addTxElem (bt : Batch) (txHashHex : string) : Batch :=
  let tx : Transaction := None in
  let err : option error := None in
  mkBatch
    (elems bt ++ [mkBatchElem "eth_getTransactionByHash"
                    [ArgString txHashHex] (TxResult tx) err])
    (headers bt)
    (<[txHashHex := length (elems bt)]> (txs bt))
    (errors bt ++ [err]).

(** The object behind pointer [p] once [BatchCall] has returned. *)
Definition headerAt (es : list BatchElem) (p : nat) : Header :=
  match es !! p with
  | Some (mkBatchElem _ _ (HeaderResult h) _) => h
  | _ => zeroHeader
  end.

Definition txAt (es : list BatchElem) (p : nat) : Transaction :=
  match es !! p with
  | Some (mkBatchElem _ _ (TxResult tx) _) => tx
  | _ => None
  end.

(** [for _, e := range errors { if e != nil { return nil, nil, e } }] *)
Fixpoint firstError (es : list (option error)) : option error :=
  match es with
  | [] => None
  | Some e :: _ => Some e
  | None :: es' => firstError es'
  end.

(** [eth1BatchRequestHeadersAndTxs]; a nil map is the empty map. *)
Definition eth1BatchRequestHeadersAndTxs (blocksToFetch : list Z) (txsToFetch : list string) (w : W)
  : (gmap Z Header * gmap string Transaction * option error) * W :=
  let bt := mkBatch [] ∅ ∅ [] in
  let bt := fold_left addHeaderElem blocksToFetch bt in
  let bt := fold_left addTxElem txsToFetch bt in
  if bool_decide (length (elems bt) = 0%nat)
  then ((headerAt (elems bt) <$> headers bt, txAt (elems bt) <$> txs bt, None), w)
  else
    let '((ioErr, elems'), w) := BatchCall (elems bt) w in
    match ioErr with
    | Some e => ((∅, ∅, Some e), w)
    | None =>
        match firstError (errors bt) with
        | Some e => ((∅, ∅, Some e), w)
        | None => ((headerAt elems' <$> headers bt, txAt elems' <$> txs bt, None), w)
        end
    end.

(** The domain of the deposit signature, with the fork versions of the four
    test networks; each later assignment overwrites [domain] and [err]. *)
Definition depositDomain (genForkVersion : bytes) : bytes * option error :=
  let r := ComputeDomain DomainDeposit genForkVersion ZeroHash in
  let r := if String.eqb (ConfigName cfg) "zinken"
           then ComputeDomain DomainDeposit [x00; x00; x00; x03] ZeroHash else r in
  let r := if String.eqb (ConfigName cfg) "toledo"
           then ComputeDomain DomainDeposit [x00; x70; x1e; xd0] ZeroHash else r in
  let r := if String.eqb (ConfigName cfg) "pyrmont"
           then ComputeDomain DomainDeposit [x00; x00; x20; x09] ZeroHash else r in
  let r := if String.eqb (ConfigName cfg) "prater"
           then ComputeDomain DomainDeposit [x00; x00; x10; x20] ZeroHash else r in
  r.

(** The deposit a log decodes to (lines 212-232 of [fetchEth1Deposits]). *)
Definition depositOfLog (domain : bytes) (depositLog : Log)
    (pubkey withdrawalCredentials amount signature merkletreeIndex : bytes) : Eth1Deposit :=
  let err := VerifyDepositSignature
               (mkDeposit_Data pubkey withdrawalCredentials (FromBytes8 amount) signature)
               domain in
  let validSignature := bool_decide (err = None) in
  {| TxHash := Log_TxHash depositLog;
     TxInput := [];
     TxIndex := Log_TxIndex depositLog;
     BlockNumber := Log_BlockNumber depositLog;
     BlockTs := 0;
     FromAddress := [];
     PublicKey := pubkey;
     WithdrawalCredentials := withdrawalCredentials;
     Amount := FromBytes8 amount;
     Signature := signature;
     MerkletreeIndex := merkletreeIndex;
     Removed := Log_Removed depositLog;
     ValidSignature := validSignature |}.

(** The loop over the logs (lines 204-233). *)
Fixpoint decodeLogs (domain : bytes) (depositLogs : list Log) (acc : Decoded)
  : run (Decoded * option error) :=
  match depositLogs with
  | [] => Returns (acc, None)
  | depositLog :: rest =>
      match Log_Topics depositLog with
      | [] => Panics "index out of range [0] with length 0"
      | topic0 :: _ =>
          if bool_decide (topic0 <> eth1DepositEventSignature)
          then decodeLogs domain rest acc
          else
            let '((pubkey, withdrawalCredentials, amount, signature, merkletreeIndex), err) :=
              UnpackDepositLogData (Log_Data depositLog) in
            match err with
            | Some e =>
                Returns (acc, Some (wrapf ("error unpacking eth1-deposit-log: "
                                           +:+ hex (Log_Data depositLog) +:+ ": ") e))
            | None =>
                decodeLogs domain rest
                  (mkDecoded
                     (blocksToFetch acc ++ [Log_BlockNumber depositLog])
                     (txsToFetch acc ++ [hex0x (Log_TxHash depositLog)])
                     (depositsToSave acc ++
                        [depositOfLog domain depositLog pubkey withdrawalCredentials
                           amount signature merkletreeIndex]))
            end
      end
  end.

(** The loop over the deposits (lines 240-264).  The slice holds pointers:
    a deposit the loop has reached keeps the fields already assigned when the
    function returns with an error. *)
Fixpoint enrichDeposits (headers : gmap Z Header) (txs : gmap string Transaction)
    (ds : list Eth1Deposit) : run (list Eth1Deposit * option error) :=
  match ds with
  | [] => Returns ([], None)
  | d :: rest =>
      match headers !! BlockNumber d with
      | None =>
          Returns (d :: rest,
                   Some "error getting block for eth1-deposit: block does not exist in fetched map")
      | Some b =>
          let d := set_BlockTs (int64_of_u64 (Header_Time b)) d in
          match txs !! hex0x (TxHash d) with
          | None =>
              Returns (d :: rest,
                       Some "error getting tx for eth1-deposit: tx does not exist in fetched map")
          | Some None => Panics "invalid memory address or nil pointer dereference"
          | Some (Some tx) =>
              let d := set_TxInput (tx_data tx) d in
              match tx_chainId tx with
              | None => Returns (d :: rest, Some "error getting tx-chainId for eth1-deposit")
              | Some chainID =>
                  let '(sender, err) := LondonSigner_Sender chainID tx in
                  match err with
                  | Some e =>
                      Returns (d :: rest,
                               Some (wrapf ("error getting sender for eth1-deposit (txHash: "
                                            +:+ hex (TxHash d) +:+ ", chainID: "
                                            +:+ pretty chainID +:+ "): ") e))
                  | None =>
                      let d := set_FromAddress sender d in
                      match enrichDeposits headers txs rest with
                      | Returns (rest', err) => Returns (d :: rest', err)
                      | Panics why => Panics why
                      end
                  end
              end
          end
      end
  end.

(** [fetchEth1Deposits] *)
Definition fetchEth1Deposits (fromBlock toBlock : Z) (w : W)
  : run (list Eth1Deposit * option error) * W :=
  let '((depositLogs, err), w) := FilterLogs fromBlock toBlock w in
  match err with
  | Some e => (Returns ([], Some (wrapf "error getting logs from eth1-client: " e)), w)
  | None =>
      let '(genForkVersion, err) := hex_DecodeString (remove0x (GenesisForkVersion cfg)) in
      match err with
      | Some e => (Returns ([], Some e), w)
      | None =>
          let '(domain, err) := depositDomain genForkVersion in
          match err with
          | Some e => (Returns ([], Some e), w)
          | None =>
              match decodeLogs domain depositLogs (mkDecoded [] [] []) with
              | Panics why => (Panics why, w)
              | Returns (acc, Some e) => (Returns (depositsToSave acc, Some e), w)
              | Returns (acc, None) =>
                  let '((headers, txs, err), w) :=
                    eth1BatchRequestHeadersAndTxs (blocksToFetch acc) (txsToFetch acc) w in
                  match err with
                  | Some e =>
                      (Returns (depositsToSave acc,
                                Some (wrapf "error getting eth1-blocks: " e)), w)
                  | None => (enrichDeposits headers txs (depositsToSave acc), w)
                  end
              end
          end
      end
  end.

(** The loop of [saveEth1Deposits] over the prepared statement. *)
Fixpoint execDeposits (ds : list Eth1Deposit) (w : W) (tx : Tx) : option error * W * Tx :=
  match ds with
  | [] => (None, w, tx)
  | d :: rest =>
      let '(err, w) := db_Exec d w in
      match err with
      | Some e =>
          (Some (wrapf ("error saving eth1-deposit to db: " +:+ hex (TxHash d) +:+ ": ") e),
           w, tx)
      | None => execDeposits rest w (Tx_Exec d tx)
      end
  end.

(** [saveEth1Deposits]; [defer tx.Rollback()] runs on every return that
    follows a successful [Begin]. *)
Definition saveEth1Deposits (depositsToSave : list Eth1Deposit) (w : W) (t : Table)
  : option error * W * Table :=
  let '(err, w) := db_Begin w in
  match err with
  | Some e => (Some e, w, t)
  | None =>
      let tx := Tx_Begin t in
      let '(ret, w, tx) :=
        let '(err, w) := db_Prepare w in
        match err with
        | Some e => (Some e, w, tx)
        | None =>
            let '(err, w, tx) := execDeposits depositsToSave w tx in
            match err with
            | Some e => (Some e, w, tx)
            | None =>
                let '(err, w) := db_Commit w in
                match err with
                | Some e =>
                    (Some (wrapf "error commiting db-tx for eth1-deposits: " e), w, tx)
                | None => (None, w, Tx_Commit tx)
                end
            end
        end in
      (ret, w, tx_store (Tx_Rollback tx))
  end.

(** [err.Error()] matches one of the two patterns of the provider. *)
Definition tooMuchResults (e : error) : bool :=
  infuraToMuchResultsErrorRE e || gethRequestEntityTooLargeRE e.

(** One iteration of the loop of [eth1DepositsExporter]: the new
    [lastFetchedBlock], the world, the table, and the fetches, the save and
    the sleep of the iteration in their order. *)
Definition exporterIteration (lastFetchedBlock : Z) (w : W) (t : Table)
  : run (Z * list Event) * W * Table :=
  let '(err, w) := db_Get w in
  match err with
  | Some _ => (Returns (lastFetchedBlock, [EvSleep 5]), w, t)
  | None =>
  let lastDepositBlock := max_block_number t in
  let '((blockHeight, err), w) := HeaderByNumber w in
  match err with
  | Some _ => (Returns (lastFetchedBlock, [EvSleep 5]), w, t)
  | None =>
  let '(fromBlock, toBlock) :=
    scanRange lastDepositBlock lastFetchedBlock (Eth1DepositContractFirstBlock cfg) blockHeight in
  let '(r, w) := fetchEth1Deposits fromBlock toBlock w in
  match r with
  | Panics why => (Panics why, w, t)
  | Returns (depositsToSave, err) =>
  let '(r, w, toBlock, evs) :=
    match err with
    | Some e =>
        if tooMuchResults e
        then
          let toBlock' := u64 (fromBlock + 100) in
          let toBlock' := if toBlock' >? blockHeight then blockHeight else toBlock' in
          let '(r, w) := fetchEth1Deposits fromBlock toBlock' w in
          (r, w, toBlock', [EvFetch fromBlock toBlock; EvFetch fromBlock toBlock'])
        else (Returns (depositsToSave, err), w, toBlock, [EvFetch fromBlock toBlock])
    | None => (Returns (depositsToSave, err), w, toBlock, [EvFetch fromBlock toBlock])
    end in
  match r with
  | Panics why => (Panics why, w, t)
  | Returns (_, Some _) => (Returns (lastFetchedBlock, evs ++ [EvSleep 5]), w, t)
  | Returns (depositsToSave, None) =>
  let '(err, w, t) := saveEth1Deposits depositsToSave w t in
  match err with
  | Some _ => (Returns (lastFetchedBlock, evs ++ [EvSave depositsToSave; EvSleep 5]), w, t)
  | None =>
      let lastFetchedBlock := toBlock in
      if bool_decide (blockHeight <> toBlock)
      then (Returns (lastFetchedBlock, evs ++ [EvSave depositsToSave; EvSleep 5]), w, t)
      else (Returns (lastFetchedBlock, evs ++ [EvSave depositsToSave; EvSleep 60]), w, t)
  end
  end
  end
  end
  end.

End Exporter.

(** *** A scripted world and library, for the examples

    The world is a script of replies: the chain height, the replies of the
    successive [FilterLogs] calls, the transport error of [BatchCall], the
    error and the values it puts into every element, and the transaction
    hash whose insert fails. *)
Record Script : Type := mkScript {
  sc_head : Z * option error;
  sc_logs : list (list Log * option error);
  sc_batch_error : option error;
  sc_sub_error : option error;
  sc_header_time : Z;
  sc_tx : Transaction;
  sc_exec_fail : option bytes;
}.

Definition sc_pop (w : Script) : Script :=
  mkScript (sc_head w) (tail (sc_logs w)) (sc_batch_error w) (sc_sub_error w)
    (sc_header_time w) (sc_tx w) (sc_exec_fail w).

Definition sc_reply (w : Script) (e : BatchElem) : BatchElem :=
  match sc_sub_error w with
  | Some err => mkBatchElem (BE_Method e) (BE_Args e) (BE_Result e) (Some err)
  | None =>
      mkBatchElem (BE_Method e) (BE_Args e)
        match BE_Result e with
        | HeaderResult _ => HeaderResult (mkHeader 0 (sc_header_time w))
        | TxResult _ => TxResult (sc_tx w)
        end
        None
  end.

#[global] Instance scriptedWorld : Eth1World Script := {|
  HeaderByNumber w := (sc_head w, w);
  FilterLogs _ _ w := (hd ([], None) (sc_logs w), sc_pop w);
  BatchCall es w :=
    match sc_batch_error w with
    | Some e => ((Some e, es), w)
    | None => ((None, map (sc_reply w) es), w)
    end;
  db_Get w := (None, w);
  db_Begin w := (None, w);
  db_Prepare w := (None, w);
  db_Exec d w :=
    (if bool_decide (sc_exec_fail w = Some (TxHash d)) then Some "duplicate key" else None, w);
  db_Commit w := (None, w);
|}.

(** A library for the examples: the event's topic is the byte 01; a log's
    data is the public key's byte followed by the signature; a signature is
    valid when it is not empty. *)
Definition scriptedLib : Eth1Lib := {|
  eth1DepositEventSignature := [x01];
  DomainDeposit := [x03; x00; x00; x00];
  ZeroHash := [];
  hex_DecodeString _ := ([x00; x00; x00; x00], None);
  ComputeDomain d _ _ := (d, None);
  UnpackDepositLogData data :=
    match data with
    | pk :: sig => (([pk], [], [], sig, [x00]), None)
    | [] => (([], [], [], [], []), Some "short log data")
    end;
  VerifyDepositSignature dd _ :=
    match DD_Signature dd with
    | [] => Some "could not verify deposit data signature"
    | _ => None
    end;
  FromBytes8 _ := 32000000000;
  LondonSigner_Sender _ tx := (tx_signature tx, None);
|}.

Definition scriptedConfig : Config := mkConfig 100 "0x00000000" "mainnet" 32 500.

(** Two logs of the deposit event in block 7, the first with a signature,
    the second without one. *)
Definition validLog : Log := mkLog [[x01]] [xaa; xbb] 7 [x11] 0 false.
Definition invalidLog : Log := mkLog [[x01]] [xcc] 7 [x22] 1 false.

(** A node that answers every element of a batch with an error. *)
Definition failingBatch : Script :=
  mkScript (2000, None) [([validLog], None)] None (Some "header not found") 0 None None.

(** A node that answers with block time 1600000000 and a transaction. *)
Definition healthyNode (logs : list (list Log * option error)) : Script :=
  mkScript (2000, None) logs None None 1600000000
    (Some (mkTxInner [x11] [xde; xad] (Some 1) [xfe])) None.

Definition deposit_v1 : Eth1Deposit :=
  mkEth1Deposit [x11] [] 0 7 1600000000 [xfe] [xaa] [] 32000000000 [xbb] [x00] false true.

(** The same key, after a reorg: another block, time and removal flag. *)
Definition deposit_v2 : Eth1Deposit :=
  mkEth1Deposit [x11] [] 3 9 1600000024 [xfe] [xaa] [] 32000000000 [xbb] [x00] true true.

(** The insert of the deposit with transaction hash 22 fails. *)
Definition failingInsert : Script :=
  mkScript (2000, None) [] None None 0 None (Some [x22]).

Definition deposit_bad : Eth1Deposit :=
  mkEth1Deposit [x22] [] 1 7 1600000000 [xfe] [xcc] [] 32000000000 [] [x01] false false.

(** A range whose two logs are the valid and the invalid deposit. *)
Definition twoDeposits : Script := healthyNode [([validLog; invalidLog], None)].

Definition fetched_valid : Eth1Deposit :=
  mkEth1Deposit [x11] [xde; xad] 0 7 1600000000 [xfe] [xaa] [] 32000000000 [xbb] [x00]
    false true.

Definition fetched_invalid : Eth1Deposit :=
  mkEth1Deposit [x22] [xde; xad] 1 7 1600000000 [xfe] [xcc] [] 32000000000 [] [x00]
    false false.

(** The provider refuses the first range for its size, and the retry
    fails with another error. *)
Definition overloadedNode : Script :=
  healthyNode [([], Some "query returned more than 10000 results");
               ([], Some "context deadline exceeded")].

(** *** Predicates of the statements about the exporter *)

Section ExporterPredicates.
Context {lib : Eth1Lib}.

(** A log the loop does not skip: its first topic is the deposit event. *)
Definition isDepositLog (l : Log) : bool :=
  match Log_Topics l with
  | topic0 :: _ => bool_decide (topic0 = eth1DepositEventSignature)
  | [] => false
  end.

(** Deposit [d] records log [l]: the fields decoded from the log, and the
    outcome of the signature check under [domain]. *)
Definition recordsLog (domain : bytes) (l : Log) (d : Eth1Deposit) : Prop :=
  exists pubkey withdrawalCredentials amount signature merkletreeIndex,
    UnpackDepositLogData (Log_Data l)
    = ((pubkey, withdrawalCredentials, amount, signature, merkletreeIndex), None) /\
    TxHash d = Log_TxHash l /\
    TxIndex d = Log_TxIndex l /\
    BlockNumber d = Log_BlockNumber l /\
    PublicKey d = pubkey /\
    WithdrawalCredentials d = withdrawalCredentials /\
    Amount d = FromBytes8 amount /\
    Signature d = signature /\
    MerkletreeIndex d = merkletreeIndex /\
    Removed d = Log_Removed l /\
    ValidSignature d
    = bool_decide (VerifyDepositSignature
                     (mkDeposit_Data pubkey withdrawalCredentials (FromBytes8 amount) signature)
                     domain = None).

End ExporterPredicates.

(** The fields the loop over the logs decodes are the same in both. *)
Definition sameDecoded (d d' : Eth1Deposit) : Prop :=
  TxHash d' = TxHash d /\ TxIndex d' = TxIndex d /\ BlockNumber d' = BlockNumber d /\
  PublicKey d' = PublicKey d /\ WithdrawalCredentials d' = WithdrawalCredentials d /\
  Amount d' = Amount d /\ Signature d' = Signature d /\
  MerkletreeIndex d' = MerkletreeIndex d /\ Removed d' = Removed d /\
  ValidSignature d' = ValidSignature d.

(** ** The Prysm client *)

(** *** The cache of [hashicorp/golang-lru]

    The entries of the cache, the most recently used first.  [Get] moves
    the entry it finds to the front; [Add] replaces the value of a key that
    is present and moves it to the front, and else puts the entry at the
    front and evicts the oldest one when the cache holds more than [size]
    entries. *)
Module lru.

Record Cache (V : Type) : Type := mkCache {
  size : nat;
  entries : list (Z * V);
}.
Arguments mkCache {V} size entries.
Arguments size {V} c.
Arguments entries {V} c.

Definition New {V : Type} (size : nat) : Cache V := mkCache size [].

Fixpoint find {V : Type} (key : Z) (es : list (Z * V)) : option V :=
  match es with
  | [] => None
  | (k, v) :: es' => if k =? key then Some v else find key es'
  end.

Fixpoint remove {V : Type} (key : Z) (es : list (Z * V)) : list (Z * V) :=
  match es with
  | [] => []
  | (k, v) :: es' => if k =? key then es' else (k, v) :: remove key es'
  end.

Definition Get {V : Type} (key : Z) (c : Cache V) : option V * Cache V :=
  match find key (entries c) with
  | Some v => (Some v, mkCache (size c) ((key, v) :: remove key (entries c)))
  | None => (None, c)
  end.

Definition Add {V : Type} (key : Z) (value : V) (c : Cache V) : Cache V :=
  match find key (entries c) with
  | Some _ => mkCache (size c) ((key, value) :: remove key (entries c))
  | None =>
      let es := (key, value) :: entries c in
      if (size c <? length es)%nat
      then mkCache (size c) (removelast es)
      else mkCache (size c) es
  end.

End lru.

(** *** Messages of the beacon node *)

(** [ethpb.ValidatorAssignments_CommitteeAssignment] *)
Record CommitteeAssignment : Type := mkCommitteeAssignment {
  BeaconCommittees : list Z;
  CA_CommitteeIndex : Z;
  AttesterSlot : Z;
  ProposerSlots : list Z;
  CA_ValidatorIndex : Z;
}.

(** [ethpb.ValidatorAssignments] *)
Record ValidatorAssignments : Type := mkValidatorAssignments {
  VA_Epoch : Z;
  Assignments : list CommitteeAssignment;
  NextPageToken : string;
  TotalSize : Z;
}.

Inductive AssignmentsFilter : Type :=
| Filter_Epoch (epoch : Z)
| Filter_Genesis (genesis : bool).

(** [ethpb.ListValidatorAssignmentsRequest] *)
Record ListValidatorAssignmentsRequest : Type := mkListValidatorAssignmentsRequest {
  Req_QueryFilter : AssignmentsFilter;
  Req_PageSize : Z;
  Req_PageToken : string;
}.

(** [ethpb.BeaconChainClient], the call the model follows, over the state
    [N] of the beacon node. *)
Class BeaconChainClient (N : Type) : Type := {
  ListValidatorAssignments :
    ListValidatorAssignmentsRequest -> N -> (ValidatorAssignments * option error) * N;
}.

(** Modelled from the spec: [types.EpochAssignments] is declared in a package
    that is not among the sources: the map from proposer slot to validator
    and the map from the composite attester key to validator. *)
Record EpochAssignments : Type := mkEpochAssignments {
  ProposerAssignments : gmap Z Z;
  AttestorAssignments : gmap string Z;
}.

(** The state of a [PrysmClient] that the model follows: the cache of
    assignments, and the beacon node behind [client]. *)
Record PrysmClient (N : Type) : Type := mkPrysmClient {
  assignmentsCache : lru.Cache EpochAssignments;
  node : N;
}.
Arguments mkPrysmClient {N} assignmentsCache node.
Arguments assignmentsCache {N} p.
Arguments node {N} p.

(** [NewPrysmClient]: [lru.New(10)]. *)
Definition NewPrysmClient {N : Type} (n : N) : PrysmClient N :=
  mkPrysmClient (lru.New 10) n.

(** The content of a decoded [gtypes.Transaction], by accessor. *)
Record DecodedTx : Type := mkDecodedTx {
  dtx_Hash : bytes;
  dtx_Nonce : Z;
  dtx_GasPrice : Z;
  dtx_Gas : Z;
  dtx_To : option bytes;
  dtx_Value : Z;
  dtx_Data : bytes;
  dtx_GasTipCap : Z;
  dtx_GasFeeCap : Z;
  dtx_Signature : bytes;
}.

(** Functions the client calls whose code is not in the two files:
    [utils.FormatAttestorAssignmentKey] and [syncCommitteeParticipation] of
    the repository, and those of go-bitfield, go-ethereum and [math/big]. *)
Class PrysmLib : Type := {
  FormatAttestorAssignmentKey : Z -> Z -> Z -> string;
  Bitlist_Len : bytes -> Z;
  Bitlist_BitAt : bytes -> Z -> bool;
  float64 : Type;
  syncCommitteeParticipation : bytes -> float64;
  UnmarshalBinary : bytes -> DecodedTx * option error;
  signer_Sender : DecodedTx -> bytes * option error;
  bigInt_Bytes : Z -> bytes;
  bigInt_Uint64 : Z -> Z;
}.

(** What a call of the client ends in: a value, an error, or a panic. *)
Inductive outcome (A : Type) : Type :=
| Ok (a : A)
| Err (e : error)
| Panic (why : string).
Arguments Ok {A} a.
Arguments Err {A} e.
Arguments Panic {A} why.

(** *** GetEpochAssignments *)

Section Assignments.
Context {lib : PrysmLib} {N : Type} {client : BeaconChainClient N} (cfg : Config).

(** The condition that ends the loop over the pages. *)
Definition lastPage (resp : ValidatorAssignments) (validatorAssignmentes : list CommitteeAssignment)
  : bool :=
  String.eqb (NextPageToken resp) ""
  || (TotalSize resp =? 0)
  || (Z.of_nat (length validatorAssignmentes) =? TotalSize resp).

(** The loop over the pages (lines 201-214); [None] when the fuel runs out
    before the loop ends.  The result holds the assignments and the error of
    the call that failed. *)
Fixpoint listValidatorAssignments (fuel : nat) (filter : AssignmentsFilter) (pageToken : string)
    (validatorAssignmentes : list CommitteeAssignment) (n : N)
  : option ((list CommitteeAssignment * option error) * N) :=
  match fuel with
  | O => None
  | S fuel' =>
      let '((resp, err), n) :=
        ListValidatorAssignments
          (mkListValidatorAssignmentsRequest filter (PageSize cfg) pageToken) n in
      match err with
      | Some e =>
          Some ((validatorAssignmentes,
                 Some ("error retrieving validator assignment response for caching: " +:+ e)),
                n)
      | None =>
          let validatorAssignmentes := validatorAssignmentes ++ Assignments resp in
          if lastPage resp validatorAssignmentes
          then Some ((validatorAssignmentes, None), n)
          else listValidatorAssignments fuel' filter (NextPageToken resp) validatorAssignmentes n
      end
  end.

(** [for memberIndex, validatorIndex := range assignment.BeaconCommittees] *)
Fixpoint addMembers (attesterSlot committeeIndex : Z) (memberIndex : Z) (members : list Z)
    (m : gmap string Z) : gmap string Z :=
  match members with
  | [] => m
  | validatorIndex :: rest =>
      addMembers attesterSlot committeeIndex (memberIndex + 1) rest
        (<[FormatAttestorAssignmentKey attesterSlot committeeIndex memberIndex
           := validatorIndex]> m)
  end.

(** The body of the loop over the assignments (lines 219-227). *)
Definition addAssignment (assignments : EpochAssignments) (assignment : CommitteeAssignment)
  : EpochAssignments :=
  mkEpochAssignments
    (fold_left (fun m slot => <[slot := CA_ValidatorIndex assignment]> m)
       (ProposerSlots assignment) (ProposerAssignments assignments))
    (addMembers (AttesterSlot assignment) (CA_CommitteeIndex assignment) 0
       (BeaconCommittees assignment) (AttestorAssignments assignments)).

Definition buildAssignments (validatorAssignmentes : list CommitteeAssignment) : EpochAssignments :=
  fold_left addAssignment validatorAssignmentes (mkEpochAssignments ∅ ∅).

(** The guard of line 229. *)
Definition bothNonEmpty (a : EpochAssignments) : bool :=
  (0 <? Z.of_nat (size (AttestorAssignments a)))
  && (0 <? Z.of_nat (size (ProposerAssignments a))).

(** [GetEpochAssignments], under the mutex for the whole call. *)
Definition GetEpochAssignments (fuel : nat) (epoch : Z) (pc : PrysmClient N)
  : option (outcome EpochAssignments * PrysmClient N) :=
  let '(cachedValue, cache) := lru.Get epoch (assignmentsCache pc) in
  match cachedValue with
  | Some v => Some (Ok v, mkPrysmClient cache (node pc))
  | None =>
      let filter := if epoch =? 0 then Filter_Genesis true else Filter_Epoch epoch in
      match listValidatorAssignments fuel filter "" [] (node pc) with
      | None => None
      | Some ((_, Some e), n) => Some (Err e, mkPrysmClient cache n)
      | Some ((validatorAssignmentes, None), n) =>
          let assignments := buildAssignments validatorAssignmentes in
          let cache :=
            if bothNonEmpty assignments then lru.Add epoch assignments cache else cache in
          Some (Ok assignments, mkPrysmClient cache n)
      end
  end.

End Assignments.

(** *** Wire blocks ([ethpb])

    A message field the parsers dereference without a nil check is a field
    of the record; a field they test against nil is an [option]. *)

Record Eth1Data : Type := mkEth1Data {
  DepositRoot : bytes;
  DepositCount : Z;
  BlockHash : bytes;
}.

Record Checkpoint : Type := mkCheckpoint {
  Epoch : Z;
  Root : bytes;
}.

Record AttestationData : Type := mkAttestationData {
  AD_Slot : Z;
  AD_CommitteeIndex : Z;
  BeaconBlockRoot : bytes;
  Source : Checkpoint;
  Target : Checkpoint;
}.

(** [ethpb.SignedBeaconBlockHeader] *)
Record BlockHeader : Type := mkBlockHeader {
  BH_Slot : Z;
  BH_ProposerIndex : Z;
  BH_ParentRoot : bytes;
  BH_StateRoot : bytes;
  BH_BodyRoot : bytes;
  BH_Signature : bytes;
}.

Record WireProposerSlashing : Type := mkWireProposerSlashing {
  Header_1 : BlockHeader;
  Header_2 : BlockHeader;
}.

Record IndexedAttestation : Type := mkIndexedAttestation {
  IA_Data : AttestationData;
  IA_Signature : bytes;
  AttestingIndices : list Z;
}.

Record AttesterSlashing : Type := mkAttesterSlashing {
  Attestation_1 : IndexedAttestation;
  Attestation_2 : IndexedAttestation;
}.

Record WireAttestation : Type := mkWireAttestation {
  WA_AggregationBits : bytes;
  WA_Data : AttestationData;
  WA_Signature : bytes;
}.

Record WireDeposit : Type := mkWireDeposit {
  WD_Proof : list bytes;
  WD_Data : Deposit_Data;
}.

Record SignedVoluntaryExit : Type := mkSignedVoluntaryExit {
  Exit_Epoch : Z;
  Exit_ValidatorIndex : Z;
  Exit_Signature : bytes;
}.

Record WireSyncAggregate : Type := mkWireSyncAggregate {
  WS_SyncCommitteeBits : bytes;
  WS_SyncCommitteeSignature : bytes;
}.

Record WireWithdrawal : Type := mkWireWithdrawal {
  WW_Index : Z;
  WW_ValidatorIndex : Z;
  WW_Address : bytes;
  WW_Amount : Z;
}.

(** [enginev1.ExecutionPayload] and [enginev1.ExecutionPayloadCapella]; the
    former has no withdrawals. *)
Record WireExecutionPayload : Type := mkWireExecutionPayload {
  WP_ParentHash : bytes;
  WP_FeeRecipient : bytes;
  WP_StateRoot : bytes;
  WP_ReceiptsRoot : bytes;
  WP_LogsBloom : bytes;
  WP_PrevRandao : bytes;
  WP_BlockNumber : Z;
  WP_GasLimit : Z;
  WP_GasUsed : Z;
  WP_Timestamp : Z;
  WP_ExtraData : bytes;
  WP_BaseFeePerGas : bytes;
  WP_BlockHash : bytes;
  WP_Transactions : list bytes;
  WP_Withdrawals : list WireWithdrawal;
}.

Record WireBLSToExecutionChange : Type := mkWireBLSToExecutionChange {
  WC_ValidatorIndex : Z;
  WC_FromBlsPubkey : bytes;
  WC_ToExecutionAddress : bytes;
  WC_Signature : bytes;
}.

(** A signed beacon block of any of the four forks: the fields all forks
    have, and those the later forks add (absent in a block of an earlier
    fork). *)
Record SignedBeaconBlock : Type := mkSignedBeaconBlock {
  SB_Slot : Z;
  SB_ProposerIndex : Z;
  SB_ParentRoot : bytes;
  SB_StateRoot : bytes;
  SB_Signature : bytes;
  SB_RandaoReveal : bytes;
  SB_Graffiti : bytes;
  SB_Eth1Data : Eth1Data;
  SB_ProposerSlashings : list WireProposerSlashing;
  SB_AttesterSlashings : list AttesterSlashing;
  SB_Attestations : list WireAttestation;
  SB_Deposits : list WireDeposit;
  SB_VoluntaryExits : list SignedVoluntaryExit;
  SB_SyncAggregate : option WireSyncAggregate;
  SB_ExecutionPayload : option WireExecutionPayload;
  SB_BlsToExecutionChanges : list WireBLSToExecutionChange;
}.

(** The [oneof] of [ethpb.BeaconBlockContainer]: at most one variant is
    set, and the pointer a variant holds can be nil. *)
Inductive ContainerBlock : Type :=
| NoBlock
| Phase0Block (blk : option SignedBeaconBlock)
| AltairBlock (blk : option SignedBeaconBlock)
| BellatrixBlock (blk : option SignedBeaconBlock)
| CapellaBlock (blk : option SignedBeaconBlock).

Record BeaconBlockContainer : Type := mkBeaconBlockContainer {
  BC_BlockRoot : bytes;
  BC_Canonical : bool;
  BC_Block : ContainerBlock;
}.

Definition GetPhase0Block (c : BeaconBlockContainer) : option SignedBeaconBlock :=
  match BC_Block c with Phase0Block blk => blk | _ => None end.

Definition GetAltairBlock (c : BeaconBlockContainer) : option SignedBeaconBlock :=
  match BC_Block c with AltairBlock blk => blk | _ => None end.

Definition GetBellatrixBlock (c : BeaconBlockContainer) : option SignedBeaconBlock :=
  match BC_Block c with BellatrixBlock blk => blk | _ => None end.

Definition GetCapellaBlock (c : BeaconBlockContainer) : option SignedBeaconBlock :=
  match BC_Block c with CapellaBlock blk => blk | _ => None end.

(** *** Canonical blocks ([types])

    Modelled from the spec: the records of package [types] are declared
    outside the sources; each has the fields the parsers assign. *)

(** Modelled from the spec: the [types.Block] of a slashed header, with the
    fields the parsers set. *)
Record SlashedHeader : Type := mkSlashedHeader {
  SH_Slot : Z;
  SH_ParentRoot : bytes;
  SH_StateRoot : bytes;
  SH_Signature : bytes;
  SH_BodyRoot : bytes;
}.

(** Modelled from the spec: [types.ProposerSlashing]. *)
Record ProposerSlashing : Type := mkProposerSlashing {
  PS_ProposerIndex : Z;
  Header1 : SlashedHeader;
  Header2 : SlashedHeader;
}.

(** Modelled from the spec: [types.Attestation], with the resolved
    attesters. *)
Record Attestation : Type := mkAttestation {
  AggregationBits : bytes;
  Attesters : list Z;
  Att_Data : AttestationData;
  Att_Signature : bytes;
}.

(** Modelled from the spec: [types.Deposit], a deposit inside a block. *)
Record Deposit : Type := mkDeposit {
  Dep_Proof : list bytes;
  Dep_PublicKey : bytes;
  Dep_WithdrawalCredentials : bytes;
  Dep_Amount : Z;
  Dep_Signature : bytes;
}.

(** Modelled from the spec: [types.VoluntaryExit]. *)
Record VoluntaryExit : Type := mkVoluntaryExit {
  VE_Epoch : Z;
  VE_ValidatorIndex : Z;
  VE_Signature : bytes;
}.

(** Modelled from the spec: [types.SyncAggregate]. *)
Record SyncAggregate {lib : PrysmLib} : Type := mkSyncAggregate {
  SyncCommitteeBits : bytes;
  SyncAggregateParticipation : float64;
  SyncCommitteeSignature : bytes;
}.
Arguments mkSyncAggregate {lib} _ _ _.

(** Modelled from the spec: [types.Transaction]. *)
Record CanonTransaction : Type := mkCanonTransaction {
  Raw : bytes;
  T_TxHash : bytes;
  AccountNonce : Z;
  Price : bytes;
  GasLimit : Z;
  Sender : bytes;
  Recipient : bytes;
  T_Amount : bytes;
  Payload : bytes;
  MaxPriorityFeePerGas : Z;
  MaxFeePerGas : Z;
}.

(** Modelled from the spec: [types.Withdrawals], a withdrawal with the slot
    and the root of its block. *)
Record Withdrawals : Type := mkWithdrawals {
  W_Slot : Z;
  W_BlockRoot : bytes;
  W_Index : Z;
  W_ValidatorIndex : Z;
  W_Address : bytes;
  W_Amount : Z;
}.

(** Modelled from the spec: [types.ExecutionPayload]; [Withdrawals] is nil
    ([None]) before Capella. *)
Record ExecutionPayload : Type := mkExecutionPayload {
  EP_ParentHash : bytes;
  EP_FeeRecipient : bytes;
  EP_StateRoot : bytes;
  EP_ReceiptsRoot : bytes;
  EP_LogsBloom : bytes;
  EP_Random : bytes;
  EP_BlockNumber : Z;
  EP_GasLimit : Z;
  EP_GasUsed : Z;
  EP_Timestamp : Z;
  EP_ExtraData : bytes;
  EP_BaseFeePerGas : Z;
  EP_BlockHash : bytes;
  EP_Transactions : list CanonTransaction;
  EP_Withdrawals : option (list Withdrawals);
}.

(** Modelled from the spec: [types.SignedBLSToExecutionChange], with the
    fields of its message. *)
Record SignedBLSToExecutionChange : Type := mkSignedBLSToExecutionChange {
  Msg_Validatorindex : Z;
  Msg_BlsPubkey : bytes;
  Msg_Address : bytes;
  BLS_Signature : bytes;
}.

(** Modelled from the spec: [types.Block], with the fields the parsers
    assign; a nil pointer or slice is [None]. *)
Record Block {lib : PrysmLib} : Type := mkBlock {
  Status : Z;
  Proposer : Z;
  B_BlockRoot : bytes;
  B_Slot : Z;
  B_ParentRoot : bytes;
  B_StateRoot : bytes;
  B_Signature : bytes;
  B_RandaoReveal : bytes;
  B_Graffiti : bytes;
  B_Eth1Data : Eth1Data;
  B_BodyRoot : option bytes;
  B_ProposerSlashings : list ProposerSlashing;
  B_AttesterSlashings : list AttesterSlashing;
  B_Attestations : list Attestation;
  B_Deposits : list Deposit;
  B_VoluntaryExits : list VoluntaryExit;
  B_SyncAggregate : option SyncAggregate;
  B_ExecutionPayload : option ExecutionPayload;
  B_Canonical : bool;
  B_SignedBLSToExecutionChange : option (list SignedBLSToExecutionChange);
}.
Arguments mkBlock {lib}.

(** *** The block parsers *)

(** [binary.LittleEndian.Uint64]: the first eight bytes; [None] is the
    panic on a shorter slice. *)
Definition LittleEndian_Uint64 (b : bytes) : option Z :=
  match b with
  | b0 :: b1 :: b2 :: b3 :: b4 :: b5 :: b6 :: b7 :: _ =>
      Some (Z.of_N (Byte.to_N b0)
            + Z.of_N (Byte.to_N b1) * 2 ^ 8
            + Z.of_N (Byte.to_N b2) * 2 ^ 16
            + Z.of_N (Byte.to_N b3) * 2 ^ 24
            + Z.of_N (Byte.to_N b4) * 2 ^ 32
            + Z.of_N (Byte.to_N b5) * 2 ^ 40
            + Z.of_N (Byte.to_N b6) * 2 ^ 48
            + Z.of_N (Byte.to_N b7) * 2 ^ 56)
  | _ => None
  end.

Section Parsers.
Context {lib : PrysmLib} {N : Type} {client : BeaconChainClient N} (cfg : Config).

Definition slashedHeader (h : BlockHeader) : SlashedHeader :=
  mkSlashedHeader (BH_Slot h) (BH_ParentRoot h) (BH_StateRoot h) (BH_Signature h)
    (BH_BodyRoot h).

Definition parseProposerSlashing (proposerSlashing : WireProposerSlashing) : ProposerSlashing :=
  mkProposerSlashing (BH_ProposerIndex (Header_1 proposerSlashing))
    (slashedHeader (Header_1 proposerSlashing))
    (slashedHeader (Header_2 proposerSlashing)).

(** [types.AttesterSlashing] has the fields of the wire message, and the
    parsers copy each of them. *)
Definition parseAttesterSlashing (attesterSlashing : AttesterSlashing) : AttesterSlashing :=
  mkAttesterSlashing
    (mkIndexedAttestation (IA_Data (Attestation_1 attesterSlashing))
       (IA_Signature (Attestation_1 attesterSlashing))
       (AttestingIndices (Attestation_1 attesterSlashing)))
    (mkIndexedAttestation (IA_Data (Attestation_2 attesterSlashing))
       (IA_Signature (Attestation_2 attesterSlashing))
       (AttestingIndices (Attestation_2 attesterSlashing))).

Definition parseDeposit (deposit : WireDeposit) : Deposit :=
  mkDeposit (WD_Proof deposit) (DD_PublicKey (WD_Data deposit))
    (DD_WithdrawalCredentials (WD_Data deposit)) (DD_Amount (WD_Data deposit))
    (DD_Signature (WD_Data deposit)).

Definition parseVoluntaryExit (voluntaryExit : SignedVoluntaryExit) : VoluntaryExit :=
  mkVoluntaryExit (Exit_Epoch voluntaryExit) (Exit_ValidatorIndex voluntaryExit)
    (Exit_Signature voluntaryExit).

Definition parseSyncAggregate (sa : option WireSyncAggregate) : option SyncAggregate :=
  match sa with
  | Some sa =>
      let bits := WS_SyncCommitteeBits sa in
      Some (mkSyncAggregate bits (syncCommitteeParticipation bits) (WS_SyncCommitteeSignature sa))
  | None => None
  end.

(** The loop over the bit positions of one attestation (lines 727-737):
    [positions] are the positions still to visit. *)
Fixpoint resolveAttesters (assignments : EpochAssignments) (slot committeeIndex : Z)
    (aggregationBits : bytes) (positions : list Z) (attesters : list Z) : list Z :=
  match positions with
  | [] => attesters
  | i :: rest =>
      if Bitlist_BitAt aggregationBits i
      then
        let validator :=
          match AttestorAssignments assignments
                !! FormatAttestorAssignmentKey slot committeeIndex i with
          | Some validator => validator
          | None => 0
          end in
        resolveAttesters assignments slot committeeIndex aggregationBits rest
          (attesters ++ [validator])
      else resolveAttesters assignments slot committeeIndex aggregationBits rest attesters
  end.

(** The body of the loop over the attestations (lines 702-740). *)
Definition parseAttestation (fuel : nat) (attestation : WireAttestation) (pc : PrysmClient N)
  : option (outcome Attestation * PrysmClient N) :=
  let data := WA_Data attestation in
  let aggregationBits := WA_AggregationBits attestation in
  if SlotsPerEpoch cfg =? 0
  then Some (Panic "integer divide by zero", pc)
  else
    let epoch := AD_Slot data / SlotsPerEpoch cfg in
    match GetEpochAssignments cfg fuel epoch pc with
    | None => None
    | Some (Err e, pc) =>
        Some (Err ("error receiving epoch assignment for epoch " +:+ pretty epoch
                   +:+ ": " +:+ e), pc)
    | Some (Panic why, pc) => Some (Panic why, pc)
    | Some (Ok assignments, pc) =>
        let attesters :=
          resolveAttesters assignments (AD_Slot data) (AD_CommitteeIndex data)
            aggregationBits (seqZ 0 (Bitlist_Len aggregationBits)) [] in
        Some (Ok (mkAttestation aggregationBits attesters data (WA_Signature attestation)), pc)
    end.

Fixpoint parseAttestations (fuel : nat) (attestations : list WireAttestation)
    (pc : PrysmClient N) : option (outcome (list Attestation) * PrysmClient N) :=
  match attestations with
  | [] => Some (Ok [], pc)
  | attestation :: rest =>
      match parseAttestation fuel attestation pc with
      | None => None
      | Some (Err e, pc) => Some (Err e, pc)
      | Some (Panic why, pc) => Some (Panic why, pc)
      | Some (Ok a, pc) =>
          match parseAttestations fuel rest pc with
          | None => None
          | Some (Err e, pc) => Some (Err e, pc)
          | Some (Panic why, pc) => Some (Panic why, pc)
          | Some (Ok rest', pc) => Some (Ok (a :: rest'), pc)
          end
      end
  end.

(** The loop over the raw transactions of a payload (lines 946-974). *)
Fixpoint parseTransactions (blockHash : bytes) (i : Z) (rawTxs : list bytes)
    (txs : list CanonTransaction) : outcome (list CanonTransaction) :=
  match rawTxs with
  | [] => Ok txs
  | rawTx :: rest =>
      let '(decTx, err) := UnmarshalBinary rawTx in
      match err with
      | Some e =>
          Err ("error parsing tx " +:+ pretty i +:+ " block " +:+ hex blockHash
               +:+ ": " +:+ e)
      | None =>
          let h := dtx_Hash decTx in
          let '(sender, err) := signer_Sender decTx in
          match err with
          | Some e =>
              Err ("transaction with invalid sender (tx hash: " +:+ hex h +:+ "): " +:+ e)
          | None =>
              parseTransactions blockHash (i + 1) rest
                (txs ++ [mkCanonTransaction rawTx h (dtx_Nonce decTx)
                           (bigInt_Bytes (dtx_GasPrice decTx)) (dtx_Gas decTx) sender
                           (match dtx_To decTx with Some v => v | None => [] end)
                           (bigInt_Bytes (dtx_Value decTx)) (dtx_Data decTx)
                           (bigInt_Uint64 (dtx_GasTipCap decTx))
                           (bigInt_Uint64 (dtx_GasFeeCap decTx))])
          end
      end
  end.

Definition parseWithdrawal (slot : Z) (blockRoot : bytes) (rawWithdrawal : WireWithdrawal)
  : Withdrawals :=
  mkWithdrawals slot blockRoot (WW_Index rawWithdrawal) (WW_ValidatorIndex rawWithdrawal)
    (WW_Address rawWithdrawal) (WW_Amount rawWithdrawal).

(** The guard of lines 944 and 1155. *)
Definition hasPayload (payload : option WireExecutionPayload) : option WireExecutionPayload :=
  match payload with
  | Some payload =>
      if bool_decide (WP_ParentHash payload = replicate 32 x00) then None else Some payload
  | None => None
  end.

Definition executionPayloadOf (payload : WireExecutionPayload) (txs : list CanonTransaction)
    (withdrawals : option (list Withdrawals)) : outcome (option ExecutionPayload) :=
  match LittleEndian_Uint64 (WP_BaseFeePerGas payload) with
  | None => Panic "index out of range [7]"
  | Some baseFee =>
      Ok (Some (mkExecutionPayload (WP_ParentHash payload) (WP_FeeRecipient payload)
                  (WP_StateRoot payload) (WP_ReceiptsRoot payload) (WP_LogsBloom payload)
                  (WP_PrevRandao payload) (WP_BlockNumber payload) (WP_GasLimit payload)
                  (WP_GasUsed payload) (WP_Timestamp payload) (WP_ExtraData payload)
                  baseFee (WP_BlockHash payload) txs withdrawals))
  end.

(** Lines 944-993 of [parseBellatrixBlock]. *)
Definition parseBellatrixPayload (payload : option WireExecutionPayload)
  : outcome (option ExecutionPayload) :=
  match hasPayload payload with
  | None => Ok None
  | Some payload =>
      match parseTransactions (WP_BlockHash payload) 0 (WP_Transactions payload) [] with
      | Err e => Err e
      | Panic why => Panic why
      | Ok txs => executionPayloadOf payload txs None
      end
  end.

(** Lines 1155-1216 of [parseCapellaBlock]. *)
Definition parseCapellaPayload (slot : Z) (blockRoot : bytes)
    (payload : option WireExecutionPayload) : outcome (option ExecutionPayload) :=
  match hasPayload payload with
  | None => Ok None
  | Some payload =>
      match parseTransactions (WP_BlockHash payload) 0 (WP_Transactions payload) [] with
      | Err e => Err e
      | Panic why => Panic why
      | Ok txs =>
          let withdrawals := map (parseWithdrawal slot blockRoot) (WP_Withdrawals payload) in
          executionPayloadOf payload txs (Some withdrawals)
      end
  end.

Definition parseBLSToExecutionChange (blsToExec : WireBLSToExecutionChange)
  : SignedBLSToExecutionChange :=
  mkSignedBLSToExecutionChange (WC_ValidatorIndex blsToExec) (WC_FromBlsPubkey blsToExec)
    (WC_ToExecutionAddress blsToExec) (WC_Signature blsToExec).

(** The block a parser returns once the payload and the attestations are
    parsed; the other lists are filled element by element from the wire
    block. *)
Definition blockOf (block : BeaconBlockContainer) (blk : SignedBeaconBlock)
    (syncAggregate : option SyncAggregate) (executionPayload : option ExecutionPayload)
    (attestations : list Attestation)
    (blsChanges : option (list SignedBLSToExecutionChange)) : Block :=
  {| Status := 1;
     Proposer := SB_ProposerIndex blk;
     B_BlockRoot := BC_BlockRoot block;
     B_Slot := SB_Slot blk;
     B_ParentRoot := SB_ParentRoot blk;
     B_StateRoot := SB_StateRoot blk;
     B_Signature := SB_Signature blk;
     B_RandaoReveal := SB_RandaoReveal blk;
     B_Graffiti := SB_Graffiti blk;
     B_Eth1Data := mkEth1Data (DepositRoot (SB_Eth1Data blk)) (DepositCount (SB_Eth1Data blk))
                     (BlockHash (SB_Eth1Data blk));
     B_BodyRoot := None;
     B_ProposerSlashings := map parseProposerSlashing (SB_ProposerSlashings blk);
     B_AttesterSlashings := map parseAttesterSlashing (SB_AttesterSlashings blk);
     B_Attestations := attestations;
     B_Deposits := map parseDeposit (SB_Deposits blk);
     B_VoluntaryExits := map parseVoluntaryExit (SB_VoluntaryExits blk);
     B_SyncAggregate := syncAggregate;
     B_ExecutionPayload := executionPayload;
     B_Canonical := BC_Canonical block;
     B_SignedBLSToExecutionChange := blsChanges |}.

(** The attestations of [blk], then the block. *)
Definition withAttestations (fuel : nat) (blk : SignedBeaconBlock) (pc : PrysmClient N)
    (k : list Attestation -> Block) : option (outcome Block * PrysmClient N) :=
  match parseAttestations fuel (SB_Attestations blk) pc with
  | None => None
  | Some (Err e, pc) => Some (Err e, pc)
  | Some (Panic why, pc) => Some (Panic why, pc)
  | Some (Ok attestations, pc) => Some (Ok (k attestations), pc)
  end.

Definition parsePhase0Block (fuel : nat) (block : BeaconBlockContainer) (pc : PrysmClient N)
  : option (outcome Block * PrysmClient N) :=
  match GetPhase0Block block with
  | None => Some (Err "failed getting phase0 block", pc)
  | Some blk =>
      withAttestations fuel blk pc (fun attestations =>
        blockOf block blk None None attestations None)
  end.

Definition parseAltairBlock (fuel : nat) (block : BeaconBlockContainer) (pc : PrysmClient N)
  : option (outcome Block * PrysmClient N) :=
  match GetAltairBlock block with
  | None => Some (Err "failed getting altair block", pc)
  | Some blk =>
      withAttestations fuel blk pc (fun attestations =>
        blockOf block blk (parseSyncAggregate (SB_SyncAggregate blk)) None attestations None)
  end.

Definition parseBellatrixBlock (fuel : nat) (block : BeaconBlockContainer) (pc : PrysmClient N)
  : option (outcome Block * PrysmClient N) :=
  match GetBellatrixBlock block with
  | None => Some (Err "failed getting bellatrix block", pc)
  | Some blk =>
      match parseBellatrixPayload (SB_ExecutionPayload blk) with
      | Err e => Some (Err e, pc)
      | Panic why => Some (Panic why, pc)
      | Ok executionPayload =>
          withAttestations fuel blk pc (fun attestations =>
            blockOf block blk (parseSyncAggregate (SB_SyncAggregate blk)) executionPayload
              attestations None)
      end
  end.

Definition parseCapellaBlock (fuel : nat) (block : BeaconBlockContainer) (pc : PrysmClient N)
  : option (outcome Block * PrysmClient N) :=
  match GetCapellaBlock block with
  | None => Some (Err "failed getting capella block", pc)
  | Some blk =>
      match parseCapellaPayload (SB_Slot blk) (BC_BlockRoot block) (SB_ExecutionPayload blk) with
      | Err e => Some (Err e, pc)
      | Panic why => Some (Panic why, pc)
      | Ok executionPayload =>
          withAttestations fuel blk pc (fun attestations =>
            blockOf block blk (parseSyncAggregate (SB_SyncAggregate blk)) executionPayload
              attestations
              (Some (map parseBLSToExecutionChange (SB_BlsToExecutionChanges blk))))
      end
  end.

(** [parseRpcBlock] *)
Definition parseRpcBlock (fuel : nat) (block : BeaconBlockContainer) (pc : PrysmClient N)
  : option (outcome Block * PrysmClient N) :=
  match GetPhase0Block block with
  | Some _ => parsePhase0Block fuel block pc
  | None =>
  match GetAltairBlock block with
  | Some _ => parseAltairBlock fuel block pc
  | None =>
  match GetBellatrixBlock block with
  | Some _ => parseBellatrixBlock fuel block pc
  | None =>
  match GetCapellaBlock block with
  | Some _ => parseCapellaBlock fuel block pc
  | None => Some (Err "block is neither phase0 nor altair nor bellatrix nor capella", pc)
  end
  end
  end
  end.

End Parsers.

(** *** Predicates of the statements about the client *)

(** Every entry of the cache has both maps non-empty. *)
Definition cacheNonEmpty (c : lru.Cache EpochAssignments) : Prop :=
  Forall (fun kv => bothNonEmpty (snd kv) = true) (lru.entries c).

Section ClientPredicates.
Context {lib : PrysmLib} {N : Type} {client : BeaconChainClient N} (cfg : Config).

(** The states of a client: a new client; a state after any call that
    leaves the cache alone, whatever it does to the node; a state after a
    call of [GetEpochAssignments] that returned. *)
Inductive reachable : PrysmClient N -> Prop :=
| reachable_new (n : N) : reachable (NewPrysmClient n)
| reachable_node (pc : PrysmClient N) (n : N) :
    reachable pc -> reachable (mkPrysmClient (assignmentsCache pc) n)
| reachable_get (pc : PrysmClient N) (fuel : nat) (epoch : Z)
    (r : outcome EpochAssignments) (pc' : PrysmClient N) :
    reachable pc -> GetEpochAssignments cfg fuel epoch pc = Some (r, pc') -> reachable pc'.

(** A run of the loop over the pages, from page token [pageToken] with
    [acc] collected so far: it ends with the call that fails, or with the
    page that [lastPage] accepts. *)
Inductive Paginate (filter : AssignmentsFilter)
  : string -> list CommitteeAssignment -> N ->
    list CommitteeAssignment * option error -> N -> Prop :=
| Paginate_fail pageToken acc n resp e n' :
    ListValidatorAssignments
      (mkListValidatorAssignmentsRequest filter (PageSize cfg) pageToken) n
    = ((resp, Some e), n') ->
    Paginate filter pageToken acc n
      (acc, Some ("error retrieving validator assignment response for caching: " +:+ e)) n'
| Paginate_last pageToken acc n resp n' :
    ListValidatorAssignments
      (mkListValidatorAssignmentsRequest filter (PageSize cfg) pageToken) n
    = ((resp, None), n') ->
    lastPage resp (acc ++ Assignments resp) = true ->
    Paginate filter pageToken acc n (acc ++ Assignments resp, None) n'
| Paginate_more pageToken acc n resp n' r n'' :
    ListValidatorAssignments
      (mkListValidatorAssignmentsRequest filter (PageSize cfg) pageToken) n
    = ((resp, None), n') ->
    lastPage resp (acc ++ Assignments resp) = false ->
    Paginate filter (NextPageToken resp) (acc ++ Assignments resp) n' r n'' ->
    Paginate filter pageToken acc n r n''.

End ClientPredicates.

(** The filter of the request for an epoch (lines 197-200). *)
Definition filterOf (epoch : Z) : AssignmentsFilter :=
  if epoch =? 0 then Filter_Genesis true else Filter_Epoch epoch.

(** The validator a set bit resolves to: the one stored under the key of
    (slot, committee index, bit position), and 0 when there is none. *)
Definition attesterAt {lib : PrysmLib} (assignments : EpochAssignments)
    (slot committeeIndex i : Z) : Z :=
  default 0 (AttestorAssignments assignments
             !! FormatAttestorAssignmentKey slot committeeIndex i).

(** The attesters of an attestation under [assignments]: one for every set
    bit of the aggregation bits, in the order of the bits. *)
Definition attestersOf {lib : PrysmLib} (assignments : EpochAssignments)
    (attestation : WireAttestation) : list Z :=
  map (attesterAt assignments (AD_Slot (WA_Data attestation))
         (AD_CommitteeIndex (WA_Data attestation)))
    (List.filter (Bitlist_BitAt (WA_AggregationBits attestation))
       (seqZ 0 (Bitlist_Len (WA_AggregationBits attestation)))).

(** The block of the container, whichever variant holds it. *)
Definition blockOfContainer (c : BeaconBlockContainer) : option SignedBeaconBlock :=
  match BC_Block c with
  | NoBlock => None
  | Phase0Block blk | AltairBlock blk | BellatrixBlock blk | CapellaBlock blk => blk
  end.

(** *** A scripted beacon node and library, for the examples *)

(** The node answers the successive calls with the replies of a list, and
    with an empty last page once the list is used up. *)
#[global] Instance scriptedBeacon
  : BeaconChainClient (list (ValidatorAssignments * option error)) := {|
  ListValidatorAssignments _ n := (hd (mkValidatorAssignments 0 [] "" 0, None) n, tail n);
|}.

(** Bit lists as go-bitfield reads them: the highest set bit of the last
    byte marks the length. *)
Definition scriptedLen (b : bytes) : Z :=
  match list.last b with
  | None => 0
  | Some l =>
      if (Byte.to_N l =? 0)%N then 0
      else 8 * (Z.of_nat (length b) - 1) + Z.of_N (N.log2 (Byte.to_N l))
  end.

Definition scriptedBitAt (b : bytes) (i : Z) : bool :=
  (i <? scriptedLen b)
  && match b !! Z.to_nat (i / 8) with
     | Some x => N.testbit (Byte.to_N x) (Z.to_N (i mod 8))
     | None => false
     end.

Definition scriptedPrysmLib : PrysmLib := {|
  FormatAttestorAssignmentKey s c m := pretty s +:+ "-" +:+ pretty c +:+ "-" +:+ pretty m;
  Bitlist_Len := scriptedLen;
  Bitlist_BitAt := scriptedBitAt;
  float64 := Z * Z;
  syncCommitteeParticipation b := (0, 8 * Z.of_nat (length b));
  UnmarshalBinary raw :=
    match raw with
    | [] => (mkDecodedTx [] 0 0 0 None 0 [] 0 0 [], Some "typed transaction too short")
    | _ => (mkDecodedTx raw 0 1 21000 None 0 [] 0 0 [xfe], None)
    end;
  signer_Sender dtx := (dtx_Signature dtx, None);
  bigInt_Bytes _ := [x01];
  bigInt_Uint64 := u64;
|}.

(** A page with the assignment of validator 9: proposer of slot 64 and
    first member of committee 0 at slot 64. *)
Definition onePage : ValidatorAssignments :=
  mkValidatorAssignments 2 [mkCommitteeAssignment [9; 4] 0 64 [64] 9] "" 2.

Definition emptyPage : ValidatorAssignments := mkValidatorAssignments 2 [] "" 0.

(** Blocks for the examples.  A Bellatrix block from before the merge: its
    payload has the parent hash of 32 zero bytes. *)
Definition zeroPayload : WireExecutionPayload :=
  mkWireExecutionPayload (replicate 32 x00) [] [] [] [] [] 0 0 0 0 []
    (replicate 32 x00) (replicate 32 x00) [] [].

Definition emptyBlock (slot : Z) (payload : option WireExecutionPayload) : SignedBeaconBlock :=
  mkSignedBeaconBlock slot 1 [] [] [] [] [] (mkEth1Data [] 0 []) [] [] [] [] [] None payload [].

Definition premergeContainer : BeaconBlockContainer :=
  mkBeaconBlockContainer [xab] true (BellatrixBlock (Some (emptyBlock 100 (Some zeroPayload)))).

(** A Capella block at slot 200 with root cd and two withdrawals. *)
Definition capellaPayload : WireExecutionPayload :=
  mkWireExecutionPayload (replicate 32 x01) [] [] [] [] [] 17 30000000 21000 1700000000 []
    (x07 :: replicate 31 x00) [xee] []
    [mkWireWithdrawal 0 9 [xa1] 1000; mkWireWithdrawal 1 4 [xa2] 2000].

Definition capellaContainer : BeaconBlockContainer :=
  mkBeaconBlockContainer [xcd] true (CapellaBlock (Some (emptyBlock 200 (Some capellaPayload)))).

(** An attestation of slot 64 whose bit list has the one bit 0 set, for
    committee 0 and for committee 1. *)
Definition attestationOf (committeeIndex : Z) : WireAttestation :=
  mkWireAttestation [x03]
    (mkAttestationData 64 committeeIndex [] (mkCheckpoint 1 []) (mkCheckpoint 2 [])) [].

Definition attestedBlock : SignedBeaconBlock :=
  mkSignedBeaconBlock 65 1 [] [] [] [] [] (mkEth1Data [] 0 []) [] []
    [attestationOf 0; attestationOf 1] [] [] None None [].

Definition attestedContainer : BeaconBlockContainer :=
  mkBeaconBlockContainer [xef] true (Phase0Block (Some attestedBlock)).

(** *** Further predicates of the statements about the exporter *)

(** The element [eth1BatchRequestHeadersAndTxs] appends for a block number,
    and for a transaction hash, before the call. *)
Definition headerElem (b : Z) : BatchElem :=
  mkBatchElem "eth_getBlockByNumber" [ArgBlockNumber (int64_of_u64 b); ArgBool false]
    (HeaderResult zeroHeader) None.

Definition txElem (txHashHex : string) : BatchElem :=
  mkBatchElem "eth_getTransactionByHash" [ArgString txHashHex] (TxResult None) None.

(** The four test networks whose fork version [fetchEth1Deposits] fixes. *)
Definition legacyNetwork (name : string) : bool :=
  String.eqb name "zinken" || String.eqb name "toledo"
  || String.eqb name "pyrmont" || String.eqb name "prater".

(** A configuration with another genesis fork version. *)
Definition withGenesisForkVersion (v : string) (cfg : Config) : Config :=
  mkConfig (Eth1DepositContractFirstBlock cfg) v (ConfigName cfg) (SlotsPerEpoch cfg)
    (PageSize cfg).

Section EnrichmentPredicates.
Context {lib : Eth1Lib}.

(** Deposit [d] carries the time of the header that [headers] holds for its
    block, and the input and the recovered sender of the transaction that
    [txs] holds for its hash. *)
Definition enrichedBy (headers : gmap Z Header) (txs : gmap string Transaction)
    (d : Eth1Deposit) : Prop :=
  exists b tx chainID,
    headers !! BlockNumber d = Some b /\
    BlockTs d = int64_of_u64 (Header_Time b) /\
    txs !! hex0x (TxHash d) = Some (Some tx) /\
    TxInput d = tx_data tx /\
    tx_chainId tx = Some chainID /\
    LondonSigner_Sender chainID tx = (FromAddress d, None).

End EnrichmentPredicates.

(** The prater network with an unrelated genesis fork version. *)
Definition praterConfig : Config := mkConfig 100 "0xdeadbeef" "prater" 32 500.

Section FetchErrors.
Context {lib : Eth1Lib} {W : Type} {world : Eth1World W} (cfg : Config).

(** The part of a run of [fetchEth1Deposits] before the loop over the logs:
    the filter returns [logs], leaving the world [w1], the fork version
    decodes and the domain computed from it is [domain]. *)
Definition logsFiltered (fromBlock toBlock : Z) (w : W) (logs : list Log) (domain : bytes)
    (w1 : W) : Prop :=
  exists genForkVersion : bytes,
    FilterLogs fromBlock toBlock w = ((logs, None), w1) /\
    hex_DecodeString (remove0x (GenesisForkVersion cfg)) = (genForkVersion, None) /\
    depositDomain cfg genForkVersion = (domain, None).

(** Where an error [e] comes from that [fetchEth1Deposits] returns, with
    the deposits [ds], for the blocks [fromBlock] to [toBlock] in the world
    [w], leaving the world [w']: every cause names the call of this run that
    failed, or the deposit of this run the loop over the deposits stopped
    at. *)
Inductive fetchErrorCause (fromBlock toBlock : Z) (w : W)
  : list Eth1Deposit -> error -> W -> Prop :=
  | cause_logs (e0 : error) (logs : list Log) (w' : W) :
      FilterLogs fromBlock toBlock w = ((logs, Some e0), w') ->
      fetchErrorCause fromBlock toBlock w []
        (wrapf "error getting logs from eth1-client: " e0) w'
  | cause_forkVersion (logs : list Log) (w' : W) (genForkVersion : bytes) (e : error) :
      FilterLogs fromBlock toBlock w = ((logs, None), w') ->
      hex_DecodeString (remove0x (GenesisForkVersion cfg)) = (genForkVersion, Some e) ->
      fetchErrorCause fromBlock toBlock w [] e w'
  | cause_domain (logs : list Log) (w' : W) (genForkVersion domain : bytes) (e : error) :
      FilterLogs fromBlock toBlock w = ((logs, None), w') ->
      hex_DecodeString (remove0x (GenesisForkVersion cfg)) = (genForkVersion, None) ->
      depositDomain cfg genForkVersion = (domain, Some e) ->
      fetchErrorCause fromBlock toBlock w [] e w'
  | cause_unpack (logs : list Log) (domain : bytes) (w' : W)
      (before : list Log) (l : Log) (after : list Log) (acc : Decoded) (e0 : error) :
      logsFiltered fromBlock toBlock w logs domain w' ->
      logs = before ++ l :: after ->
      decodeLogs domain before (mkDecoded [] [] []) = Returns (acc, None) ->
      isDepositLog l = true ->
      snd (UnpackDepositLogData (Log_Data l)) = Some e0 ->
      fetchErrorCause fromBlock toBlock w (depositsToSave acc)
        (wrapf ("error unpacking eth1-deposit-log: " +:+ hex (Log_Data l) +:+ ": ") e0) w'
  | cause_batch (logs : list Log) (domain : bytes) (w1 : W) (acc : Decoded)
      (es' : list BatchElem) (e0 : error) (w' : W) :
      logsFiltered fromBlock toBlock w logs domain w1 ->
      decodeLogs domain logs (mkDecoded [] [] []) = Returns (acc, None) ->
      BatchCall (map headerElem (map BlockNumber (depositsToSave acc))
                 ++ map txElem (map (fun d => hex0x (TxHash d)) (depositsToSave acc))) w1
      = ((Some e0, es'), w') ->
      fetchErrorCause fromBlock toBlock w (depositsToSave acc)
        (wrapf "error getting eth1-blocks: " e0) w'
  | cause_chainId (logs : list Log) (domain : bytes) (w1 : W) (acc : Decoded)
      (headers : gmap Z Header) (txs : gmap string Transaction) (w' : W)
      (pre : list Eth1Deposit) (d : Eth1Deposit) (rest pre' : list Eth1Deposit)
      (b : Header) (tx : TxInner) :
      logsFiltered fromBlock toBlock w logs domain w1 ->
      decodeLogs domain logs (mkDecoded [] [] []) = Returns (acc, None) ->
      eth1BatchRequestHeadersAndTxs (blocksToFetch acc) (txsToFetch acc) w1
      = ((headers, txs, None), w') ->
      depositsToSave acc = pre ++ d :: rest ->
      enrichDeposits headers txs pre = Returns (pre', None) ->
      headers !! BlockNumber d = Some b ->
      txs !! hex0x (TxHash d) = Some (Some tx) ->
      tx_chainId tx = None ->
      fetchErrorCause fromBlock toBlock w
        (pre' ++ set_TxInput (tx_data tx) (set_BlockTs (int64_of_u64 (Header_Time b)) d)
              :: rest)
        "error getting tx-chainId for eth1-deposit" w'
  | cause_sender (logs : list Log) (domain : bytes) (w1 : W) (acc : Decoded)
      (headers : gmap Z Header) (txs : gmap string Transaction) (w' : W)
      (pre : list Eth1Deposit) (d : Eth1Deposit) (rest pre' : list Eth1Deposit)
      (b : Header) (tx : TxInner) (chainID : Z) (sender : bytes) (e0 : error) :
      logsFiltered fromBlock toBlock w logs domain w1 ->
      decodeLogs domain logs (mkDecoded [] [] []) = Returns (acc, None) ->
      eth1BatchRequestHeadersAndTxs (blocksToFetch acc) (txsToFetch acc) w1
      = ((headers, txs, None), w') ->
      depositsToSave acc = pre ++ d :: rest ->
      enrichDeposits headers txs pre = Returns (pre', None) ->
      headers !! BlockNumber d = Some b ->
      txs !! hex0x (TxHash d) = Some (Some tx) ->
      tx_chainId tx = Some chainID ->
      LondonSigner_Sender chainID tx = (sender, Some e0) ->
      fetchErrorCause fromBlock toBlock w
        (pre' ++ set_TxInput (tx_data tx) (set_BlockTs (int64_of_u64 (Header_Time b)) d)
              :: rest)
        (wrapf ("error getting sender for eth1-deposit (txHash: " +:+ hex (TxHash d)
                +:+ ", chainID: " +:+ pretty chainID +:+ "): ") e0) w'.

End FetchErrors.

(** A node whose transactions carry no chain id. *)
Definition legacyTxNode : Script :=
  mkScript (2000, None) [([validLog], None)] None None 1600000000
    (Some (mkTxInner [x11] [xde; xad] None [xfe])) None.


(** *** Further predicates of the statements about the cache *)

(** The cache holds at most [size] entries, under pairwise different
    epochs, and [size] is at least one. *)
Definition cacheBounded {V : Type} (c : lru.Cache V) : Prop :=
  (1 <= lru.size c)%nat /\
  (length (lru.entries c) <= lru.size c)%nat /\
  List.NoDup (map fst (lru.entries c)).


(** *** Further predicates of the statements about the parsers *)

(** The number a byte string holds in little-endian order. *)
Fixpoint le_value (b : bytes) : Z :=
  match b with
  | [] => 0
  | x :: rest => Z.of_N (Byte.to_N x) + 2 ^ 8 * le_value rest
  end.

Section TransactionPredicates.
Context {lib : PrysmLib}.

(** Transaction [tx] of a payload is the raw transaction [rawTx] decoded,
    with the sender recovered by the signer; a transaction without
    recipient has the empty recipient. *)
Definition decodedFrom (rawTx : bytes) (tx : CanonTransaction) : Prop :=
  exists decTx,
    UnmarshalBinary rawTx = (decTx, None) /\
    signer_Sender decTx = (Sender tx, None) /\
    Raw tx = rawTx /\
    T_TxHash tx = dtx_Hash decTx /\
    Recipient tx = default [] (dtx_To decTx).

(** Raw transaction [rawTx] at position [i] of the payload of the block
    with hash [blockHash] does not decode, or its sender is not recovered,
    and [e] is the error of the parser for it. *)
Definition undecodable (blockHash : bytes) (i : Z) (rawTx : bytes) (e : error) : Prop :=
  exists decTx,
    (exists e0, UnmarshalBinary rawTx = (decTx, Some e0) /\
                e = "error parsing tx " +:+ pretty i +:+ " block " +:+ hex blockHash
                    +:+ ": " +:+ e0) \/
    (exists sender e0,
        UnmarshalBinary rawTx = (decTx, None) /\
        signer_Sender decTx = (sender, Some e0) /\
        e = "transaction with invalid sender (tx hash: " +:+ hex (dtx_Hash decTx)
            +:+ "): " +:+ e0).

End TransactionPredicates.

(** A Capella block whose payload has a base fee of nine bytes: 2^64 + 7. *)
Definition wideFeePayload : WireExecutionPayload :=
  mkWireExecutionPayload (replicate 32 x01) [] [] [] [] [] 17 30000000 21000 1700000000 []
    [x07; x00; x00; x00; x00; x00; x00; x00; x01] [xee] [[x02; x01]] [].

(** A payload whose second transaction is empty and does not decode. *)
Definition badTxPayload : WireExecutionPayload :=
  mkWireExecutionPayload (replicate 32 x01) [] [] [] [] [] 17 30000000 21000 1700000000 []
    (x07 :: replicate 31 x00) [xee] [[x02; x01]; []] [].

Definition badTxContainer : BeaconBlockContainer :=
  mkBeaconBlockContainer [xcd] true (BellatrixBlock (Some (emptyBlock 200 (Some badTxPayload)))).


(** ** The lists of blocks of the Prysm client *)

(** The [oneof] of the filter of [ethpb.ListBlocksRequest]. *)
Inductive BlocksFilter : Type :=
| BlocksFilter_Slot (slot : Z)
| BlocksFilter_Epoch (epoch : Z)
| BlocksFilter_Genesis (genesis : bool).

(** [ethpb.ListBlocksRequest] *)
Record ListBlocksRequest : Type := mkListBlocksRequest {
  LB_QueryFilter : BlocksFilter;
  LB_PageSize : Z;
}.

(** A container of a response.  The pointer [Block.Body.Eth1Data] of its
    block can be nil: [LC_Eth1DataNil] says that it is, and [SB_Eth1Data] of
    the block in [LC_Container] is then not read. *)
Record ListedContainer : Type := mkListedContainer {
  LC_Container : BeaconBlockContainer;
  LC_Eth1DataNil : bool;
}.

(** [ethpb.ListBeaconBlocksResponse] *)
Record ListBeaconBlocksResponse : Type := mkListBeaconBlocksResponse {
  BlockContainers : list ListedContainer;
  LBR_NextPageToken : string;
  LBR_TotalSize : Z;
}.

(** [ListBeaconBlocks] of [ethpb.BeaconChainClient], over the state [N] of
    the beacon node. *)
Class BeaconBlocksClient (N : Type) : Type := {
  ListBeaconBlocks :
    ListBlocksRequest -> N -> (ListBeaconBlocksResponse * option error) * N;
}.

(** Modelled from the spec: [types.CanonBlock] is declared outside the
    sources; the three fields [GetBlockStatusByEpoch] assigns. *)
Record CanonBlock : Type := mkCanonBlock {
  CB_BlockRoot : bytes;
  CB_Slot : Z;
  CB_Canonical : bool;
}.

Definition setEth1Data (e : Eth1Data) (blk : SignedBeaconBlock) : SignedBeaconBlock :=
  mkSignedBeaconBlock (SB_Slot blk) (SB_ProposerIndex blk) (SB_ParentRoot blk)
    (SB_StateRoot blk) (SB_Signature blk) (SB_RandaoReveal blk) (SB_Graffiti blk) e
    (SB_ProposerSlashings blk) (SB_AttesterSlashings blk) (SB_Attestations blk)
    (SB_Deposits blk) (SB_VoluntaryExits blk) (SB_SyncAggregate blk)
    (SB_ExecutionPayload blk) (SB_BlsToExecutionChanges blk).

(** Lines 539-546 of [GetBlocksBySlot]: the Altair block of the container,
    when it is set and has no Eth1Data, gets the empty one. *)
Definition defaultEth1Data (block : ListedContainer) : ListedContainer :=
  match GetAltairBlock (LC_Container block) with
  | Some blk =>
      if LC_Eth1DataNil block
      then mkListedContainer
             (mkBeaconBlockContainer (BC_BlockRoot (LC_Container block))
                (BC_Canonical (LC_Container block))
                (AltairBlock (Some (setEth1Data (mkEth1Data [] 0 []) blk))))
             false
      else block
  | None => block
  end.

(** The slot [GetBlockStatusByEpoch] reads (lines 578-584); the getters
    of a nil message return zero. *)
Definition statusSlot (block : BeaconBlockContainer) : Z :=
  match GetAltairBlock block with
  | Some altairBlock => SB_Slot altairBlock
  | None =>
      match GetPhase0Block block with
      | Some blk => SB_Slot blk
      | None => 0
      end
  end.

Section BlockLists.
Context {lib : PrysmLib} {N : Type} {client : BeaconChainClient N}
        {blocksClient : BeaconBlocksClient N} (cfg : Config).

(** [parseRpcBlock] on a container of a response.  Each of the four parsers
    reads the fields of Eth1Data when it builds the block (lines 630-634,
    776-780, 931-935 and 1137-1141), before the payload and the
    attestations: on a nil pointer this panics. *)
Definition parseListedBlock (fuel : nat) (block : ListedContainer) (pc : PrysmClient N)
  : option (outcome Block * PrysmClient N) :=
  match blockOfContainer (LC_Container block) with
  | Some _ =>
      if LC_Eth1DataNil block
      then Some (Panic "invalid memory address or nil pointer dereference", pc)
      else parseRpcBlock cfg fuel (LC_Container block) pc
  | None => parseRpcBlock cfg fuel (LC_Container block) pc
  end.

(** The loop over the containers (lines 537-555). *)
Fixpoint parseListedBlocks (fuel : nat) (containers : list ListedContainer)
    (pc : PrysmClient N) (blocks : list Block)
  : option (outcome (list Block) * PrysmClient N) :=
  match containers with
  | [] => Some (Ok blocks, pc)
  | block :: rest =>
      match parseListedBlock fuel (defaultEth1Data block) pc with
      | None => None
      | Some (Err e, pc) => Some (Err e, pc)
      | Some (Panic why, pc) => Some (Panic why, pc)
      | Some (Ok b, pc) => parseListedBlocks fuel rest pc (blocks ++ [b])
      end
  end.

(** [GetBlocksBySlot] *)
Definition GetBlocksBySlot (fuel : nat) (slot : Z) (pc : PrysmClient N)
  : option (outcome (list Block) * PrysmClient N) :=
  let filter := if slot =? 0 then BlocksFilter_Genesis true else BlocksFilter_Slot slot in
  let '((blocksResponse, err), n) :=
    ListBeaconBlocks (mkListBlocksRequest filter (PageSize cfg)) (node pc) in
  let pc := mkPrysmClient (assignmentsCache pc) n in
  match err with
  | Some e => Some (Err e, pc)
  | None =>
      if LBR_TotalSize blocksResponse =? 0
      then Some (Ok [], pc)
      else parseListedBlocks fuel (BlockContainers blocksResponse) pc []
  end.

(** [GetBlockStatusByEpoch] *)
Definition GetBlockStatusByEpoch (epoch : Z) (n : N) : outcome (list CanonBlock) * N :=
  let '((blocksResponse, err), n) :=
    ListBeaconBlocks (mkListBlocksRequest (BlocksFilter_Epoch epoch) (PageSize cfg)) n in
  match err with
  | Some e => (Err e, n)
  | None =>
      if LBR_TotalSize blocksResponse =? 0
      then (Ok [], n)
      else (Ok (map (fun block =>
                       mkCanonBlock (BC_BlockRoot (LC_Container block))
                         (statusSlot (LC_Container block))
                         (BC_Canonical (LC_Container block)))
                  (BlockContainers blocksResponse)), n)
  end.

(** Block [b] is the block of container [block] parsed. *)
Definition parsedFrom (block : ListedContainer) (b : Block) : Prop :=
  exists blk,
    blockOfContainer (LC_Container block) = Some blk /\
    Status b = 1 /\
    B_Slot b = SB_Slot blk /\
    B_BlockRoot b = BC_BlockRoot (LC_Container block) /\
    B_Canonical b = BC_Canonical (LC_Container block) /\
    B_Eth1Data b = (if LC_Eth1DataNil block then mkEth1Data [] 0 []
                    else mkEth1Data (DepositRoot (SB_Eth1Data blk))
                           (DepositCount (SB_Eth1Data blk)) (BlockHash (SB_Eth1Data blk))).

End BlockLists.

(** A node for the examples: it lists [capellaContainer] for slot 200, an
    Altair block without Eth1Data for the genesis slot, a phase 0 block
    without Eth1Data for slot 1, [capellaContainer] and then
    [badTxContainer] for slot 3, and the first two and [premergeContainer]
    for an epoch; the request for slot 2 fails. *)
Definition genesisAltair : ListedContainer :=
  mkListedContainer (mkBeaconBlockContainer [x00] true (AltairBlock (Some (emptyBlock 0 None))))
    true.

Definition bareBlock : ListedContainer :=
  mkListedContainer (mkBeaconBlockContainer [x01] true (Phase0Block (Some (emptyBlock 1 None))))
    true.

#[global] Instance scriptedBlocks
  : BeaconBlocksClient (list (ValidatorAssignments * option error)) := {|
  ListBeaconBlocks req n :=
    match LB_QueryFilter req with
    | BlocksFilter_Slot 200 =>
        ((mkListBeaconBlocksResponse [mkListedContainer capellaContainer false] "" 1, None), n)
    | BlocksFilter_Slot 1 => ((mkListBeaconBlocksResponse [bareBlock] "" 1, None), n)
    | BlocksFilter_Slot 2 => ((mkListBeaconBlocksResponse [] "" 0, Some "node is syncing"), n)
    | BlocksFilter_Slot 3 =>
        ((mkListBeaconBlocksResponse
            [mkListedContainer capellaContainer false;
             mkListedContainer badTxContainer false] "" 2, None), n)
    | BlocksFilter_Slot _ => ((mkListBeaconBlocksResponse [] "" 0, None), n)
    | BlocksFilter_Genesis _ => ((mkListBeaconBlocksResponse [genesisAltair] "" 1, None), n)
    | BlocksFilter_Epoch _ =>
        ((mkListBeaconBlocksResponse
            [genesisAltair; mkListedContainer capellaContainer false;
             mkListedContainer premergeContainer false] "" 3, None), n)
    end;
|}.


(** ** The REST interface and the balances *)

(** [http.Response], the two parts [get] reads: the status code, and what
    [ioutil.ReadAll] returns for the body. *)
Record HttpResponse : Type := mkHttpResponse {
  StatusCode : Z;
  Body : bytes * option error;
}.

(** [http.Client.Get], over the state [H] of the network: a response, or
    the error of the transport. *)
Class HttpClient (H : Type) : Type := {
  http_Get : string -> H -> (HttpResponse + error) * H;
}.

(** Modelled from the spec: [StandardValidatorBalancesResponse] is declared
    in a file of the package that is not among the sources; the model keeps
    the index and the balance of the entries of its [Data], as
    [json.Unmarshal] fills them. *)
Class JsonLib : Type := {
  json_Unmarshal_balances : bytes -> list (Z * Z) * option error;
}.

(** [ethpb.ListValidatorBalancesRequest] and its response. *)
Inductive BalancesFilter : Type :=
| BalancesFilter_Epoch (epoch : Z)
| BalancesFilter_Genesis (genesis : bool).

Record ListValidatorBalancesRequest : Type := mkListValidatorBalancesRequest {
  VB_QueryFilter : BalancesFilter;
  VB_PageSize : Z;
  VB_PageToken : string;
}.

Record ValidatorBalance : Type := mkValidatorBalance {
  VB_Index : Z;
  VB_Balance : Z;
}.

Record ValidatorBalances : Type := mkValidatorBalances {
  Balances : list ValidatorBalance;
  VB_NextPageToken : string;
  VB_TotalSize : Z;
}.

(** [ListValidatorBalances] of [ethpb.BeaconChainClient]. *)
Class BeaconBalancesClient (N : Type) : Type := {
  ListValidatorBalances :
    ListValidatorBalancesRequest -> N -> (ValidatorBalances * option error) * N;
}.

Section Rest.
Context {H : Type} {http : HttpClient H} {json : JsonLib}.

(** [get]; a nil slice is [None]. *)
Definition get (url : string) (h : H) : (option bytes * option error) * H :=
  let '(r, h) := http_Get url h in
  match r with
  | inr err => ((None, Some err), h)
  | inl resp =>
      let '(data, err) := Body resp in
      if bool_decide (StatusCode resp <> 200)
      then
        if StatusCode resp =? 404
        then ((None, Some "not found 404"), h)
        else ((None, Some ("url: " +:+ url +:+ ", error-response: "
                           +:+ string_of_list_byte data)), h)
      else ((Some data, err), h)
  end.

(** The address [GetBalancesForSlot] asks for. *)
Definition balancesUrl (endpoint : string) (slot : Z) : string :=
  endpoint +:+ "/eth/v1/beacon/states/" +:+ pretty slot +:+ "/validator_balances".

(** [GetBalancesForSlot]; a nil map is [None]. *)
Definition GetBalancesForSlot (endpoint : string) (slot : Z) (h : H)
  : (option (gmap Z Z) * option error) * H :=
  let slot := if slot <? 0 then 0 else slot in
  let validatorBalances : gmap Z Z := ∅ in
  let '((resp, err), h) := get (balancesUrl endpoint slot) h in
  match err with
  | Some e => ((Some validatorBalances, Some e), h)
  | None =>
      let '(parsedResponse, err) := json_Unmarshal_balances (default [] resp) in
      match err with
      | Some _ => ((None, Some "error parsing response for validator_balances"), h)
      | None =>
          ((Some (fold_left (fun m b => <[u64 (fst b) := u64 (snd b)]> m) parsedResponse
                    validatorBalances), None), h)
      end
  end.

End Rest.

Section EpochBalances.
Context {N : Type} {balancesClient : BeaconBalancesClient N} (cfg : Config).

(** The loop of [GetBalancesForEpoch] (lines 494-512); [None] when the
    fuel runs out before the loop ends. *)
Fixpoint listValidatorBalances (fuel : nat) (filter : BalancesFilter) (pageToken : string)
    (validatorBalances : gmap Z Z) (n : N) : option ((gmap Z Z * option error) * N) :=
  match fuel with
  | O => None
  | S fuel' =>
      let '((resp, err), n) :=
        ListValidatorBalances
          (mkListValidatorBalancesRequest filter (PageSize cfg) pageToken) n in
      match err with
      | Some e => Some ((validatorBalances, Some e), n)
      | None =>
          if VB_TotalSize resp =? 0
          then Some ((validatorBalances, None), n)
          else
            let validatorBalances :=
              fold_left (fun m balance => <[u64 (VB_Index balance) := VB_Balance balance]> m)
                (Balances resp) validatorBalances in
            if String.eqb (VB_NextPageToken resp) ""
            then Some ((validatorBalances, None), n)
            else listValidatorBalances fuel' filter (VB_NextPageToken resp)
                   validatorBalances n
      end
  end.

(** [GetBalancesForEpoch] *)
Definition GetBalancesForEpoch (fuel : nat) (epoch : Z) (n : N)
  : option ((gmap Z Z * option error) * N) :=
  let epoch := if epoch <? 0 then 0 else epoch in
  let filter :=
    if epoch =? 0 then BalancesFilter_Genesis true else BalancesFilter_Epoch epoch in
  listValidatorBalances fuel filter "" ∅ n.

(** The filter of the requests for an epoch. *)
Definition balancesFilterOf (epoch : Z) : BalancesFilter :=
  if epoch <=? 0 then BalancesFilter_Genesis true else BalancesFilter_Epoch epoch.

(** Page [resp] is the answer, without error, to a request of the loop for
    [filter], and its balances are kept. *)
Definition keptPage (filter : BalancesFilter) (resp : ValidatorBalances) : Prop :=
  exists (pageToken : string) (n1 n2 : N),
    ListValidatorBalances (mkListValidatorBalancesRequest filter (PageSize cfg) pageToken) n1
    = ((resp, None), n2) /\
    VB_TotalSize resp <> 0.

End EpochBalances.

(** The balance listed last for [index] in [data] is [balance]. *)
Definition listedLast (data : list (Z * Z)) (index balance : Z) : Prop :=
  exists (before after : list (Z * Z)) (x : Z * Z),
    data = before ++ x :: after /\
    u64 (fst x) = index /\ u64 (snd x) = balance /\
    Forall (fun y => u64 (fst y) <> index) after.

(** A network for the examples: the states 0 and 100 exist, with the body
    given; every other address is not found. *)
#[global] Instance scriptedHttp : HttpClient (list string) := {|
  http_Get url h :=
    (if String.eqb url "http://node/eth/v1/beacon/states/0/validator_balances"
     then inl (mkHttpResponse 200 ([x01; x02; x01], None))
     else if String.eqb url "http://node/eth/v1/beacon/states/100/validator_balances"
     then inl (mkHttpResponse 200 ([x01], Some "unexpected EOF"))
     else if String.eqb url "http://node/eth/v1/beacon/states/7/validator_balances"
     then inl (mkHttpResponse 503 ([x6f; x6f; x70; x73], None))
     else inl (mkHttpResponse 404 ([], None)),
     url :: h);
|}.

(** Every byte of the body is a validator index, listed with a balance that
    grows with the position. *)
Definition scriptedJson : JsonLib := {|
  json_Unmarshal_balances body :=
    (imap (fun i x => (Z.of_N (Byte.to_N x), 32000000000 + Z.of_nat i)) body, None);
|}.

(** A node that lists the balances of an epoch on two pages and fails at
    the third request, and for epoch 9 at the second; its state counts the
    requests. *)
#[global] Instance scriptedBalances : BeaconBalancesClient nat := {|
  ListValidatorBalances req n :=
    (match VB_PageToken req with
     | "" => (mkValidatorBalances [mkValidatorBalance 1 10; mkValidatorBalance 2 20] "p2" 5,
              None)
     | "p2" =>
         match VB_QueryFilter req with
         | BalancesFilter_Epoch 9 => (mkValidatorBalances [] "" 0, Some "connection reset")
         | _ => (mkValidatorBalances [mkValidatorBalance 2 21; mkValidatorBalance 3 30] "p3" 5,
                 None)
         end
     | _ => (mkValidatorBalances [] "" 0, Some "deadline exceeded")
     end, S n);
|}.


(** ** The epoch and slot aggregator

    [GetEpochData] and [GetSlotData] start goroutines and read the clock;
    the model follows the parts of them that run in sequence: the slots they
    compute, the loop over the withdrawals and the loop that fills the slots
    without a block. *)

(** Go's [int64] arithmetic: the result reduced to 64 bits and read as two's
    complement. *)
Definition i64 (z : Z) : Z := int64_of_u64 (u64 z).

(** Lines 244-253 of [GetEpochData]: the slot whose state holds the
    validators of the epoch. *)
Definition lastSlotOf (PrysmLatestHeadSlot epoch slotsPerEpoch : Z) : Z :=
  if PrysmLatestHeadSlot =? 0
  then u64 (epoch * slotsPerEpoch)
  else
    let lastSlot := u64 (u64 (u64 (epoch + 1) * slotsPerEpoch) - 1) in
    if PrysmLatestHeadSlot <? lastSlot then PrysmLatestHeadSlot else lastSlot.

(** Lines 265-277 of [GetEpochData] and 1435-1447 of [GetSlotData]. *)
Definition historicSlots (lastSlot : Z) : Z * Z * Z :=
  let slot1d := i64 (int64_of_u64 lastSlot - 7200) in
  let slot7d := i64 (int64_of_u64 lastSlot - 7200 * 7) in
  let slot31d := i64 (int64_of_u64 lastSlot - 7200 * 31) in
  let slot1d := if slot1d <? 0 then 0 else slot1d in
  let slot7d := if slot7d <? 0 then 0 else slot7d in
  let slot31d := if slot31d <? 0 then 0 else slot31d in
  (slot1d, slot7d, slot31d).

(** The body of the loop over the withdrawals of a payload (lines 391-398
    and 1536-1543).  [validatorWithdrawal] is the nil map ([None]) when the
    query that fills it has returned the nil map: a nil map reads as the
    empty map, and writing to it panics. *)
Definition addWithdrawal (validatorWithdrawal : option (gmap Z Z)) (wd : Withdrawals)
  : run (option (gmap Z Z)) :=
  let '(value, exists_) :=
    match validatorWithdrawal with
    | Some m =>
        match m !! W_ValidatorIndex wd with
        | Some value => (value, true)
        | None => (0, false)
        end
    | None => (0, false)
    end in
  let new := if exists_ then u64 (value + W_Amount wd) else W_Amount wd in
  match validatorWithdrawal with
  | Some m => Returns (Some (<[W_ValidatorIndex wd := new]> m))
  | None => Panics "assignment to entry in nil map"
  end.

Fixpoint addWithdrawals (validatorWithdrawal : option (gmap Z Z)) (wds : list Withdrawals)
  : run (option (gmap Z Z)) :=
  match wds with
  | [] => Returns validatorWithdrawal
  | wd :: rest =>
      match addWithdrawal validatorWithdrawal wd with
      | Panics why => Panics why
      | Returns validatorWithdrawal => addWithdrawals validatorWithdrawal rest
      end
  end.

Section Aggregator.
Context {lib : PrysmLib}.

(** The withdrawals the loop reads from a block (lines 390 and 1535). *)
Definition withdrawalsOf (b : Block) : list Withdrawals :=
  match B_ExecutionPayload b with
  | Some payload =>
      match EP_Withdrawals payload with
      | Some wds => wds
      | None => []
      end
  | None => []
  end.

(** The loop over the blocks of a slot, in the order [bs] in which the
    iteration of the map visits them. *)
Fixpoint addBlocksWithdrawals (validatorWithdrawal : option (gmap Z Z)) (bs : list Block)
  : run (option (gmap Z Z)) :=
  match bs with
  | [] => Returns validatorWithdrawal
  | b :: rest =>
      match addWithdrawals validatorWithdrawal (withdrawalsOf b) with
      | Panics why => Panics why
      | Returns validatorWithdrawal => addBlocksWithdrawals validatorWithdrawal rest
      end
  end.

(** Lines 387-402 of [GetEpochData]: [slots] holds the slots of
    [data.Blocks] in ascending order, each with its blocks in the order of
    the iteration. *)
Fixpoint epochWithdrawals (PrysmLatestHeadSlot : Z) (slots : list (Z * list Block))
    (validatorWithdrawal : option (gmap Z Z)) : run (option (gmap Z Z)) :=
  match slots with
  | [] => Returns validatorWithdrawal
  | (slot, bs) :: rest =>
      if slot >? PrysmLatestHeadSlot
      then
        match addBlocksWithdrawals validatorWithdrawal bs with
        | Panics why => Panics why
        | Returns validatorWithdrawal =>
            epochWithdrawals PrysmLatestHeadSlot rest validatorWithdrawal
        end
      else epochWithdrawals PrysmLatestHeadSlot rest validatorWithdrawal
  end.

(** Lines 1412-1414 of [GetSlotData]: the new value of
    [PrysmLatestHeadSlot]. *)
Definition raiseHead (block : Block) (PrysmLatestHeadSlot : Z) : Z :=
  if B_Slot block >? PrysmLatestHeadSlot then B_Slot block else PrysmLatestHeadSlot.

(** Lines 1532-1545 of [GetSlotData]: [data.Blocks] holds [block] alone. *)
Definition slotWithdrawals (PrysmLatestHeadSlot : Z) (block : Block)
    (validatorWithdrawal : option (gmap Z Z)) : run (option (gmap Z Z)) :=
  if B_Slot block >? PrysmLatestHeadSlot
  then addBlocksWithdrawals validatorWithdrawal [block]
  else Returns validatorWithdrawal.

(** The head slot and the map of withdrawals of [GetSlotData], from the
    entry of the function to the loop over the validators. *)
Definition GetSlotData_withdrawals (block : Block) (PrysmLatestHeadSlot : Z)
    (validatorWithdrawal : option (gmap Z Z)) : Z * run (option (gmap Z Z)) :=
  let PrysmLatestHeadSlot := raiseHead block PrysmLatestHeadSlot in
  (PrysmLatestHeadSlot, slotWithdrawals PrysmLatestHeadSlot block validatorWithdrawal).

(** The block of lines 409-426 for a slot without a block. *)
Definition placeholder (slot proposer : Z) : Block :=
  {| Status := 0;
     Proposer := proposer;
     B_BlockRoot := [x00];
     B_Slot := slot;
     B_ParentRoot := [];
     B_StateRoot := [];
     B_Signature := [];
     B_RandaoReveal := [];
     B_Graffiti := [];
     B_Eth1Data := mkEth1Data [] 0 [];
     B_BodyRoot := Some [];
     B_ProposerSlashings := [];
     B_AttesterSlashings := [];
     B_Attestations := [];
     B_Deposits := [];
     B_VoluntaryExits := [];
     B_SyncAggregate := None;
     B_ExecutionPayload := None;
     B_Canonical := false;
     B_SignedBLSToExecutionChange := None |}.

Definition setStatus (status : Z) (blockRoot : bytes) (b : Block) : Block :=
  {| Status := status;
     Proposer := Proposer b;
     B_BlockRoot := blockRoot;
     B_Slot := B_Slot b;
     B_ParentRoot := B_ParentRoot b;
     B_StateRoot := B_StateRoot b;
     B_Signature := B_Signature b;
     B_RandaoReveal := B_RandaoReveal b;
     B_Graffiti := B_Graffiti b;
     B_Eth1Data := B_Eth1Data b;
     B_BodyRoot := B_BodyRoot b;
     B_ProposerSlashings := B_ProposerSlashings b;
     B_AttesterSlashings := B_AttesterSlashings b;
     B_Attestations := B_Attestations b;
     B_Deposits := B_Deposits b;
     B_VoluntaryExits := B_VoluntaryExits b;
     B_SyncAggregate := B_SyncAggregate b;
     B_ExecutionPayload := B_ExecutionPayload b;
     B_Canonical := B_Canonical b;
     B_SignedBLSToExecutionChange := B_SignedBLSToExecutionChange b |}.

(** The body of the loop of lines 405-439.  [inFuture slot] is what
    [utils.SlotToTime(slot).After(time.Now().Add(time.Second * -60))] gives
    when the loop visits the slot. *)
Definition fillSlot (inFuture : Z -> bool) (slot proposer : Z)
    (blocks : gmap Z (gmap string Block)) : gmap Z (gmap string Block) :=
  match blocks !! slot with
  | Some _ => blocks
  | None =>
      let b := placeholder slot proposer in
      let b := if inFuture slot then setStatus 0 [x00] b else setStatus 2 [x01] b in
      <[slot := {["0x0" := b]}]> blocks
  end.

(** The loop over the proposer assignments.  Go leaves the order of the
    iteration open; every iteration reads and writes the entry of its own
    slot only. *)
Definition fillMissed (inFuture : Z -> bool) (assignments : EpochAssignments)
    (blocks : gmap Z (gmap string Block)) : gmap Z (gmap string Block) :=
  map_fold (fillSlot inFuture) blocks (ProposerAssignments assignments).

(** The withdrawals that the loop of [GetEpochData] counts. *)
Definition countedWithdrawals (PrysmLatestHeadSlot : Z) (slots : list (Z * list Block))
  : list Withdrawals :=
  flat_map (fun sb => if fst sb >? PrysmLatestHeadSlot
                      then flat_map withdrawalsOf (snd sb) else []) slots.

End Aggregator.

(** The sum of the amounts withdrawn for validator [v] in [wds]. *)
Definition totalFor (v : Z) (wds : list Withdrawals) : Z :=
  fold_right Z.add 0 (map W_Amount (List.filter (fun wd => W_ValidatorIndex wd =? v) wds)).

(** The amounts of [wds] and the values of [m] are [uint64] numbers. *)
Definition amountsInRange (wds : list Withdrawals) : Prop :=
  Forall (fun wd => uint64 (W_Amount wd)) wds.

Definition valuesInRange (m : gmap Z Z) : Prop :=
  forall v x, m !! v = Some x -> uint64 x.

(** A Capella block of the examples, parsed: slot 200, two withdrawals. *)
Definition withdrawalBlock : Block (lib := scriptedPrysmLib) :=
  {| Status := 1; Proposer := 1; B_BlockRoot := [xcd]; B_Slot := 200;
     B_ParentRoot := []; B_StateRoot := []; B_Signature := []; B_RandaoReveal := [];
     B_Graffiti := []; B_Eth1Data := mkEth1Data [] 0 []; B_BodyRoot := None;
     B_ProposerSlashings := []; B_AttesterSlashings := []; B_Attestations := [];
     B_Deposits := []; B_VoluntaryExits := []; B_SyncAggregate := None;
     B_ExecutionPayload :=
       Some (mkExecutionPayload [] [] [] [] [] [] 17 30000000 21000 1700000000 [] 7 [xee] []
               (Some [mkWithdrawals 200 [xcd] 0 9 [xa1] 1000;
                      mkWithdrawals 200 [xcd] 1 4 [xa2] 2000;
                      mkWithdrawals 200 [xcd] 2 9 [xa1] 500]));
     B_Canonical := true; B_SignedBLSToExecutionChange := None |}.


Section EpochBlocks.
Context {lib : PrysmLib} {N : Type} {client : BeaconChainClient N}
        {blocksClient : BeaconBlocksClient N} (cfg : Config).

(** The slots that the loop of line 363 visits, from [epoch * SlotsPerEpoch]
    to [(epoch+1) * SlotsPerEpoch - 1] on [uint64]; [None] when the upper
    bound is the largest [uint64], which no slot exceeds, so that the loop
    does not end. *)
Definition epochSlots (epoch slotsPerEpoch : Z) : option (list Z) :=
  let first := u64 (epoch * slotsPerEpoch) in
  let last := u64 (u64 (u64 (epoch + 1) * slotsPerEpoch) - 1) in
  if last =? 2 ^ 64 - 1 then None else Some (seqZ first (last - first + 1)).

(** Lines 370-375: the block goes under its own slot and the hexadecimal
    form of its root. *)
Definition storeBlock (blocks : gmap Z (gmap string Block)) (block : Block)
  : gmap Z (gmap string Block) :=
  <[B_Slot block := <[hex (B_BlockRoot block) := block]> (default ∅ (blocks !! B_Slot block))]>
    blocks.

(** The loop of lines 363-376 over the slots still to visit. *)
Fixpoint collectBlocks (fuel : nat) (slots : list Z) (pc : PrysmClient N)
    (blocks : gmap Z (gmap string Block))
  : option (outcome (gmap Z (gmap string Block)) * PrysmClient N) :=
  match slots with
  | [] => Some (Ok blocks, pc)
  | slot :: rest =>
      match GetBlocksBySlot cfg fuel slot pc with
      | None => None
      | Some (Err e, pc) => Some (Err e, pc)
      | Some (Panic why, pc) => Some (Panic why, pc)
      | Some (Ok bs, pc) => collectBlocks fuel rest pc (fold_left storeBlock bs blocks)
      end
  end.

(** Lines 360-376 of [GetEpochData]: [data.Blocks]. *)
Definition epochBlocks (fuel : nat) (epoch : Z) (pc : PrysmClient N)
  : option (outcome (gmap Z (gmap string Block)) * PrysmClient N) :=
  match epochSlots epoch (SlotsPerEpoch cfg) with
  | None => None
  | Some slots => collectBlocks fuel slots pc ∅
  end.

(** Block [b] was listed by [GetBlocksBySlot] for one of [slots]. *)
Definition listedFor (fuel : nat) (slots : list Z) (b : Block) : Prop :=
  exists (slot : Z) (pc1 pc2 : PrysmClient N) (listed : list Block),
    In slot slots /\
    GetBlocksBySlot cfg fuel slot pc1 = Some (Ok listed, pc2) /\
    In b listed.

End EpochBlocks.

(** Every entry of [blocks] holds at least one block, and every block is
    under its own slot and the hexadecimal form of its root, and satisfies
    [Q]. *)
Definition wellKeyed {lib : PrysmLib} (Q : Block -> Prop)
    (blocks : gmap Z (gmap string Block)) : Prop :=
  forall slot bs,
    blocks !! slot = Some bs ->
    bs <> ∅ /\
    forall key b, bs !! key = Some b ->
                  B_Slot b = slot /\ key = hex (B_BlockRoot b) /\ Q b.


(** *** Further predicates of the statements about the table *)

(** The twelve columns of the [SET] list of row [r] are those of deposit
    [d]. *)
Definition columnsFrom (r : Row) (d : Eth1Deposit) : Prop :=
  tx_input r = TxInput d /\ tx_index r = TxIndex d /\
  block_number r = BlockNumber d /\ block_ts r = BlockTs d /\
  from_address r = FromAddress d /\ publickey r = PublicKey d /\
  withdrawal_credentials r = WithdrawalCredentials d /\
  amount r = Amount d /\ signature r = Signature d /\
  merkletree_index r = MerkletreeIndex d /\
  removed r = Removed d /\ valid_signature r = ValidSignature d.

(** [savedTimes ds n w t w' t']: [n] calls of [saveEth1Deposits] with the
    batch [ds], one after the other and each returning nil, lead from the
    world [w] and the table [t] to [w'] and [t']. *)
Inductive savedTimes {W : Type} {world : Eth1World W} (ds : list Eth1Deposit)
  : nat -> W -> Table -> W -> Table -> Prop :=
| savedTimes_O (w : W) (t : Table) : savedTimes ds 0 w t w t
| savedTimes_S (n : nat) (w w1 w' : W) (t t1 t' : Table) :
    saveEth1Deposits ds w t = (None, w1, t1) ->
    savedTimes ds n w1 t1 w' t' ->
    savedTimes ds (S n) w t w' t'.


(** *** The attestations of a block, resolved in turn *)

Section AttestationChain.
Context {lib : PrysmLib} {N : Type} {client : BeaconChainClient N} (cfg : Config).

(** [resolvedInTurn fuel attestations pc parsed pc']: starting from the
    client [pc], [GetEpochAssignments] returns assignments for the epoch of
    each of the attestations in turn, every call starting from the client
    that the call before has left and the last one leaving [pc']; [parsed]
    holds the attestations, in order, each with the attesters of its set
    bits under the assignments returned for it. *)
Inductive resolvedInTurn (fuel : nat)
  : list WireAttestation -> PrysmClient N -> list Attestation -> PrysmClient N -> Prop :=
| resolvedInTurn_nil (pc : PrysmClient N) : resolvedInTurn fuel [] pc [] pc
| resolvedInTurn_cons (attestation : WireAttestation) (rest : list WireAttestation)
    (pc pc1 pc' : PrysmClient N) (assignments : EpochAssignments)
    (parsed : list Attestation) :
    GetEpochAssignments cfg fuel (AD_Slot (WA_Data attestation) / SlotsPerEpoch cfg) pc
    = Some (Ok assignments, pc1) ->
    resolvedInTurn fuel rest pc1 parsed pc' ->
    resolvedInTurn fuel (attestation :: rest) pc
      (mkAttestation (WA_AggregationBits attestation) (attestersOf assignments attestation)
         (WA_Data attestation) (WA_Signature attestation) :: parsed)
      pc'.

(** [assignmentsFailAt fuel attestations pc e pc']: the attestations
    before one of [attestations] are resolved in turn from [pc]; the epoch
    of that one is not in the cache the last of these calls has left, and
    the run of the loop over the pages from the node it has left ends with
    a call that fails, leaving the node of [pc'] and the cache as it was;
    [e] is the error of the parser for the epoch and the error of the
    run. *)
Definition assignmentsFailAt (fuel : nat) (attestations : list WireAttestation)
    (pc : PrysmClient N) (e : error) (pc' : PrysmClient N) : Prop :=
  exists (pre : list WireAttestation) (attestation : WireAttestation)
         (rest : list WireAttestation) (parsed : list Attestation) (pc1 : PrysmClient N)
         (pages : list CommitteeAssignment) (e1 : error),
    attestations = pre ++ attestation :: rest /\
    resolvedInTurn fuel pre pc parsed pc1 /\
    lru.find (AD_Slot (WA_Data attestation) / SlotsPerEpoch cfg)
      (lru.entries (assignmentsCache pc1)) = None /\
    Paginate cfg (filterOf (AD_Slot (WA_Data attestation) / SlotsPerEpoch cfg)) "" []
      (node pc1) (pages, Some e1) (node pc') /\
    assignmentsCache pc' = assignmentsCache pc1 /\
    e = "error receiving epoch assignment for epoch "
        +:+ pretty (AD_Slot (WA_Data attestation) / SlotsPerEpoch cfg) +:+ ": " +:+ e1.

End AttestationChain.


(** *** The containers of a response, parsed in turn *)

Section ContainerChain.
Context {lib : PrysmLib} {N : Type} {client : BeaconChainClient N} (cfg : Config).

(** [parsedInTurn fuel containers pc blocks pc']: starting from the
    client [pc], each of the containers, with the default of lines 539-546,
    is parsed to a block, every one from the client that the one before has
    left and the last one leaving [pc']; [blocks] holds the blocks in
    order. *)
Inductive parsedInTurn (fuel : nat)
  : list ListedContainer -> PrysmClient N -> list Block -> PrysmClient N -> Prop :=
| parsedInTurn_nil (pc : PrysmClient N) : parsedInTurn fuel [] pc [] pc
| parsedInTurn_cons (block : ListedContainer) (rest : list ListedContainer)
    (pc pc1 pc' : PrysmClient N) (b : Block) (blocks : list Block) :
    parseListedBlock cfg fuel (defaultEth1Data block) pc = Some (Ok b, pc1) ->
    parsedInTurn fuel rest pc1 blocks pc' ->
    parsedInTurn fuel (block :: rest) pc (b :: blocks) pc'.

End ContainerChain.


(** *** The query for the total withdrawals *)

(** Modelled from the spec: [db.GetAllValidatorTotalWithdrawals] is declared
    in a package that is not among the sources; the spec has it as a
    read-only aggregate query for the withdrawal totals at a slot.  The model
    leaves open what it returns, over the state [D] of the database: a map,
    nil ([None]) or not, and an error. *)
Class WithdrawalsDb (D : Type) : Type := {
  GetAllValidatorTotalWithdrawals : Z -> D -> (option (gmap Z Z) * option error) * D;
}.

Section TotalWithdrawals.
Context {lib : PrysmLib} {D : Type} {withdrawalsDb : WithdrawalsDb D}.

(** Lines 286-297 of [GetEpochData]: the task assigns the map the query
    returns to [validatorWithdrawal]; an error of the query is logged, and
    nothing else is done with it. *)
Definition queryTotalWithdrawals (lastSlot : Z) (db : D) : option (gmap Z Z) * D :=
  let '((validatorWithdrawal, err), db) := GetAllValidatorTotalWithdrawals lastSlot db in
  match err with
  | Some _ => (validatorWithdrawal, db)
  | None => (validatorWithdrawal, db)
  end.

(** The task of lines 286-297 and, after [wg.Wait()] and the blocks of the
    epoch, the loop of lines 387-402 over the map the task has left. *)
Definition GetEpochData_withdrawals (PrysmLatestHeadSlot lastSlot : Z)
    (slots : list (Z * list Block)) (db : D) : run (option (gmap Z Z)) * D :=
  let '(validatorWithdrawal, db) := queryTotalWithdrawals lastSlot db in
  (epochWithdrawals PrysmLatestHeadSlot slots validatorWithdrawal, db).

End TotalWithdrawals.

(** A database whose query fails and returns the nil map. *)
#[global] Instance failingDb : WithdrawalsDb unit := {|
  GetAllValidatorTotalWithdrawals _ db := ((None, Some "connection refused"), db);
|}.

(** * Theorems *)

Lemma u64_small z : uint64 z -> u64 z = z.
Proof. intros H. unfold u64. apply Z.mod_small. exact H. Qed.

Lemma u64_range z : uint64 (u64 z).
Proof. unfold u64, uint64. apply Z.mod_pos_bound. lia. Qed.

(** ** The scanned range (C2) *)

Ltac case_cmp :=
  repeat match goal with
  | |- context [?a <? ?b] => destruct (Z.ltb_spec a b)
  | |- context [?a >? ?b] => rewrite (Z.gtb_ltb a b)
  | H : context [?a <? ?b] |- _ => destruct (Z.ltb_spec a b)
  | H : context [?a >? ?b] |- _ => rewrite (Z.gtb_ltb a b) in H
  end.

(** The first block of the range before the look-back: the largest of the
    three lower bounds. *)
Lemma scanRange_start lp lf cfb :
  (if (if u64 (lp + 1) <? cfb then cfb else u64 (lp + 1)) <? u64 (lf + 1)
   then u64 (lf + 1)
   else (if u64 (lp + 1) <? cfb then cfb else u64 (lp + 1)))
  = Z.max (Z.max (u64 (lp + 1)) (u64 (lf + 1))) cfb.
Proof. case_cmp; lia. Qed.



(** When the first block of the range lies above the chain height (the
    last fetched block is the head itself, or the node is behind the
    table), the difference [toBlock - fromBlock] wraps around on [uint64]:
    the look-back is not taken and the range is [start, head]. *)
Lemma scanRange_head_behind lp lf cfb head :
  uint64 lp -> uint64 lf -> uint64 cfb -> uint64 head ->
  lp + 1 < 2 ^ 63 -> lf + 1 < 2 ^ 63 -> cfb < 2 ^ 63 ->
  head < Z.max (Z.max (lp + 1) (lf + 1)) cfb ->
  scanRange lp lf cfb head = (Z.max (Z.max (lp + 1) (lf + 1)) cfb, head).
Proof.
  intros Hlp Hlf Hcfb Hhead H1 H2 H3 Hlt.
  unfold scanRange. cbv zeta. rewrite scanRange_start.
  rewrite (u64_small (lp + 1)), (u64_small (lf + 1)) by (unfold uint64 in *; lia).
  set (start := Z.max (Z.max (lp + 1) (lf + 1)) cfb) in *.
  assert (Hs : 0 <= start < 2 ^ 63) by (unfold start, uint64 in *; lia).
  assert (Hw : u64 (head - start) = head - start + 2 ^ 64).
  { unfold u64. symmetry. apply (Z.mod_unique _ _ (-1)); unfold uint64 in *; lia. }
  unfold eth1MaxFetch, eth1LookBack. rewrite !Z.gtb_ltb, Hw.
  rewrite (proj2 (Z.ltb_lt 1000 _)) by (unfold uint64 in *; lia).
  rewrite (u64_small (start + 1000)) by (unfold uint64 in *; lia).
  rewrite (proj2 (Z.ltb_lt head (start + 1000))) by lia.
  rewrite Hw. rewrite (proj2 (Z.ltb_ge _ 100)) by (unfold uint64 in *; lia).
  reflexivity.
Qed.

Lemma scanRange_head_behind_example : scanRange 500 550 100 550 = (551, 550).
Proof.
  apply (scanRange_head_behind 500 550 100 550); unfold uint64; lia.
Defined.

(** ** The batched request (C1) *)

Section BatchFacts.
Context {lib : Eth1Lib} {W : Type} {world : Eth1World W}.

Lemma firstError_snoc_nil es : firstError (es ++ [None]) = firstError es.
Proof. induction es as [| [e |] es IH]; simpl; auto. Qed.

Lemma errors_addHeaderElem bs : forall bt,
  firstError (errors (fold_left addHeaderElem bs bt)) = firstError (errors bt).
Proof.
  induction bs as [| b bs IH]; intros bt; simpl; [reflexivity |].
  rewrite IH. simpl. apply firstError_snoc_nil.
Qed.

Lemma errors_addTxElem hs : forall bt,
  firstError (errors (fold_left addTxElem hs bt)) = firstError (errors bt).
Proof.
  induction hs as [| h hs IH]; intros bt; simpl; [reflexivity |].
  rewrite IH. simpl. apply firstError_snoc_nil.
Qed.

(** The slice [errors] holds only the nil errors copied into it before the
    call, whatever [BatchCall] writes into the elements. *)
Lemma batch_errors_nil blocks hashes :
  firstError (errors (fold_left addTxElem hashes
                        (fold_left addHeaderElem blocks (mkBatch [] ∅ ∅ [])))) = None.
Proof. rewrite errors_addTxElem, errors_addHeaderElem. reflexivity. Qed.

(** The error [eth1BatchRequestHeadersAndTxs] returns is the transport
    error of [BatchCall], and nil when no call is made. *)
Lemma batch_error_is_transport_error blocks hashes (w : W) :
  let bt := fold_left addTxElem hashes (fold_left addHeaderElem blocks (mkBatch [] ∅ ∅ [])) in
  snd (fst (eth1BatchRequestHeadersAndTxs blocks hashes w))
  = if bool_decide (length (elems bt) = 0%nat) then None
    else fst (fst (BatchCall (elems bt) w)).
Proof.
  intros bt. unfold eth1BatchRequestHeadersAndTxs. fold bt.
  destruct (bool_decide (length (elems bt) = 0%nat)); [reflexivity |].
  destruct (BatchCall (elems bt) w) as [[ioErr es'] w']. simpl.
  destruct ioErr as [e |]; [reflexivity |].
  unfold bt. rewrite batch_errors_nil. reflexivity.
Qed.

(** A transport failure is returned as it is, with nil maps. *)
Lemma batch_transport_failure blocks hashes (w : W) e es' w' :
  let bt := fold_left addTxElem hashes (fold_left addHeaderElem blocks (mkBatch [] ∅ ∅ [])) in
  length (elems bt) <> 0%nat ->
  BatchCall (elems bt) w = ((Some e, es'), w') ->
  eth1BatchRequestHeadersAndTxs blocks hashes w = ((∅, ∅, Some e), w').
Proof.
  intros bt Hlen Hcall. unfold eth1BatchRequestHeadersAndTxs. fold bt.
  rewrite bool_decide_eq_false_2 by exact Hlen. rewrite Hcall. reflexivity.
Qed.

End BatchFacts.

(** C1, at the failing input.  The node answers the one element of the
    batch for block 7 with the error "header not found" and the transport
    succeeds: [eth1BatchRequestHeadersAndTxs] returns a nil error and a map
    that holds the untouched zero header for block 7, although the element
    the call returns carries the error. *)
Theorem C1_sub_response_error_dropped :
  eth1BatchRequestHeadersAndTxs [7] [] failingBatch
  = (({[ 7 := zeroHeader ]}, ∅, None), failingBatch)
  /\ BE_Error <$> snd (fst (BatchCall
       [mkBatchElem "eth_getBlockByNumber" [ArgBlockNumber 7; ArgBool false]
          (HeaderResult zeroHeader) None] failingBatch))
     = [Some "header not found"].
Proof. split; reflexivity. Qed.

(** What follows in [fetchEth1Deposits] at that input: the error does not
    stop the fetch, the deposit takes the time 0 of the zero header, and the
    empty transaction is dereferenced. *)
Lemma fetch_after_dropped_error :
  fst (fetchEth1Deposits (lib := scriptedLib) scriptedConfig 1 1001 failingBatch)
  = Panics "invalid memory address or nil pointer dereference".
Proof. vm_compute. reflexivity. Qed.

(** ** The upsert (C3) *)

Lemma do_update_twice (old r : Row) : do_update (do_update old r) r = do_update old r.
Proof. reflexivity. Qed.

Lemma do_update_row_of (d : Eth1Deposit) : do_update (row_of d) (row_of d) = row_of d.
Proof. reflexivity. Qed.

(** The row a key holds after an upsert. *)
Lemma lookup_upsert (d : Eth1Deposit) (t : Table) (k : Key) :
  upsert d t !! k =
  if decide (key_of (row_of d) = k)
  then Some (match t !! k with
             | None => row_of d
             | Some old => do_update old (row_of d)
             end)
  else t !! k.
Proof.
  unfold upsert. cbv zeta.
  destruct (decide (key_of (row_of d) = k)) as [<- | Hne].
  - destruct (t !! key_of (row_of d)); apply lookup_insert_eq.
  - destruct (t !! key_of (row_of d)); apply lookup_insert_ne; exact Hne.
Qed.

Lemma upsert_idem (d : Eth1Deposit) (t : Table) : upsert d (upsert d t) = upsert d t.
Proof.
  apply map_eq. intros k. rewrite !lookup_upsert.
  destruct (decide (key_of (row_of d) = k)) as [<- | Hne]; [| reflexivity].
  destruct (t !! key_of (row_of d)); reflexivity.
Qed.

Lemma key_of_do_update (old r : Row) : key_of old = key_of r -> key_of (do_update old r) = key_of r.
Proof. unfold key_of. simpl. intros H. injection H as H1 _. rewrite H1. reflexivity. Qed.

(** With every row under its own key, the row after a conflict is the row
    of the statement's values. *)
Lemma do_update_same_key (old r : Row) : key_of old = key_of r -> do_update old r = r.
Proof.
  destruct old, r. unfold key_of, do_update. simpl.
  intros H. injection H as -> _. reflexivity.
Qed.

Lemma table_wf_empty : table_wf ∅.
Proof. intros k r H. rewrite lookup_empty in H. discriminate. Qed.

Lemma table_wf_upsert (d : Eth1Deposit) (t : Table) : table_wf t -> table_wf (upsert d t).
Proof.
  intros Hwf k r. rewrite lookup_upsert.
  destruct (decide (key_of (row_of d) = k)) as [<- | Hne]; [| apply Hwf].
  destruct (t !! key_of (row_of d)) as [old |] eqn:E; intros [= <-]; [| reflexivity].
  apply key_of_do_update. apply Hwf. exact E.
Qed.

(** ** The transaction of [saveEth1Deposits] (C4) *)

Section SaveFacts.
Context {W : Type} {world : Eth1World W}.

Lemma execDeposits_tx ds : forall (w : W) tx err w' tx',
  execDeposits ds w tx = (err, w', tx') ->
  tx_store tx' = tx_store tx /\ tx_done tx' = tx_done tx /\
  (err = None -> tx_pending tx' = fold_left (fun t d => upsert d t) ds (tx_pending tx)).
Proof.
  induction ds as [| d ds IH]; intros w tx err w' tx' H; simpl in H.
  - injection H as <- <- <-. auto.
  - destruct (db_Exec d w) as [[e |] w1].
    + injection H as <- <- <-. repeat split; auto; discriminate.
    + apply IH in H as (H1 & H2 & H3). simpl in *. auto.
Qed.

Lemma execDeposits_app ds1 : forall ds2 (w : W) tx,
  execDeposits (ds1 ++ ds2) w tx =
  match execDeposits ds1 w tx with
  | (Some e, w1, tx1) => (Some e, w1, tx1)
  | (None, w1, tx1) => execDeposits ds2 w1 tx1
  end.
Proof.
  induction ds1 as [| d ds1 IH]; intros ds2 w tx; simpl; [reflexivity |].
  destruct (db_Exec d w) as [[e |] w1]; [reflexivity | apply IH].
Qed.

End SaveFacts.

(** The table after [saveEth1Deposits], by the error it returns. *)
Lemma saveEth1Deposits_table (W : Type) (world : Eth1World W) (w : W) (t : Table)
    (ds : list Eth1Deposit) (err : option error) (w' : W) (t' : Table) :
  saveEth1Deposits ds w t = (err, w', t') ->
  match err with
  | Some _ => t' = t
  | None => t' = fold_left (fun t d => upsert d t) ds t
  end.
Proof.
  unfold saveEth1Deposits.
  destruct (db_Begin w) as [[e |] w1]; [intros [= <- <- <-]; reflexivity |].
  destruct (db_Prepare w1) as [[e |] w2]; [intros [= <- <- <-]; reflexivity |].
  destruct (execDeposits ds w2 (Tx_Begin t)) as [[err2 w3] tx3] eqn:E.
  apply execDeposits_tx in E as (Hs & Hd & Hp). simpl in Hs, Hd, Hp.
  destruct err2 as [e |].
  - intros [= <- <- <-]. unfold Tx_Rollback. rewrite Hd. simpl. exact Hs.
  - destruct (db_Commit w3) as [[e |] w4]; intros [= <- <- <-].
    + unfold Tx_Rollback. rewrite Hd. simpl. exact Hs.
    + unfold Tx_Rollback, Tx_Commit. rewrite Hd. simpl. apply Hp. reflexivity.
Qed.

(** C4. [saveEth1Deposits] is all or nothing: when it returns an error the
    table is the one it started from, and when it returns nil the table is
    the one that results from all the upserts of the batch in order.  When,
    after the inserts of [ds1], the insert of [d] fails, the function
    returns that error (wrapped) and the table is unchanged. *)
Theorem C4_save_all_or_nothing :
  forall (W : Type) (world : Eth1World W) (w : W) (t : Table),
    (forall (ds : list Eth1Deposit) (err : option error) (w' : W) (t' : Table),
        saveEth1Deposits ds w t = (err, w', t') ->
        match err with
        | Some _ => t' = t
        | None => t' = fold_left (fun t d => upsert d t) ds t
        end) /\
    (forall (ds1 : list Eth1Deposit) (d : Eth1Deposit) (ds2 : list Eth1Deposit)
            (w1 w2 w3 : W) (tx3 : Tx) (e : error) (w4 : W),
        db_Begin w = (None, w1) ->
        db_Prepare w1 = (None, w2) ->
        execDeposits ds1 w2 (Tx_Begin t) = (None, w3, tx3) ->
        db_Exec d w3 = (Some e, w4) ->
        saveEth1Deposits (ds1 ++ d :: ds2) w t
        = (Some (wrapf ("error saving eth1-deposit to db: " +:+ hex (TxHash d) +:+ ": ") e),
           w4, t)).
Proof.
  intros W world w t. split.
  - intros ds err w' t'. apply saveEth1Deposits_table.
  - intros ds1 d ds2 w1 w2 w3 tx3 e w4 HB HP HE HX.
    unfold saveEth1Deposits. rewrite HB, HP, execDeposits_app, HE. simpl.
    rewrite HX.
    apply execDeposits_tx in HE as (Hs & Hd & _). simpl in Hs, Hd.
    unfold Tx_Rollback. rewrite Hd. simpl. rewrite Hs. reflexivity.
Qed.

Lemma C4_save_all_or_nothing_witness :
  fst (saveEth1Deposits [deposit_v1; deposit_bad; deposit_v2] failingInsert ∅)
  = (Some "error saving eth1-deposit to db: 22: duplicate key", failingInsert)
  /\ snd (saveEth1Deposits [deposit_v1; deposit_bad; deposit_v2] failingInsert ∅) = ∅.
Proof.
  pose proof (proj2 (C4_save_all_or_nothing Script scriptedWorld failingInsert ∅)
                [deposit_v1] deposit_bad [deposit_v2] failingInsert failingInsert
                failingInsert _ "duplicate key" failingInsert
                eq_refl eq_refl eq_refl eq_refl) as H.
  simpl app in H. rewrite H. split; reflexivity.
Defined.

(** *** A batch saved twice *)

(** All the upserts of a batch, in order. *)
Lemma lookup_upserts (ds : list Eth1Deposit) : forall (t : Table) (k : Key),
  fold_left (fun t d => upsert d t) ds t !! k
  = fold_left (fun o d =>
                 if decide (key_of (row_of d) = k)
                 then Some (match o with
                            | None => row_of d
                            | Some old => do_update old (row_of d)
                            end)
                 else o) ds (t !! k).
Proof.
  induction ds as [| d ds IH]; intros t k; simpl; [reflexivity |].
  rewrite IH, lookup_upsert. reflexivity.
Qed.

(** The rows of one key under a batch: either no deposit of the batch has
    the key, or the row afterwards takes every column of the [SET] list
    from the last deposit of the batch with the key. *)
Lemma upserts_of_key (k : Key) (ds : list Eth1Deposit) :
  let step := fun (o : option Row) (d : Eth1Deposit) =>
    if decide (key_of (row_of d) = k)
    then Some (match o with
               | None => row_of d
               | Some old => do_update old (row_of d)
               end)
    else o in
  (forall o, fold_left step ds o = o) \/
  (exists last,
      (forall old, fold_left step ds (Some old) = Some (do_update old last)) /\
      (forall o, exists y, fold_left step ds o = Some (do_update y last))).
Proof.
  intros step. induction ds as [| d ds IH]; [left; reflexivity |].
  simpl. unfold step at 2 4 6. destruct (decide (key_of (row_of d) = k)) as [Hk | Hk].
  - right. destruct IH as [IH | (last & IH1 & IH2)].
    + exists (row_of d). split.
      * intros old. apply IH.
      * intros [old |]; rewrite IH; [exists old | exists (row_of d)]; reflexivity.
    + exists last. split.
      * intros old. rewrite IH1. reflexivity.
      * intros o. apply IH2.
  - exact IH.
Qed.

(** Re-ingesting a batch: the upserts of the batch executed a second time
    leave the table as the first execution left it. *)
Lemma upserts_idempotent (ds : list Eth1Deposit) (t : Table) :
  fold_left (fun t d => upsert d t) ds (fold_left (fun t d => upsert d t) ds t)
  = fold_left (fun t d => upsert d t) ds t.
Proof.
  apply map_eq. intros k. rewrite lookup_upserts.
  rewrite (lookup_upserts ds t k).
  destruct (upserts_of_key k ds) as [H | (last & H1 & H2)].
  - rewrite !H. reflexivity.
  - destruct (H2 (t !! k)) as [y Hy]. rewrite Hy, H1. reflexivity.
Qed.

(** *** The upsert of a key through [saveEth1Deposits] (C3) *)

Lemma upserts_replicate (d : Eth1Deposit) (n : nat) (t : Table) :
  (0 < n)%nat -> fold_left (fun t d => upsert d t) (replicate n d) t = upsert d t.
Proof.
  intros Hn. destruct n as [| n]; [lia |]. clear Hn. revert t.
  induction n as [| n IH]; intros t; [reflexivity |].
  change (replicate (S (S n)) d) with (d :: replicate (S n) d).
  cbn [fold_left]. rewrite IH. apply upsert_idem.
Qed.

(** Calls that repeat a batch leave the table that the batch has produced. *)
Lemma savedTimes_stable (W : Type) (world : Eth1World W) (ds : list Eth1Deposit)
    (n : nat) (w w' : W) (t t' : Table) :
  savedTimes ds n w t w' t' ->
  forall t0 : Table, t = fold_left (fun t d => upsert d t) ds t0 -> t' = t.
Proof.
  induction 1 as [w t | n w w1 w' t t1 t' Hsave _ IH]; intros t0 Ht; [reflexivity |].
  apply saveEth1Deposits_table in Hsave.
  assert (Ht1 : t1 = t) by (rewrite Hsave, Ht; apply upserts_idempotent).
  rewrite (IH t0) by (rewrite Ht1; exact Ht). exact Ht1.
Qed.

(** The row of the key of [d] after the upsert of [d], and the other rows. *)
Lemma upsert_row (d : Eth1Deposit) (t : Table) :
  (forall k, k <> key_of (row_of d) -> upsert d t !! k = t !! k) /\
  exists r,
    upsert d t !! key_of (row_of d) = Some r /\
    columnsFrom r d /\
    (table_wf t -> r = row_of d).
Proof.
  split.
  - intros k Hk. rewrite lookup_upsert. apply decide_False. congruence.
  - rewrite lookup_upsert, decide_True by reflexivity.
    destruct (t !! key_of (row_of d)) as [old |] eqn:E; eexists;
      (split; [reflexivity |]); (split; [repeat split |]); intros Hwf; [| reflexivity].
    apply do_update_same_key. apply Hwf. exact E.
Qed.

(** C3. Persisting a deposit is idempotent per key, as [saveEth1Deposits]
    does it.  A call that executes the statement [n >= 1] times with the
    same payload leaves the table, and so the stored row, as a call that
    executes it once; and [n >= 1] calls with the same batch, one after the
    other, leave the table as the first of them.  A call that persists one
    deposit changes no row of another key and leaves, under the key of the
    deposit, a row whose twelve columns of the [SET] list are those of the
    deposit, whatever row the key held before; so persisting a changed
    payload under the same key overwrites all these columns of the existing
    row, and the row is the row of the new payload when every row of the
    table is stored under its key. *)
Theorem C3_upsert_idempotent :
  forall (W : Type) (world : Eth1World W),
    (forall (d : Eth1Deposit) (n : nat) (w w' w1 : W) (t t' t1 : Table),
        (0 < n)%nat ->
        saveEth1Deposits (replicate n d) w t = (None, w', t') ->
        saveEth1Deposits [d] w t = (None, w1, t1) ->
        t' = t1) /\
    (forall (ds : list Eth1Deposit) (n : nat) (w w' w1 : W) (t t' t1 : Table),
        (0 < n)%nat ->
        savedTimes ds n w t w' t' ->
        saveEth1Deposits ds w t = (None, w1, t1) ->
        t' = t1) /\
    (forall (d : Eth1Deposit) (w w1 : W) (t t1 : Table),
        saveEth1Deposits [d] w t = (None, w1, t1) ->
        (forall k, k <> key_of (row_of d) -> t1 !! k = t !! k) /\
        exists r,
          t1 !! key_of (row_of d) = Some r /\
          columnsFrom r d /\
          (table_wf t -> r = row_of d)) /\
    (forall (d d' : Eth1Deposit) (w w1 w2 : W) (t t1 t2 : Table),
        key_of (row_of d') = key_of (row_of d) ->
        saveEth1Deposits [d] w t = (None, w1, t1) ->
        saveEth1Deposits [d'] w1 t1 = (None, w2, t2) ->
        (forall k, k <> key_of (row_of d) -> t2 !! k = t !! k) /\
        exists old r,
          t1 !! key_of (row_of d) = Some old /\ columnsFrom old d /\
          t2 !! key_of (row_of d) = Some r /\ columnsFrom r d' /\
          (table_wf t -> r = row_of d')).
Proof.
  intros W world. split; [| split; [| split]].
  - intros d n w w' w1 t t' t1 Hn Hrep Hone.
    apply saveEth1Deposits_table in Hrep. apply saveEth1Deposits_table in Hone.
    simpl in Hone. rewrite Hrep, Hone. apply upserts_replicate. exact Hn.
  - intros ds n w w' w1 t t' t1 Hn Hrun Hone.
    inversion Hrun as [| n' w0 w1' w0' t0 t1' t0' Hfirst Hrest]; subst; [lia |].
    rewrite Hone in Hfirst. injection Hfirst as <- <-.
    apply saveEth1Deposits_table in Hone.
    eapply savedTimes_stable; [exact Hrest | exact Hone].
  - intros d w w1 t t1 Hone. apply saveEth1Deposits_table in Hone. simpl in Hone.
    subst t1. apply upsert_row.
  - intros d d' w w1 w2 t t1 t2 Hkey H1 H2.
    apply saveEth1Deposits_table in H1. apply saveEth1Deposits_table in H2.
    simpl in H1, H2. subst t1 t2.
    destruct (upsert_row d t) as [Ho1 (old & Hold & Hcold & _)].
    destruct (upsert_row d' (upsert d t)) as [Ho2 (r & Hr & Hcr & Hwf)].
    rewrite Hkey in Ho2, Hr. split.
    + intros k Hk. rewrite Ho2, Ho1 by exact Hk. reflexivity.
    + exists old, r. repeat (split; [assumption |]).
      intros Ht. apply Hwf. apply table_wf_upsert. exact Ht.
Qed.

Lemma C3_upsert_idempotent_witness :
  exists t1 t2 : Table,
    saveEth1Deposits [deposit_v1] (healthyNode []) ∅ = (None, healthyNode [], t1) /\
    saveEth1Deposits (replicate 3 deposit_v1) (healthyNode []) ∅
    = (None, healthyNode [], t1) /\
    saveEth1Deposits [deposit_v2] (healthyNode []) t1 = (None, healthyNode [], t2) /\
    t1 !! key_of (row_of deposit_v1) = Some (row_of deposit_v1) /\
    t2 !! key_of (row_of deposit_v1) = Some (row_of deposit_v2).
Proof.
  set (s1 := saveEth1Deposits [deposit_v1] (healthyNode []) ∅).
  set (s3 := saveEth1Deposits (replicate 3 deposit_v1) (healthyNode []) ∅).
  set (s2 := saveEth1Deposits [deposit_v2] (healthyNode []) (snd s1)).
  assert (H1 : s1 = (None, healthyNode [], snd s1)) by reflexivity.
  assert (H3 : s3 = (None, healthyNode [], snd s3)) by reflexivity.
  assert (H2 : s2 = (None, healthyNode [], snd s2)) by reflexivity.
  destruct (C3_upsert_idempotent Script scriptedWorld) as (P1 & _ & P3 & P4).
  pose proof (P1 deposit_v1 3%nat _ _ _ _ _ _ ltac:(lia) H3 H1) as E3.
  destruct (P3 deposit_v1 _ _ _ _ H1) as (_ & r1 & Hr1 & _ & Hwf1).
  destruct (P4 deposit_v1 deposit_v2 _ _ _ _ _ _ eq_refl H1 H2)
    as (_ & old & r & _ & _ & Hr & _ & Hwf).
  exists (snd s1), (snd s2). split; [exact H1 |].
  split; [rewrite <- E3; exact H3 |]. split; [exact H2 |].
  split.
  - rewrite Hr1, (Hwf1 table_wf_empty). reflexivity.
  - rewrite Hr, (Hwf table_wf_empty). reflexivity.
Defined.

(** Two calls of [saveEth1Deposits] with the same batch that both return
    nil leave the table as the first call left it. *)
Lemma save_twice_idempotent (W : Type) (world : Eth1World W)
    (ds : list Eth1Deposit) (w w1 w2 : W) (t t1 t2 : Table) :
  saveEth1Deposits ds w t = (None, w1, t1) ->
  saveEth1Deposits ds w1 t1 = (None, w2, t2) ->
  t2 = t1.
Proof.
  intros H1 H2.
  apply saveEth1Deposits_table in H1. apply saveEth1Deposits_table in H2.
  subst. apply upserts_idempotent.
Qed.

Lemma save_twice_idempotent_example :
  exists t1,
    saveEth1Deposits [deposit_v1; deposit_v2] (healthyNode []) ∅
    = (None, healthyNode [], t1) /\
    saveEth1Deposits [deposit_v1; deposit_v2] (healthyNode []) t1
    = (None, healthyNode [], t1) /\
    t1 !! key_of (row_of deposit_v1) = Some (row_of deposit_v2).
Proof.
  eexists. split; [reflexivity |]. split; [| reflexivity].
  match goal with |- ?s = _ => assert (H2 : s = (None, healthyNode [], snd s)) by reflexivity end.
  pose proof (save_twice_idempotent Script scriptedWorld [deposit_v1; deposit_v2]
                (healthyNode []) (healthyNode []) (healthyNode []) ∅ _ _ eq_refl H2) as H.
  rewrite H2, H. reflexivity.
Defined.

(** ** Deposits with an invalid signature (C8) *)

Section FetchFacts.
Context {lib : Eth1Lib} {W : Type} {world : Eth1World W} (cfg : Config).

Lemma sameDecoded_refl d : sameDecoded d d.
Proof. repeat split. Qed.

Lemma recordsLog_sameDecoded domain l d d' :
  recordsLog domain l d -> sameDecoded d d' -> recordsLog domain l d'.
Proof.
  intros (pk & wc & am & sg & mi & HU & H) HS.
  exists pk, wc, am, sg, mi. split; [exact HU |].
  unfold sameDecoded in HS. intuition congruence.
Qed.

(** The loop over the logs appends one deposit for every log of the
    deposit event, whatever the signature check says. *)
Lemma decodeLogs_records domain logs : forall acc acc',
  decodeLogs domain logs acc = Returns (acc', None) ->
  exists new,
    depositsToSave acc' = depositsToSave acc ++ new /\
    Forall2 (recordsLog domain) (List.filter isDepositLog logs) new.
Proof.
  induction logs as [| l logs IH]; intros acc acc' H; simpl in H.
  - injection H as <-. exists []. rewrite app_nil_r. split; [reflexivity | constructor].
  - simpl. unfold isDepositLog at 1.
    destruct (Log_Topics l) as [| topic0 topics]; [discriminate |].
    destruct (decide (topic0 = eth1DepositEventSignature)) as [Heq | Hne].
    + rewrite bool_decide_eq_false_2 in H by (intros Hc; exact (Hc Heq)).
      rewrite bool_decide_eq_true_2 by exact Heq.
      destruct (UnpackDepositLogData (Log_Data l))
        as [[[[[pk wc] am] sg] mi] [e |]] eqn:HU; [discriminate |].
      apply IH in H as (new & Hnew & HF). simpl in Hnew.
      eexists (_ :: new). split.
      * rewrite Hnew, <- app_assoc. reflexivity.
      * constructor; [| exact HF].
        exists pk, wc, am, sg, mi. split; [exact HU |]. repeat split.
    + rewrite bool_decide_eq_true_2 in H by exact Hne.
      rewrite bool_decide_eq_false_2 by exact Hne.
      apply IH. exact H.
Qed.

(** The loop over the deposits changes none of the decoded fields, and
    neither drops nor adds a deposit. *)
Lemma enrichDeposits_sameDecoded hs ts ds : forall ds' err,
  enrichDeposits hs ts ds = Returns (ds', err) -> Forall2 sameDecoded ds ds'.
Proof.
  induction ds as [| d ds IH]; intros ds' err H; simpl in H.
  - injection H as <- _. constructor.
  - assert (Hrest : Forall2 sameDecoded ds ds)
      by (clear; induction ds; constructor; auto using sameDecoded_refl).
    destruct (hs !! BlockNumber d) as [b |].
    2: { injection H as <- _. constructor; auto using sameDecoded_refl. }
    match type of H with context [ts !! ?k] => destruct (ts !! k) as [[tx |] |] end.
    2: discriminate.
    2: { injection H as <- _. constructor; [repeat split | exact Hrest]. }
    destruct (tx_chainId tx) as [chainID |].
    2: { injection H as <- _. constructor; [repeat split | exact Hrest]. }
    destruct (LondonSigner_Sender chainID tx) as [sender [e |]].
    { injection H as <- _. constructor; [repeat split | exact Hrest]. }
    destruct (enrichDeposits hs ts ds) as [[rest' err'] | why]; [| discriminate].
    injection H as <- _. constructor; [repeat split | eapply IH; reflexivity].
Qed.

(** The loop over the logs returns an error only when the data of a
    deposit log does not unpack; the signature check never ends it. *)
Lemma decodeLogs_error domain logs : forall acc acc' e,
  decodeLogs domain logs acc = Returns (acc', Some e) ->
  exists l e0,
    In l logs /\ isDepositLog l = true /\
    snd (UnpackDepositLogData (Log_Data l)) = Some e0 /\
    e = wrapf ("error unpacking eth1-deposit-log: " +:+ hex (Log_Data l) +:+ ": ") e0.
Proof.
  induction logs as [| l logs IH]; intros acc acc' e H; simpl in H; [discriminate |].
  destruct (Log_Topics l) as [| topic0 topics] eqn:HT; [discriminate |].
  destruct (decide (topic0 = eth1DepositEventSignature)) as [Heq | Hne].
  - rewrite bool_decide_eq_false_2 in H by (intros Hc; exact (Hc Heq)).
    destruct (UnpackDepositLogData (Log_Data l))
      as [[[[[pk wc] am] sg] mi] [e0 |]] eqn:HU.
    + injection H as _ <-. exists l, e0. split; [left; reflexivity |].
      split; [unfold isDepositLog; rewrite HT; apply bool_decide_eq_true_2; exact Heq |].
      rewrite HU. split; reflexivity.
    + apply IH in H as (l' & e0 & Hin & H). exists l', e0. split; [right; exact Hin | exact H].
  - rewrite bool_decide_eq_true_2 in H by exact Hne.
    apply IH in H as (l' & e0 & Hin & H). exists l', e0. split; [right; exact Hin | exact H].
Qed.

Lemma fetch_records fromBlock toBlock (w : W) ds w' :
  fetchEth1Deposits cfg fromBlock toBlock w = (Returns (ds, None), w') ->
  exists logs w1 genForkVersion domain,
    FilterLogs fromBlock toBlock w = ((logs, None), w1) /\
    hex_DecodeString (remove0x (GenesisForkVersion cfg)) = (genForkVersion, None) /\
    depositDomain cfg genForkVersion = (domain, None) /\
    Forall2 (recordsLog domain) (List.filter isDepositLog logs) ds.
Proof.
  unfold fetchEth1Deposits. intros H.
  destruct (FilterLogs fromBlock toBlock w) as [[logs [e |]] w1] eqn:HF; [discriminate |].
  destruct (hex_DecodeString (remove0x (GenesisForkVersion cfg)))
    as [gfv [e |]] eqn:HD; [discriminate |].
  destruct (depositDomain cfg gfv) as [domain [e |]] eqn:HC; [discriminate |].
  destruct (decodeLogs domain logs (mkDecoded [] [] [])) as [[acc [e |]] | why] eqn:HL;
    try discriminate.
  apply decodeLogs_records in HL as (new & Hnew & HR). simpl in Hnew.
  destruct (eth1BatchRequestHeadersAndTxs (blocksToFetch acc) (txsToFetch acc) w1)
    as [[[hs ts] [e |]] w2]; [discriminate |].
  injection H as H _.
  apply enrichDeposits_sameDecoded in H.
  exists logs, w1, gfv, domain.
  split; [first [exact HF | reflexivity] |].
  split; [first [exact HD | reflexivity] |].
  split; [first [exact HC | reflexivity] |].
  rewrite Hnew in H. clear Hnew HF.
  revert ds H. induction HR as [| l d ls new' Hld HR IH]; intros ds H.
  - inversion H. constructor.
  - inversion H as [| ? d' ? ds'' Hs Hrest]; subst. constructor.
    + eapply recordsLog_sameDecoded; eassumption.
    + apply IH. exact Hrest.
Qed.

(** After a fetch that succeeds at the first attempt, the iteration hands
    the fetched deposits to [saveEth1Deposits]. *)
Lemma iteration_saves_fetched (lastFetchedBlock : Z) (w : W) (t : Table)
      (w1 : W) (blockHeight : Z) (w2 : W) (fromBlock toBlock : Z)
      (ds : list Eth1Deposit) (w3 : W) :
  db_Get w = (None, w1) ->
  HeaderByNumber w1 = ((blockHeight, None), w2) ->
  scanRange (max_block_number t) lastFetchedBlock (Eth1DepositContractFirstBlock cfg)
    blockHeight = (fromBlock, toBlock) ->
  fetchEth1Deposits cfg fromBlock toBlock w2 = (Returns (ds, None), w3) ->
  exists last' seconds,
    fst (fst (exporterIteration cfg lastFetchedBlock w t))
    = Returns (last', [EvFetch fromBlock toBlock; EvSave ds; EvSleep seconds]).
Proof.
  intros HG HH HR HF. unfold exporterIteration.
  rewrite HG, HH, HR, HF.
  destruct (saveEth1Deposits ds w3 t) as [[[e |] w4] t'].
  - exists lastFetchedBlock, 5. reflexivity.
  - destruct (bool_decide (blockHeight <> toBlock)).
    + exists toBlock, 5. reflexivity.
    + exists toBlock, 60. reflexivity.
Qed.

End FetchFacts.

(** C8. When [fetchEth1Deposits] returns without an error, the deposits it
    returns are, in order, one for every log of the deposit event in the
    range: each carries the fields decoded from its log unchanged and
    [ValidSignature] true exactly when the signature check returned nil, so a
    log whose check fails is kept with [ValidSignature] false; and the
    iteration passes these deposits to [saveEth1Deposits].  The loop over the
    logs returns an error only for a log whose data does not unpack, never
    for a signature that does not verify. *)
Theorem C8_invalid_signature_kept :
  forall (lib : Eth1Lib) (W : Type) (world : Eth1World W) (cfg : Config),
    (forall (fromBlock toBlock : Z) (w : W) (ds : list Eth1Deposit) (w' : W),
        fetchEth1Deposits cfg fromBlock toBlock w = (Returns (ds, None), w') ->
        (exists logs w1 genForkVersion domain,
            FilterLogs fromBlock toBlock w = ((logs, None), w1) /\
            hex_DecodeString (remove0x (GenesisForkVersion cfg)) = (genForkVersion, None) /\
            depositDomain cfg genForkVersion = (domain, None) /\
            Forall2 (recordsLog domain) (List.filter isDepositLog logs) ds) /\
        (forall (lastFetchedBlock : Z) (w0 w1 : W) (t : Table) (blockHeight : Z),
            db_Get w0 = (None, w1) ->
            HeaderByNumber w1 = ((blockHeight, None), w) ->
            scanRange (max_block_number t) lastFetchedBlock
              (Eth1DepositContractFirstBlock cfg) blockHeight = (fromBlock, toBlock) ->
            exists last' seconds,
              fst (fst (exporterIteration cfg lastFetchedBlock w0 t))
              = Returns (last', [EvFetch fromBlock toBlock; EvSave ds; EvSleep seconds]))) /\
    (forall (domain : bytes) (logs : list Log) (acc acc' : Decoded) (e : error),
        decodeLogs domain logs acc = Returns (acc', Some e) ->
        exists l e0,
          In l logs /\ isDepositLog l = true /\
          snd (UnpackDepositLogData (Log_Data l)) = Some e0 /\
          e = wrapf ("error unpacking eth1-deposit-log: " +:+ hex (Log_Data l) +:+ ": ") e0).
Proof.
  intros lib W world cfg. split.
  - intros fromBlock toBlock w ds w' H. split.
    + eapply fetch_records. exact H.
    + intros lf w0 w1 t head HG HH HR. eapply iteration_saves_fetched; eassumption.
  - intros domain logs acc acc' e H. eapply decodeLogs_error. exact H.
Qed.

Lemma fetch_twoDeposits :
  fetchEth1Deposits (lib := scriptedLib) scriptedConfig 1 1001 twoDeposits
  = (Returns ([fetched_valid; fetched_invalid], None), healthyNode []).
Proof. vm_compute. reflexivity. Qed.

Lemma C8_invalid_signature_kept_witness :
  exists logs domain,
    FilterLogs 1 1001 twoDeposits = ((logs, None), healthyNode []) /\
    Forall2 (recordsLog (lib := scriptedLib) domain)
      (List.filter (isDepositLog (lib := scriptedLib)) logs)
      [fetched_valid; fetched_invalid].
Proof.
  destruct (proj1 (C8_invalid_signature_kept scriptedLib Script scriptedWorld scriptedConfig)
              1 1001 twoDeposits [fetched_valid; fetched_invalid] (healthyNode [])
              fetch_twoDeposits) as [(logs & w1 & gfv & domain & HF & _ & _ & HR) _].
  exists logs, domain. split; [| exact HR].
  pose proof HF as E. cbn in E. injection E as _ E. rewrite HF, <- E. reflexivity.
Defined.

(** ** The retry with a reduced window (C9) *)

Lemma matchAnywhere_prefixed here pre s :
  matchAnywhere here s = true -> matchAnywhere here (pre +:+ s) = true.
Proof.
  intros H. induction pre as [| c pre IH]; simpl; [exact H |].
  rewrite IH. apply orb_true_r.
Qed.

(** A message stays a match when [fmt.Errorf] puts a prefix before it. *)
Lemma tooMuchResults_wrapf pre e :
  tooMuchResults e = true -> tooMuchResults (wrapf pre e) = true.
Proof.
  unfold tooMuchResults, infuraToMuchResultsErrorRE, gethRequestEntityTooLargeRE, wrapf.
  intros H. apply orb_true_iff in H as [H | H];
    apply (matchAnywhere_prefixed _ pre) in H; rewrite H; auto using orb_true_r.
Qed.

Lemma tooMuchResults_examples :
  tooMuchResults "query returned more than 10000 results" = true /\
  tooMuchResults "413 Request Entity Too Large" = true /\
  tooMuchResults "query returned more than results" = false /\
  tooMuchResults "context deadline exceeded" = false.
Proof. repeat split. Qed.

(** C9. Let the first fetch of an iteration, for the range [fromBlock,
    toBlock], return the error [e].  When [e] matches neither pattern the
    iteration makes no other fetch, sleeps five seconds and keeps
    [lastFetchedBlock], the world of the fetch and the table.  When [e]
    matches, the iteration fetches once more, for [fromBlock] to the smaller
    of [fromBlock+100] and the chain height, and nothing else: if this fetch
    returns an error the iteration sleeps five seconds and keeps
    [lastFetchedBlock] and the table, and if it succeeds its deposits go to
    [saveEth1Deposits]. *)
Theorem C9_retry_once_with_reduced_window :
  forall (lib : Eth1Lib) (W : Type) (world : Eth1World W) (cfg : Config)
         (lastFetchedBlock : Z) (w : W) (t : Table) (w1 : W) (blockHeight : Z) (w2 : W)
         (fromBlock toBlock : Z) (ds : list Eth1Deposit) (e : error) (w3 : W),
    db_Get w = (None, w1) ->
    HeaderByNumber w1 = ((blockHeight, None), w2) ->
    scanRange (max_block_number t) lastFetchedBlock (Eth1DepositContractFirstBlock cfg)
      blockHeight = (fromBlock, toBlock) ->
    fetchEth1Deposits cfg fromBlock toBlock w2 = (Returns (ds, Some e), w3) ->
    let toBlock' := Z.min (u64 (fromBlock + 100)) blockHeight in
    (tooMuchResults e = false ->
     exporterIteration cfg lastFetchedBlock w t
     = (Returns (lastFetchedBlock, [EvFetch fromBlock toBlock; EvSleep 5]), w3, t)) /\
    (tooMuchResults e = true ->
     forall (r : run (list Eth1Deposit * option error)) (w4 : W),
       fetchEth1Deposits cfg fromBlock toBlock' w3 = (r, w4) ->
       match r with
       | Panics why => exporterIteration cfg lastFetchedBlock w t = (Panics why, w4, t)
       | Returns (_, Some _) =>
           exporterIteration cfg lastFetchedBlock w t
           = (Returns (lastFetchedBlock,
                       [EvFetch fromBlock toBlock; EvFetch fromBlock toBlock'; EvSleep 5]),
              w4, t)
       | Returns (ds', None) =>
           exists last' seconds,
             fst (fst (exporterIteration cfg lastFetchedBlock w t))
             = Returns (last', [EvFetch fromBlock toBlock; EvFetch fromBlock toBlock';
                                EvSave ds'; EvSleep seconds])
       end).
Proof.
  intros lib W world cfg lf w t w1 head w2 from to ds e w3 HG HH HR HF to'.
  assert (Hto' : (if u64 (from + 100) >? head then head else u64 (from + 100)) = to').
  { unfold to'. rewrite Z.gtb_ltb. destruct (Z.ltb_spec head (u64 (from + 100))); lia. }
  split.
  - intros Hm. unfold exporterIteration. rewrite HG, HH, HR, HF, Hm. reflexivity.
  - intros Hm r w4 HF'. unfold exporterIteration.
    rewrite HG, HH, HR, HF, Hm. cbv zeta. rewrite Hto', HF'.
    destruct r as [[ds' [e' |]] | why]; try reflexivity.
    destruct (saveEth1Deposits ds' w4 t) as [[[e' |] w5] t'].
    + exists lf, 5. reflexivity.
    + destruct (bool_decide (head <> to')).
      * exists to', 5. reflexivity.
      * exists to', 60. reflexivity.
Qed.

Lemma C9_retry_once_with_reduced_window_witness :
  exporterIteration (lib := scriptedLib) scriptedConfig 500 overloadedNode ∅
  = (Returns (500, [EvFetch 501 1501; EvFetch 501 601; EvSleep 5]), healthyNode [], ∅).
Proof.
  pose proof (C9_retry_once_with_reduced_window scriptedLib Script scriptedWorld
                scriptedConfig 500 overloadedNode ∅ overloadedNode 2000 overloadedNode
                501 1501 []
                "error getting logs from eth1-client: query returned more than 10000 results"
                (sc_pop overloadedNode) eq_refl eq_refl eq_refl eq_refl) as [_ H].
  exact (H eq_refl _ _ eq_refl).
Defined.

(** ** The cache of assignments (C5) *)

Lemma lru_find_In {V : Type} (key : Z) (es : list (Z * V)) (v : V) :
  lru.find key es = Some v -> In (key, v) es.
Proof.
  induction es as [| [k x] es IH]; simpl; [discriminate |].
  destruct (Z.eqb_spec k key) as [-> | Hne].
  - intros [= ->]. left. reflexivity.
  - intros H. right. apply IH. exact H.
Qed.

Lemma lru_remove_In {V : Type} (key : Z) (es : list (Z * V)) (x : Z * V) :
  In x (lru.remove key es) -> In x es.
Proof.
  induction es as [| [k y] es IH]; simpl; [auto |].
  destruct (k =? key); simpl; intuition.
Qed.

Lemma In_removelast {A : Type} (l : list A) (x : A) : In x (removelast l) -> In x l.
Proof.
  induction l as [| a l IH]; simpl; [auto |].
  destruct l as [| b l]; simpl in *; intuition.
Qed.

Lemma cacheNonEmpty_In (c : lru.Cache EpochAssignments) :
  cacheNonEmpty c <-> (forall k v, In (k, v) (lru.entries c) -> bothNonEmpty v = true).
Proof.
  unfold cacheNonEmpty. rewrite List.Forall_forall. split.
  - intros H k v Hin. exact (H (k, v) Hin).
  - intros H [k v] Hin. exact (H k v Hin).
Qed.

Lemma cacheNonEmpty_New (size : nat) : cacheNonEmpty (lru.New size).
Proof. constructor. Qed.

Lemma cacheNonEmpty_Get (key : Z) (c : lru.Cache EpochAssignments) :
  cacheNonEmpty c ->
  cacheNonEmpty (snd (lru.Get key c)) /\
  (forall v, fst (lru.Get key c) = Some v -> bothNonEmpty v = true).
Proof.
  rewrite !cacheNonEmpty_In. intros H. unfold lru.Get.
  destruct (lru.find key (lru.entries c)) as [v |] eqn:E; simpl.
  - apply lru_find_In in E. split.
    + intros k x [[= <- <-] | Hin]; [eauto |]. apply lru_remove_In in Hin. eauto.
    + intros x [= <-]. eauto.
  - split; [exact H | discriminate].
Qed.

Lemma cacheNonEmpty_Add (key : Z) (a : EpochAssignments) (c : lru.Cache EpochAssignments) :
  bothNonEmpty a = true -> cacheNonEmpty c -> cacheNonEmpty (lru.Add key a c).
Proof.
  rewrite !cacheNonEmpty_In. intros Ha H. unfold lru.Add.
  destruct (lru.find key (lru.entries c)) as [v |] eqn:E.
  - cbn [lru.entries].
    intros k x [[= <- <-] | Hin]; [exact Ha |]. apply lru_remove_In in Hin. eauto.
  - cbv zeta.
    destruct (lru.size c <? length ((key, a) :: lru.entries c))%nat; cbn [lru.entries].
    + intros k x Hin. apply In_removelast in Hin.
      destruct Hin as [[= <- <-] | Hin]; eauto.
    + intros k x [[= <- <-] | Hin]; eauto.
Qed.

Lemma bothNonEmpty_spec (a : EpochAssignments) :
  bothNonEmpty a = true <-> AttestorAssignments a <> ∅ /\ ProposerAssignments a <> ∅.
Proof.
  unfold bothNonEmpty. rewrite andb_true_iff, !Z.ltb_lt.
  rewrite <- !map_size_non_empty_iff. lia.
Qed.

Section CacheFacts.
Context {lib : PrysmLib} {N : Type} {client : BeaconChainClient N} (cfg : Config).

(** A cache hit returns the cached value and makes no call. *)
Lemma GetEpochAssignments_hit fuel epoch (pc : PrysmClient N) v :
  lru.find epoch (lru.entries (assignmentsCache pc)) = Some v ->
  GetEpochAssignments cfg fuel epoch pc
  = Some (Ok v, mkPrysmClient (snd (lru.Get epoch (assignmentsCache pc))) (node pc)).
Proof.
  intros H. unfold GetEpochAssignments, lru.Get. rewrite H. reflexivity.
Qed.

(** A cache miss runs the loop over the pages. *)
Lemma GetEpochAssignments_miss fuel epoch (pc : PrysmClient N) :
  lru.find epoch (lru.entries (assignmentsCache pc)) = None ->
  GetEpochAssignments cfg fuel epoch pc
  = match listValidatorAssignments cfg fuel (filterOf epoch) "" [] (node pc) with
    | None => None
    | Some ((_, Some e), n) => Some (Err e, mkPrysmClient (assignmentsCache pc) n)
    | Some ((validatorAssignmentes, None), n) =>
        Some (Ok (buildAssignments validatorAssignmentes),
              mkPrysmClient
                (if bothNonEmpty (buildAssignments validatorAssignmentes)
                 then lru.Add epoch (buildAssignments validatorAssignmentes)
                        (assignmentsCache pc)
                 else assignmentsCache pc) n)
    end.
Proof.
  intros H. unfold GetEpochAssignments, lru.Get. rewrite H. reflexivity.
Qed.

Lemma GetEpochAssignments_cacheNonEmpty fuel epoch (pc : PrysmClient N) r pc' :
  GetEpochAssignments cfg fuel epoch pc = Some (r, pc') ->
  cacheNonEmpty (assignmentsCache pc) -> cacheNonEmpty (assignmentsCache pc').
Proof.
  intros H Hinv.
  destruct (lru.find epoch (lru.entries (assignmentsCache pc))) as [v |] eqn:E.
  - rewrite (GetEpochAssignments_hit _ _ _ _ E) in H. injection H as _ <-. simpl.
    apply cacheNonEmpty_Get. exact Hinv.
  - rewrite (GetEpochAssignments_miss _ _ _ E) in H.
    destruct (listValidatorAssignments cfg fuel (filterOf epoch) "" [] (node pc))
      as [[[vs [e |]] n] |]; try discriminate; injection H as _ <-; simpl; [exact Hinv |].
    destruct (bothNonEmpty (buildAssignments vs)) eqn:B; [| exact Hinv].
    apply cacheNonEmpty_Add; assumption.
Qed.

Lemma reachable_cacheNonEmpty (pc : PrysmClient N) :
  reachable cfg pc -> cacheNonEmpty (assignmentsCache pc).
Proof.
  induction 1 as [n | pc n _ IH | pc fuel epoch r pc' _ IH H].
  - apply cacheNonEmpty_New.
  - exact IH.
  - eapply GetEpochAssignments_cacheNonEmpty; eassumption.
Qed.

End CacheFacts.

(** C5. On a cache miss that computes [a], the cache afterwards is the old
    one with [a] added when both maps of [a] are non-empty, and the old one
    unchanged when either map is empty.  So every entry of the cache of a
    client has both maps non-empty, in every state the client can reach from
    [NewPrysmClient], and a cache hit returns such a value. *)
Theorem C5_cache_only_non_empty :
  forall (lib : PrysmLib) (N : Type) (client : BeaconChainClient N) (cfg : Config),
    (forall (fuel : nat) (epoch : Z) (pc pc' : PrysmClient N) (a : EpochAssignments),
        lru.find epoch (lru.entries (assignmentsCache pc)) = None ->
        GetEpochAssignments cfg fuel epoch pc = Some (Ok a, pc') ->
        (AttestorAssignments a <> ∅ /\ ProposerAssignments a <> ∅ /\
         assignmentsCache pc' = lru.Add epoch a (assignmentsCache pc)) \/
        ((AttestorAssignments a = ∅ \/ ProposerAssignments a = ∅) /\
         assignmentsCache pc' = assignmentsCache pc)) /\
    (forall (pc : PrysmClient N),
        reachable cfg pc ->
        (forall k v, In (k, v) (lru.entries (assignmentsCache pc)) ->
                     AttestorAssignments v <> ∅ /\ ProposerAssignments v <> ∅) /\
        (forall (fuel : nat) (epoch : Z) (v : EpochAssignments),
            lru.find epoch (lru.entries (assignmentsCache pc)) = Some v ->
            fst <$> GetEpochAssignments cfg fuel epoch pc = Some (Ok v) /\
            AttestorAssignments v <> ∅ /\ ProposerAssignments v <> ∅)).
Proof.
  intros lib N client cfg. split.
  - intros fuel epoch pc pc' a Hmiss H.
    rewrite (GetEpochAssignments_miss _ _ _ _ Hmiss) in H.
    destruct (listValidatorAssignments cfg fuel (filterOf epoch) "" [] (node pc))
      as [[[vs [e |]] n] |]; try discriminate.
    injection H as <- <-. simpl.
    destruct (bothNonEmpty (buildAssignments vs)) eqn:B.
    + left. apply bothNonEmpty_spec in B as [B1 B2]. auto.
    + right. split; [| reflexivity].
      destruct (decide (AttestorAssignments (buildAssignments vs) = ∅)) as [| H1]; [auto |].
      destruct (decide (ProposerAssignments (buildAssignments vs) = ∅)) as [| H2]; [auto |].
      assert (bothNonEmpty (buildAssignments vs) = true) by (apply bothNonEmpty_spec; auto).
      congruence.
  - intros pc Hreach. apply (reachable_cacheNonEmpty cfg) in Hreach.
    rewrite cacheNonEmpty_In in Hreach. split.
    + intros k v Hin. apply bothNonEmpty_spec. eauto.
    + intros fuel epoch v Hhit. split.
      * rewrite (GetEpochAssignments_hit _ _ _ _ _ Hhit). reflexivity.
      * apply bothNonEmpty_spec. apply lru_find_In in Hhit. eauto.
Qed.

Lemma C5_cache_only_non_empty_witness :
  exists pc',
    GetEpochAssignments (lib := scriptedPrysmLib) scriptedConfig 1 2
      (NewPrysmClient [(emptyPage, None)])
    = Some (Ok (mkEpochAssignments ∅ ∅), pc') /\
    assignmentsCache pc' = lru.New 10.
Proof.
  eexists. split; [reflexivity |].
  destruct (proj1 (C5_cache_only_non_empty scriptedPrysmLib _ scriptedBeacon scriptedConfig)
              1%nat 2 (NewPrysmClient [(emptyPage, None)]) _ _ eq_refl eq_refl)
    as [(H & _) | (_ & H)].
  - exfalso. apply H. reflexivity.
  - exact H.
Defined.

(** ** The result of a cache miss (C10) *)

Section PaginationFacts.
Context {lib : PrysmLib} {N : Type} {client : BeaconChainClient N} (cfg : Config).

(** More fuel does not change the result of the loop over the pages. *)
Lemma listValidatorAssignments_mono filter fuel : forall fuel' pageToken acc (n : N) r,
  (fuel <= fuel')%nat ->
  listValidatorAssignments cfg fuel filter pageToken acc n = Some r ->
  listValidatorAssignments cfg fuel' filter pageToken acc n = Some r.
Proof.
  induction fuel as [| fuel IH]; intros fuel' pageToken acc n r Hle H; [discriminate |].
  destruct fuel' as [| fuel']; [lia |]. simpl in *.
  destruct (ListValidatorAssignments
              (mkListValidatorAssignmentsRequest filter (PageSize cfg) pageToken) n)
    as [[resp [e |]] n']; [exact H |].
  destruct (lastPage resp (acc ++ Assignments resp)); [exact H |].
  apply IH; [lia | exact H].
Qed.

(** The loop returns [r] with some fuel exactly when it has a run to [r]. *)
Lemma listValidatorAssignments_Paginate filter fuel : forall pageToken acc (n : N) r n',
  listValidatorAssignments cfg fuel filter pageToken acc n = Some (r, n') ->
  Paginate cfg filter pageToken acc n r n'.
Proof.
  induction fuel as [| fuel IH]; intros pageToken acc n r n' H; [discriminate |].
  simpl in H.
  destruct (ListValidatorAssignments
              (mkListValidatorAssignmentsRequest filter (PageSize cfg) pageToken) n)
    as [[resp [e |]] n1] eqn:E.
  - injection H as <- <-. eapply Paginate_fail. exact E.
  - destruct (lastPage resp (acc ++ Assignments resp)) eqn:L.
    + injection H as <- <-. eapply Paginate_last; eassumption.
    + eapply Paginate_more; eauto.
Qed.

Lemma Paginate_listValidatorAssignments filter pageToken acc (n : N) r n' :
  Paginate cfg filter pageToken acc n r n' ->
  exists fuel0, forall fuel, (fuel0 <= fuel)%nat ->
    listValidatorAssignments cfg fuel filter pageToken acc n = Some (r, n').
Proof.
  induction 1 as [pageToken acc n resp e n' E
                 | pageToken acc n resp n' E L
                 | pageToken acc n resp n' r n'' E L _ [fuel0 IH]].
  - exists 1%nat. intros [| fuel] Hle; [lia |]. simpl. rewrite E. reflexivity.
  - exists 1%nat. intros [| fuel] Hle; [lia |]. simpl. rewrite E, L. reflexivity.
  - exists (S fuel0). intros [| fuel] Hle; [lia |]. simpl. rewrite E, L.
    apply IH. lia.
Qed.

(** The loop ends with an error only when the call of the node failed,
    and the error is the call's, with the prefix of the client. *)
Lemma Paginate_error filter pageToken acc (n : N) pages e n' :
  Paginate cfg filter pageToken acc n (pages, Some e) n' ->
  exists req n1 resp e0,
    ListValidatorAssignments req n1 = ((resp, Some e0), n') /\
    e = "error retrieving validator assignment response for caching: " +:+ e0.
Proof.
  intros H. remember (pages, Some e) as r eqn:Hr. revert pages e Hr.
  induction H as [pageToken acc n resp e0 n' E
                 | pageToken acc n resp n' E L
                 | pageToken acc n resp n' r n'' E L _ IH]; intros pages e Hr.
  - injection Hr as _ <-. do 4 eexists. split; [exact E | reflexivity].
  - discriminate.
  - eapply IH. exact Hr.
Qed.

End PaginationFacts.

(** C10. On a cache miss, every run of the loop over the pages makes
    [GetEpochAssignments] return, for all fuel from some bound on: the error
    of the run when the call of the node failed, and otherwise the
    assignments built from the pages with a nil error, whether or not both
    maps are non-empty (the cache takes them only when they are).
    Conversely a call that returns has such a run, it does not panic, and
    an error it returns is the error of a failed call of the node. *)
Theorem C10_miss_returns_fresh_assignments :
  forall (lib : PrysmLib) (N : Type) (client : BeaconChainClient N) (cfg : Config)
         (epoch : Z) (pc : PrysmClient N),
    lru.find epoch (lru.entries (assignmentsCache pc)) = None ->
    (forall (pages : list CommitteeAssignment) (err : option error) (n' : N),
        Paginate cfg (filterOf epoch) "" [] (node pc) (pages, err) n' ->
        exists fuel0, forall fuel, (fuel0 <= fuel)%nat ->
          GetEpochAssignments cfg fuel epoch pc
          = Some (match err with
                  | Some e => (Err e, mkPrysmClient (assignmentsCache pc) n')
                  | None =>
                      (Ok (buildAssignments pages),
                       mkPrysmClient
                         (if bothNonEmpty (buildAssignments pages)
                          then lru.Add epoch (buildAssignments pages) (assignmentsCache pc)
                          else assignmentsCache pc) n')
                  end)) /\
    (forall (fuel : nat) (r : outcome EpochAssignments) (pc' : PrysmClient N),
        GetEpochAssignments cfg fuel epoch pc = Some (r, pc') ->
        match r with
        | Ok a =>
            exists pages,
              Paginate cfg (filterOf epoch) "" [] (node pc) (pages, None) (node pc') /\
              a = buildAssignments pages
        | Err e =>
            exists req n1 resp e0,
              ListValidatorAssignments req n1 = ((resp, Some e0), node pc') /\
              e = "error retrieving validator assignment response for caching: " +:+ e0
        | Panic _ => False
        end).
Proof.
  intros lib N client cfg epoch pc Hmiss. split.
  - intros pages err n' Hrun.
    apply Paginate_listValidatorAssignments in Hrun as [fuel0 Hrun].
    exists fuel0. intros fuel Hle.
    rewrite (GetEpochAssignments_miss _ _ _ _ Hmiss), (Hrun fuel Hle).
    destruct err; reflexivity.
  - intros fuel r pc' H.
    rewrite (GetEpochAssignments_miss _ _ _ _ Hmiss) in H.
    destruct (listValidatorAssignments cfg fuel (filterOf epoch) "" [] (node pc))
      as [[[vs [e |]] n] |] eqn:E; try discriminate.
    + injection H as <- <-. simpl.
      apply listValidatorAssignments_Paginate in E.
      eapply Paginate_error. exact E.
    + injection H as <- <-. simpl.
      apply listValidatorAssignments_Paginate in E.
      exists vs. split; [exact E | reflexivity].
Qed.

Lemma C10_miss_returns_fresh_assignments_witness :
  exists fuel0, forall fuel, (fuel0 <= fuel)%nat ->
    GetEpochAssignments (lib := scriptedPrysmLib) scriptedConfig fuel 2
      (NewPrysmClient [(emptyPage, None)])
    = Some (Ok (mkEpochAssignments ∅ ∅), NewPrysmClient []).
Proof.
  apply (proj1 (C10_miss_returns_fresh_assignments scriptedPrysmLib _ scriptedBeacon
                  scriptedConfig 2 (NewPrysmClient [(emptyPage, None)]) eq_refl)
           [] None []).
  apply (Paginate_last (client := scriptedBeacon) scriptedConfig (filterOf 2) "" []
           [(emptyPage, None)] emptyPage []); reflexivity.
Defined.

(** ** The attesters of an attestation (C7) *)

Section AttestationFacts.
Context {lib : PrysmLib} {N : Type} {client : BeaconChainClient N} (cfg : Config).

(** The loop over the bit positions appends, for every set bit, the
    validator under the bit's key, or 0. *)
Lemma resolveAttesters_spec assignments slot committeeIndex bits positions :
  forall attesters,
    resolveAttesters assignments slot committeeIndex bits positions attesters
    = attesters ++ map (attesterAt assignments slot committeeIndex)
                     (List.filter (Bitlist_BitAt bits) positions).
Proof.
  induction positions as [| i positions IH]; intros attesters; simpl.
  - rewrite app_nil_r. reflexivity.
  - destruct (Bitlist_BitAt bits i); simpl.
    + rewrite IH, <- app_assoc. unfold attesterAt at 2.
      destruct (AttestorAssignments assignments
                !! FormatAttestorAssignmentKey slot committeeIndex i); reflexivity.
    + apply IH.
Qed.

Lemma parseAttestation_Ok fuel attestation (pc : PrysmClient N) assignments pc' :
  SlotsPerEpoch cfg <> 0 ->
  GetEpochAssignments cfg fuel (AD_Slot (WA_Data attestation) / SlotsPerEpoch cfg) pc
  = Some (Ok assignments, pc') ->
  parseAttestation cfg fuel attestation pc
  = Some (Ok (mkAttestation (WA_AggregationBits attestation)
                (attestersOf assignments attestation)
                (WA_Data attestation) (WA_Signature attestation)), pc').
Proof.
  intros Hspe H. unfold parseAttestation.
  rewrite (proj2 (Z.eqb_neq _ _) Hspe), H, resolveAttesters_spec. reflexivity.
Qed.

Lemma withAttestations_inv fuel blk (pc : PrysmClient N) k b pc' :
  withAttestations cfg fuel blk pc k = Some (Ok b, pc') ->
  exists attestations,
    parseAttestations cfg fuel (SB_Attestations blk) pc = Some (Ok attestations, pc') /\
    b = k attestations.
Proof.
  unfold withAttestations.
  destruct (parseAttestations cfg fuel (SB_Attestations blk) pc)
    as [[[attestations | e | why] pc1] |]; try discriminate.
  intros [= <- <-]. eauto.
Qed.

(** A block that [parseRpcBlock] returns is [blockOf] the wire block of the
    variant that is set, with the attestations and, from Bellatrix on, the
    payload parsed before. *)
Lemma parseRpcBlock_Ok fuel block (pc : PrysmClient N) b pc' :
  parseRpcBlock cfg fuel block pc = Some (Ok b, pc') ->
  exists blk syncAggregate executionPayload attestations blsChanges,
    blockOfContainer block = Some blk /\
    parseAttestations cfg fuel (SB_Attestations blk) pc = Some (Ok attestations, pc') /\
    b = blockOf block blk syncAggregate executionPayload attestations blsChanges /\
    match BC_Block block with
    | NoBlock => False
    | Phase0Block _ | AltairBlock _ => executionPayload = None /\ blsChanges = None
    | BellatrixBlock _ =>
        parseBellatrixPayload (SB_ExecutionPayload blk) = Ok executionPayload /\
        blsChanges = None
    | CapellaBlock _ =>
        parseCapellaPayload (SB_Slot blk) (BC_BlockRoot block) (SB_ExecutionPayload blk)
        = Ok executionPayload /\
        blsChanges = Some (map parseBLSToExecutionChange (SB_BlsToExecutionChanges blk))
    end.
Proof.
  unfold parseRpcBlock, parsePhase0Block, parseAltairBlock, parseBellatrixBlock,
    parseCapellaBlock, GetPhase0Block, GetAltairBlock, GetBellatrixBlock, GetCapellaBlock,
    blockOfContainer.
  destruct (BC_Block block) as [| [blk |] | [blk |] | [blk |] | [blk |]];
    try discriminate; intros H.
  - apply withAttestations_inv in H as (attestations & HA & ->).
    do 5 eexists. repeat split; eauto.
  - apply withAttestations_inv in H as (attestations & HA & ->).
    do 5 eexists. repeat split; eauto.
  - destruct (parseBellatrixPayload (SB_ExecutionPayload blk)) as [ep | e | why] eqn:EP;
      try discriminate.
    apply withAttestations_inv in H as (attestations & HA & ->).
    do 5 eexists. repeat split; eauto.
  - destruct (parseCapellaPayload (SB_Slot blk) (BC_BlockRoot block)
                (SB_ExecutionPayload blk)) as [ep | e | why] eqn:EP; try discriminate.
    apply withAttestations_inv in H as (attestations & HA & ->).
    do 5 eexists. repeat split; eauto.
Qed.

End AttestationFacts.

(** The loop over the attestations returns attestations exactly when the
    assignments of every attestation are returned in turn. *)
Lemma parseAttestations_resolved (lib : PrysmLib) (N : Type) (client : BeaconChainClient N)
    (cfg : Config) (fuel : nat) (attestations : list WireAttestation) :
  forall (pc : PrysmClient N) (parsed : list Attestation) (pc' : PrysmClient N),
    parseAttestations cfg fuel attestations pc = Some (Ok parsed, pc') ->
    resolvedInTurn cfg fuel attestations pc parsed pc'.
Proof.
  induction attestations as [| attestation rest IH]; intros pc parsed pc' H; simpl in H.
  - injection H as <- <-. constructor.
  - unfold parseAttestation in H.
    destruct (SlotsPerEpoch cfg =? 0); [discriminate |].
    destruct (GetEpochAssignments cfg fuel
                (AD_Slot (WA_Data attestation) / SlotsPerEpoch cfg) pc)
      as [[[assignments | e | why] pc1] |] eqn:E; try discriminate.
    rewrite resolveAttesters_spec in H. simpl in H.
    destruct (parseAttestations cfg fuel rest pc1) as [[[parsed' | e | why] pc2] |] eqn:E';
      try discriminate.
    injection H as <- <-.
    eapply resolvedInTurn_cons; [exact E |]. apply IH. exact E'.
Qed.

Lemma resolved_parseAttestations (lib : PrysmLib) (N : Type) (client : BeaconChainClient N)
    (cfg : Config) (fuel : nat) (attestations : list WireAttestation)
    (pc : PrysmClient N) (parsed : list Attestation) (pc' : PrysmClient N) :
  SlotsPerEpoch cfg <> 0 ->
  resolvedInTurn cfg fuel attestations pc parsed pc' ->
  parseAttestations cfg fuel attestations pc = Some (Ok parsed, pc').
Proof.
  intros Hspe H.
  induction H as [pc | attestation rest pc pc1 pc' assignments parsed E _ IH];
    [reflexivity |].
  simpl. rewrite (parseAttestation_Ok cfg _ _ _ _ _ Hspe E), IH. reflexivity.
Qed.

(** An error of the loop over the attestations: where it arises. *)
Lemma parseAttestations_fail (lib : PrysmLib) (N : Type) (client : BeaconChainClient N)
    (cfg : Config) (fuel : nat) (attestations : list WireAttestation) :
  forall (pc : PrysmClient N) (e : error) (pc' : PrysmClient N),
    parseAttestations cfg fuel attestations pc = Some (Err e, pc') ->
    assignmentsFailAt cfg fuel attestations pc e pc'.
Proof.
  induction attestations as [| attestation rest IH]; intros pc e pc' H; simpl in H;
    [discriminate |].
  unfold parseAttestation in H.
  destruct (SlotsPerEpoch cfg =? 0); [discriminate |].
  destruct (GetEpochAssignments cfg fuel
              (AD_Slot (WA_Data attestation) / SlotsPerEpoch cfg) pc)
    as [[[assignments | e1 | why] pc1] |] eqn:E; try discriminate.
  - rewrite resolveAttesters_spec in H. simpl in H.
    destruct (parseAttestations cfg fuel rest pc1) as [[[parsed' | e1 | why] pc2] |] eqn:E';
      try discriminate.
    injection H as <- <-.
    apply IH in E' as (pre & a & rest' & parsed & pc3 & pages & e2 & -> & HR & H).
    eexists (attestation :: pre), a, rest', _, pc3, pages, e2.
    split; [reflexivity |]. split; [| exact H].
    eapply resolvedInTurn_cons; [exact E | exact HR].
  - injection H as <- <-.
    destruct (lru.find (AD_Slot (WA_Data attestation) / SlotsPerEpoch cfg)
                (lru.entries (assignmentsCache pc))) as [v |] eqn:EF.
    + rewrite (GetEpochAssignments_hit cfg _ _ _ _ EF) in E. discriminate.
    + rewrite (GetEpochAssignments_miss cfg _ _ _ EF) in E.
      destruct (listValidatorAssignments cfg fuel
                  (filterOf (AD_Slot (WA_Data attestation) / SlotsPerEpoch cfg)) "" []
                  (node pc)) as [[[vs [e0 |]] n] |] eqn:EL; try discriminate.
      injection E as <- <-.
      apply listValidatorAssignments_Paginate in EL.
      exists [], attestation, rest, [], pc, vs, e0.
      split; [reflexivity |]. split; [constructor |]. split; [exact EF |].
      split; [exact EL |]. split; reflexivity.
Qed.

(** C7. With any assignments that [GetEpochAssignments] returns for the
    epoch of an attestation, [parseAttestation] returns the attestation with
    one attester for every set bit [i] of the aggregation bits: the
    validator stored under the key of (slot, committee index, [i]), and 0
    when the key is absent.  The loop over the attestations of a block
    returns exactly when [GetEpochAssignments] returns assignments for every
    attestation in turn, each call from the client the call before has left,
    and it returns the attestations resolved under these assignments.  So
    [parseRpcBlock] succeeds on a block whose payload parses as soon as the
    assignments of its attestations are returned, whatever keys they lack,
    and the attestations of the block it returns are the ones resolved in
    turn from the client it was called with.  An error of the loop is the
    error of the run of the loop over the pages for the first attestation
    whose assignments are not returned. *)
Theorem C7_attesters_default_to_zero :
  forall (lib : PrysmLib) (N : Type) (client : BeaconChainClient N) (cfg : Config)
         (fuel : nat),
    (forall (attestation : WireAttestation) (pc pc' : PrysmClient N)
            (assignments : EpochAssignments),
        SlotsPerEpoch cfg <> 0 ->
        GetEpochAssignments cfg fuel (AD_Slot (WA_Data attestation) / SlotsPerEpoch cfg) pc
        = Some (Ok assignments, pc') ->
        exists a,
          parseAttestation cfg fuel attestation pc = Some (Ok a, pc') /\
          Attesters a
          = map (fun i => default 0 (AttestorAssignments assignments
                                     !! FormatAttestorAssignmentKey
                                          (AD_Slot (WA_Data attestation))
                                          (AD_CommitteeIndex (WA_Data attestation)) i))
              (List.filter (Bitlist_BitAt (WA_AggregationBits attestation))
                 (seqZ 0 (Bitlist_Len (WA_AggregationBits attestation))))) /\
    (forall (attestations : list WireAttestation) (pc pc' : PrysmClient N)
            (parsed : list Attestation),
        SlotsPerEpoch cfg <> 0 ->
        (parseAttestations cfg fuel attestations pc = Some (Ok parsed, pc') <->
         resolvedInTurn cfg fuel attestations pc parsed pc')) /\
    (forall (block : BeaconBlockContainer) (blk : SignedBeaconBlock)
            (pc pc' : PrysmClient N) (parsed : list Attestation),
        SlotsPerEpoch cfg <> 0 ->
        blockOfContainer block = Some blk ->
        match BC_Block block with
        | BellatrixBlock _ =>
            exists ep, parseBellatrixPayload (SB_ExecutionPayload blk) = Ok ep
        | CapellaBlock _ =>
            exists ep, parseCapellaPayload (SB_Slot blk) (BC_BlockRoot block)
                         (SB_ExecutionPayload blk) = Ok ep
        | _ => True
        end ->
        resolvedInTurn cfg fuel (SB_Attestations blk) pc parsed pc' ->
        exists b,
          parseRpcBlock cfg fuel block pc = Some (Ok b, pc') /\
          B_Attestations b = parsed) /\
    (forall (block : BeaconBlockContainer) (pc pc' : PrysmClient N) (b : Block),
        parseRpcBlock cfg fuel block pc = Some (Ok b, pc') ->
        exists blk,
          blockOfContainer block = Some blk /\
          resolvedInTurn cfg fuel (SB_Attestations blk) pc (B_Attestations b) pc') /\
    (forall (attestations : list WireAttestation) (pc pc' : PrysmClient N) (e : error),
        parseAttestations cfg fuel attestations pc = Some (Err e, pc') ->
        assignmentsFailAt cfg fuel attestations pc e pc').
Proof.
  intros lib N client cfg fuel. split; [| split; [| split; [| split]]].
  - intros attestation pc pc' assignments Hspe H.
    eexists. split; [apply parseAttestation_Ok; eassumption | reflexivity].
  - intros attestations pc pc' parsed Hspe. split.
    + apply parseAttestations_resolved.
    + apply resolved_parseAttestations. exact Hspe.
  - intros block blk pc pc' parsed Hspe Hblk Hpay HR.
    apply (resolved_parseAttestations _ _ _ _ _ _ _ _ _ Hspe) in HR.
    unfold parseRpcBlock, parsePhase0Block, parseAltairBlock, parseBellatrixBlock,
      parseCapellaBlock, GetPhase0Block, GetAltairBlock, GetBellatrixBlock,
      GetCapellaBlock, withAttestations.
    unfold blockOfContainer in Hblk.
    destruct (BC_Block block) as [| [blk' |] | [blk' |] | [blk' |] | [blk' |]];
      try discriminate; injection Hblk as ->.
    + rewrite HR. eexists. split; reflexivity.
    + rewrite HR. eexists. split; reflexivity.
    + destruct Hpay as [ep Hep]. rewrite Hep, HR. eexists. split; reflexivity.
    + destruct Hpay as [ep Hep]. rewrite Hep, HR. eexists. split; reflexivity.
  - intros block pc pc' b H.
    apply parseRpcBlock_Ok in H as (blk & sa & ep & atts & bls & Hblk & HA & -> & _).
    exists blk. split; [exact Hblk |].
    apply parseAttestations_resolved in HA. exact HA.
  - intros attestations pc pc' e H. apply parseAttestations_fail. exact H.
Qed.

Lemma C7_attesters_default_to_zero_witness :
  exists b pc',
    parseRpcBlock (lib := scriptedPrysmLib) scriptedConfig 1 attestedContainer
      (NewPrysmClient [(onePage, None)]) = Some (Ok b, pc') /\
    map Attesters (B_Attestations b) = [[9]; [0]].
Proof.
  destruct (C7_attesters_default_to_zero scriptedPrysmLib _ scriptedBeacon
              scriptedConfig 1%nat) as (_ & _ & P & _).
  eassert (HR : resolvedInTurn (lib := scriptedPrysmLib) scriptedConfig 1
                  (SB_Attestations attestedBlock) (NewPrysmClient [(onePage, None)]) _ _).
  { eapply (resolvedInTurn_cons (lib := scriptedPrysmLib) scriptedConfig 1
              (attestationOf 0) [attestationOf 1]); [reflexivity |].
    eapply (resolvedInTurn_cons (lib := scriptedPrysmLib) scriptedConfig 1
              (attestationOf 1) []); [reflexivity |].
    apply resolvedInTurn_nil. }
  destruct (P attestedContainer attestedBlock _ _ _ ltac:(discriminate) eq_refl I HR)
    as (b & Hb & Hatt).
  exists b. eexists. split; [exact Hb |]. rewrite Hatt. reflexivity.
Defined.

(** Of the two attestations of the block of the examples, the first
    resolves to validator 9 and the second, whose key is absent, to 0. *)
Lemma parse_attestedContainer :
  exists b pc',
    parseRpcBlock (lib := scriptedPrysmLib) scriptedConfig 1 attestedContainer
      (NewPrysmClient [(onePage, None)]) = Some (Ok b, pc') /\
    map Attesters (B_Attestations b) = [[9]; [0]].
Proof. do 2 eexists. split; [reflexivity |]. vm_compute. reflexivity. Qed.

(** ** The dispatch on the variant (C6) *)

Section PayloadFacts.
Context {lib : PrysmLib}.

Lemma executionPayloadOf_Ok payload txs withdrawals r :
  executionPayloadOf payload txs withdrawals = Ok r ->
  exists ep, r = Some ep /\ EP_Withdrawals ep = withdrawals.
Proof.
  unfold executionPayloadOf.
  destruct (LittleEndian_Uint64 (WP_BaseFeePerGas payload)); [| discriminate].
  intros [= <-]. eexists. split; reflexivity.
Qed.

(** The payload of a Bellatrix block is set exactly when the wire block
    has a payload whose parent hash is not 32 zero bytes. *)
Lemma parseBellatrixPayload_Ok payload r :
  parseBellatrixPayload payload = Ok r ->
  (r <> None <-> hasPayload payload <> None) /\
  (forall ep, r = Some ep -> EP_Withdrawals ep = None).
Proof.
  unfold parseBellatrixPayload.
  destruct (hasPayload payload) as [p |].
  - destruct (parseTransactions (WP_BlockHash p) 0 (WP_Transactions p) []); try discriminate.
    intros H. apply executionPayloadOf_Ok in H as (ep & -> & Hw). split.
    + split; discriminate.
    + intros ep' [= <-]. exact Hw.
  - intros [= <-]. split; [tauto | discriminate].
Qed.

(** The withdrawals of a Capella payload: one record for every withdrawal
    of the wire payload, each with the slot and the root given. *)
Lemma parseCapellaPayload_Ok slot blockRoot payload r :
  parseCapellaPayload slot blockRoot payload = Ok r ->
  (r <> None <-> hasPayload payload <> None) /\
  (forall ep, r = Some ep ->
     exists p, hasPayload payload = Some p /\
       EP_Withdrawals ep = Some (map (parseWithdrawal slot blockRoot) (WP_Withdrawals p))).
Proof.
  unfold parseCapellaPayload.
  destruct (hasPayload payload) as [p |].
  - destruct (parseTransactions (WP_BlockHash p) 0 (WP_Transactions p) []); try discriminate.
    intros H. apply executionPayloadOf_Ok in H as (ep & -> & Hw). split.
    + split; discriminate.
    + intros ep' [= <-]. exists p. split; [reflexivity | exact Hw].
  - intros [= <-]. split; [tauto | discriminate].
Qed.

End PayloadFacts.

(** Against C6 as the spec states it: the Bellatrix block of the examples, whose
    payload has the parent hash of 32 zero bytes, is the only variant of its
    container, and [parseRpcBlock] returns a block with a nil execution
    payload. *)
Lemma C6_premerge_block_has_no_payload :
  exists b pc',
    GetBellatrixBlock premergeContainer = Some (emptyBlock 100 (Some zeroPayload)) /\
    parseRpcBlock (lib := scriptedPrysmLib) scriptedConfig 1 premergeContainer
      (NewPrysmClient [(onePage, None)]) = Some (Ok b, pc') /\
    B_ExecutionPayload b = None /\
    B_SignedBLSToExecutionChange b = None.
Proof. do 2 eexists. repeat split. Qed.

(** C6, amended.  When only the Bellatrix variant is set and
    [parseRpcBlock] returns a block, the block has a nil set of
    BLS-to-execution changes, and its execution payload is non-nil exactly
    when the wire block has a payload whose parent hash is not 32 zero bytes.
    When the Capella variant is set and [parseRpcBlock] returns a block with
    an execution payload, the payload holds one withdrawal record for every
    withdrawal of the wire payload, each with the block's slot and block
    root.  When none of the four variants is set, [parseRpcBlock] returns
    the error that names the four forks, whatever the fuel. *)
Theorem C6_parse_by_variant :
  forall (lib : PrysmLib) (N : Type) (client : BeaconChainClient N) (cfg : Config)
         (fuel : nat) (block : BeaconBlockContainer) (pc : PrysmClient N),
    (forall (blk : SignedBeaconBlock) (b : Block) (pc' : PrysmClient N),
        BC_Block block = BellatrixBlock (Some blk) ->
        parseRpcBlock cfg fuel block pc = Some (Ok b, pc') ->
        B_SignedBLSToExecutionChange b = None /\
        (B_ExecutionPayload b <> None <->
         exists payload, SB_ExecutionPayload blk = Some payload /\
                         WP_ParentHash payload <> replicate 32 x00)) /\
    (forall (blk : SignedBeaconBlock) (b : Block) (pc' : PrysmClient N)
            (ep : ExecutionPayload),
        BC_Block block = CapellaBlock (Some blk) ->
        parseRpcBlock cfg fuel block pc = Some (Ok b, pc') ->
        B_ExecutionPayload b = Some ep ->
        exists payload withdrawals,
          SB_ExecutionPayload blk = Some payload /\
          EP_Withdrawals ep = Some withdrawals /\
          length withdrawals = length (WP_Withdrawals payload) /\
          Forall (fun w => W_Slot w = B_Slot b /\ W_BlockRoot w = B_BlockRoot b) withdrawals) /\
    (GetPhase0Block block = None -> GetAltairBlock block = None ->
     GetBellatrixBlock block = None -> GetCapellaBlock block = None ->
     parseRpcBlock cfg fuel block pc
     = Some (Err "block is neither phase0 nor altair nor bellatrix nor capella", pc)).
Proof.
  intros lib N client cfg fuel block pc. split; [| split].
  - intros blk b pc' Hvar H.
    apply parseRpcBlock_Ok in H
      as (blk' & sa & ep & atts & bls & Hblk & _ & -> & Hv).
    unfold blockOfContainer in Hblk. rewrite Hvar in Hblk, Hv.
    injection Hblk as <-. destruct Hv as [Hp ->]. split; [reflexivity |].
    apply parseBellatrixPayload_Ok in Hp as [Hp _]. simpl. rewrite Hp.
    unfold hasPayload. destruct (SB_ExecutionPayload blk) as [payload |].
    + destruct (decide (WP_ParentHash payload = replicate 32 x00)) as [Hz | Hnz].
      * rewrite bool_decide_eq_true_2 by exact Hz. split; [congruence |].
        intros (p & [= <-] & Hne). contradiction.
      * rewrite bool_decide_eq_false_2 by exact Hnz. split; [eauto | discriminate].
    + split; [congruence |]. intros (p & Hp' & _). discriminate.
  - intros blk b pc' ep Hvar H Hep.
    apply parseRpcBlock_Ok in H
      as (blk' & sa & ep' & atts & bls & Hblk & _ & -> & Hv).
    unfold blockOfContainer in Hblk. rewrite Hvar in Hblk, Hv.
    injection Hblk as <-. destruct Hv as [Hp _]. simpl in Hep. subst ep'.
    apply parseCapellaPayload_Ok in Hp as [_ Hp].
    destruct (Hp ep eq_refl) as (p & Hhas & Hw).
    assert (Hsome : SB_ExecutionPayload blk = Some p).
    { unfold hasPayload in Hhas. destruct (SB_ExecutionPayload blk) as [q |]; [| discriminate].
      destruct (bool_decide (WP_ParentHash q = replicate 32 x00)); congruence. }
    exists p, (map (parseWithdrawal (SB_Slot blk) (BC_BlockRoot block)) (WP_Withdrawals p)).
    split; [exact Hsome |]. split; [exact Hw |]. split; [apply length_map |].
    apply List.Forall_forall. intros w Hin. apply in_map_iff in Hin as (raw & <- & _).
    split; reflexivity.
  - intros H0 H1 H2 H3. unfold parseRpcBlock. rewrite H0, H1, H2, H3. reflexivity.
Qed.

Lemma C6_parse_by_variant_witness :
  exists b pc' ep,
    parseRpcBlock (lib := scriptedPrysmLib) scriptedConfig 1 capellaContainer
      (NewPrysmClient [(onePage, None)]) = Some (Ok b, pc') /\
    B_ExecutionPayload b = Some ep /\
    EP_Withdrawals ep
    = Some [mkWithdrawals 200 [xcd] 0 9 [xa1] 1000; mkWithdrawals 200 [xcd] 1 4 [xa2] 2000] /\
    exists withdrawals,
      EP_Withdrawals ep = Some withdrawals /\
      Forall (fun w => W_Slot w = B_Slot b /\ W_BlockRoot w = B_BlockRoot b) withdrawals.
Proof.
  do 3 eexists. split; [reflexivity |]. split; [reflexivity |]. split; [reflexivity |].
  destruct (proj1 (proj2 (C6_parse_by_variant scriptedPrysmLib _ scriptedBeacon
                            scriptedConfig 1%nat capellaContainer
                            (NewPrysmClient [(onePage, None)])))
              _ _ _ _ eq_refl eq_refl eq_refl)
    as (payload & withdrawals & _ & Hw & _ & HF).
  exists withdrawals. split; [exact Hw | exact HF].
Defined.

(** * Further properties of the exporter *)

(** ** The request of [eth1BatchRequestHeadersAndTxs] and its maps *)

Lemma fold_addHeaderElem (bs : list Z) : forall (pre : list Z) (bt : Batch),
  elems bt = map headerElem pre ->
  (forall b p, headers bt !! b = Some p -> pre !! p = Some b) ->
  (forall b, In b pre -> is_Some (headers bt !! b)) ->
  let bt' := fold_left addHeaderElem bs bt in
  elems bt' = map headerElem (pre ++ bs) /\
  (forall b p, headers bt' !! b = Some p -> (pre ++ bs) !! p = Some b) /\
  (forall b, In b (pre ++ bs) -> is_Some (headers bt' !! b)) /\
  txs bt' = txs bt.
Proof.
  induction bs as [| b0 bs IH]; intros pre bt He Hp Hi; cbn zeta.
  - rewrite app_nil_r. simpl. auto.
  - simpl fold_left.
    replace (pre ++ b0 :: bs) with ((pre ++ [b0]) ++ bs) by (rewrite <- app_assoc; reflexivity).
    assert (Hlen : length (elems bt) = length pre) by (rewrite He; apply length_map).
    destruct (IH (pre ++ [b0]) (addHeaderElem bt b0)) as (H1 & H2 & H3 & H4).
    + simpl. rewrite He, map_app. reflexivity.
    + intros b p. simpl. rewrite Hlen.
      destruct (decide (b0 = b)) as [-> | Hne].
      * rewrite lookup_insert_eq. intros [= <-].
        rewrite lookup_app_r by lia. rewrite Nat.sub_diag. reflexivity.
      * rewrite lookup_insert_ne by exact Hne. intros H.
        apply Hp in H. apply lookup_app_l_Some. exact H.
    + intros b Hin. simpl. apply in_app_or in Hin.
      destruct (decide (b0 = b)) as [-> | Hne].
      * rewrite lookup_insert_eq. eauto.
      * rewrite lookup_insert_ne by exact Hne.
        destruct Hin as [Hin | [Hin | []]]; [auto | contradiction].
    + repeat split; auto.
Qed.

Lemma fold_addTxElem (hs : list string) : forall (pre : list string) (bt : Batch) (n0 : nat),
  length (elems bt) = (n0 + length pre)%nat ->
  (forall h p, txs bt !! h = Some p -> exists q, p = (n0 + q)%nat /\ pre !! q = Some h) ->
  (forall h, In h pre -> is_Some (txs bt !! h)) ->
  let bt' := fold_left addTxElem hs bt in
  elems bt' = elems bt ++ map txElem hs /\
  (forall h p, txs bt' !! h = Some p ->
               exists q, p = (n0 + q)%nat /\ (pre ++ hs) !! q = Some h) /\
  (forall h, In h (pre ++ hs) -> is_Some (txs bt' !! h)) /\
  headers bt' = headers bt.
Proof.
  induction hs as [| h0 hs IH]; intros pre bt n0 Hlen Hp Hi; cbn zeta.
  - rewrite !app_nil_r. simpl. auto.
  - simpl fold_left.
    replace (pre ++ h0 :: hs) with ((pre ++ [h0]) ++ hs) by (rewrite <- app_assoc; reflexivity).
    destruct (IH (pre ++ [h0]) (addTxElem bt h0) n0) as (H1 & H2 & H3 & H4).
    + simpl. rewrite !length_app, Hlen. simpl. lia.
    + intros h p. simpl. rewrite Hlen.
      destruct (decide (h0 = h)) as [-> | Hne].
      * rewrite lookup_insert_eq. intros [= <-]. exists (length pre). split; [reflexivity |].
        rewrite lookup_app_r by lia. rewrite Nat.sub_diag. reflexivity.
      * rewrite lookup_insert_ne by exact Hne. intros H.
        apply Hp in H as (q & -> & Hq). exists q. split; [reflexivity |].
        apply lookup_app_l_Some. exact Hq.
    + intros h Hin. simpl. apply in_app_or in Hin.
      destruct (decide (h0 = h)) as [-> | Hne].
      * rewrite lookup_insert_eq. eauto.
      * rewrite lookup_insert_ne by exact Hne.
        destruct Hin as [Hin | [Hin | []]]; [auto | contradiction].
    + split; [| repeat split; auto].
      rewrite H1. simpl. rewrite <- app_assoc. reflexivity.
Qed.

(** What [eth1BatchRequestHeadersAndTxs] has built before the call. *)
Lemma batch_built (blocks : list Z) (hashes : list string) :
  let bt := fold_left addTxElem hashes (fold_left addHeaderElem blocks (mkBatch [] ∅ ∅ [])) in
  elems bt = map headerElem blocks ++ map txElem hashes /\
  (forall b p, headers bt !! b = Some p -> blocks !! p = Some b) /\
  (forall b, In b blocks -> is_Some (headers bt !! b)) /\
  (forall h p, txs bt !! h = Some p ->
               exists q, p = (length blocks + q)%nat /\ hashes !! q = Some h) /\
  (forall h, In h hashes -> is_Some (txs bt !! h)).
Proof.
  cbn zeta.
  destruct (fold_addHeaderElem blocks [] (mkBatch [] ∅ ∅ [])) as (H1 & H2 & H3 & H4);
    [reflexivity | intros b p H; simpl in H; rewrite lookup_empty in H; discriminate
    | intros b [] |].
  simpl in H1, H2, H3, H4.
  destruct (fold_addTxElem hashes [] (fold_left addHeaderElem blocks (mkBatch [] ∅ ∅ []))
              (length blocks)) as (G1 & G2 & G3 & G4).
  - rewrite H1, length_map. simpl. lia.
  - intros h p H. rewrite H4 in H. simpl in H. rewrite lookup_empty in H. discriminate.
  - intros h [].
  - simpl in G1, G2, G3. rewrite G4, G1, H1. repeat split; auto.
Qed.

Section BatchShape.
Context {W : Type} {world : Eth1World W}.

(** When [eth1BatchRequestHeadersAndTxs] returns a nil error, either both
    lists are empty and no call was made, or [BatchCall] was called once with
    one element for every block number, in order, followed by one for every
    transaction hash.  The maps returned have an entry exactly for the block
    numbers and the hashes asked for, and the entry of a block number or hash
    is the object of an element that asked for it, as the call left it. *)
Theorem batch_request_shape (blocks : list Z) (hashes : list string) (w : W)
    (hs : gmap Z Header) (ts : gmap string Transaction) (w' : W) :
  eth1BatchRequestHeadersAndTxs blocks hashes w = ((hs, ts, None), w') ->
  (forall b, is_Some (hs !! b) <-> In b blocks) /\
  (forall h, is_Some (ts !! h) <-> In h hashes) /\
  ((blocks = [] /\ hashes = [] /\ w' = w) \/
   exists es,
     BatchCall (map headerElem blocks ++ map txElem hashes) w = ((None, es), w') /\
     (forall b h, hs !! b = Some h ->
                  exists p, blocks !! p = Some b /\ h = headerAt es p) /\
     (forall h tx, ts !! h = Some tx ->
                   exists q, hashes !! q = Some h /\ tx = txAt es (length blocks + q))).
Proof.
  unfold eth1BatchRequestHeadersAndTxs.
  destruct (batch_built blocks hashes) as (He & Hhp & Hhi & Htp & Hti).
  cbn zeta in *.
  set (bt := fold_left addTxElem hashes (fold_left addHeaderElem blocks (mkBatch [] ∅ ∅ [])))
    in *.
  assert (Hdom : forall (es : list BatchElem),
             (forall b, is_Some ((headerAt es <$> headers bt) !! b) <-> In b blocks) /\
             (forall h, is_Some ((txAt es <$> txs bt) !! h) <-> In h hashes)).
  { intros es. split.
    - intros b. rewrite lookup_fmap, fmap_is_Some. split; [| apply Hhi].
      intros [p Hp]. apply Hhp in Hp. apply list_elem_of_In.
      eapply list_elem_of_lookup_2. exact Hp.
    - intros h. rewrite lookup_fmap, fmap_is_Some. split; [| apply Hti].
      intros [p Hp]. apply Htp in Hp as (q & _ & Hq). apply list_elem_of_In.
      eapply list_elem_of_lookup_2. exact Hq. }
  destruct (bool_decide (length (elems bt) = 0%nat)) eqn:Hz.
  - intros [= <- <- <-]. destruct (Hdom (elems bt)) as [D1 D2].
    split; [exact D1 |]. split; [exact D2 |]. left.
    apply bool_decide_eq_true_1 in Hz. rewrite He, length_app, !length_map in Hz.
    destruct blocks, hashes; simpl in Hz; try lia. auto.
  - rewrite He. destruct (BatchCall (map headerElem blocks ++ map txElem hashes) w)
      as [[[e |] es] w1] eqn:Hcall; [discriminate |].
    pose proof (batch_errors_nil blocks hashes) as Hnil. fold bt in Hnil. rewrite Hnil.
    intros [= <- <- <-]. destruct (Hdom es) as [D1 D2].
    split; [exact D1 |]. split; [exact D2 |]. right. exists es.
    split; [reflexivity |]. split.
    + intros b h. rewrite lookup_fmap. destruct (headers bt !! b) as [p |] eqn:Hp;
        [| discriminate]. intros [= <-]. exists p. split; [eauto | reflexivity].
    + intros h tx. rewrite lookup_fmap. destruct (txs bt !! h) as [p |] eqn:Hp;
        [| discriminate]. intros [= <-]. apply Htp in Hp as (q & -> & Hq).
      exists q. split; [exact Hq | reflexivity].
Qed.

End BatchShape.

Lemma batch_request_shape_witness :
  exists hs ts,
    eth1BatchRequestHeadersAndTxs [7; 9; 7] ["0x11"] (healthyNode [])
    = ((hs, ts, None), healthyNode []) /\
    (forall b, is_Some (hs !! b) <-> In b [7; 9; 7]) /\
    (forall h, is_Some (ts !! h) <-> In h ["0x11"]).
Proof.
  set (r := eth1BatchRequestHeadersAndTxs [7; 9; 7] ["0x11"] (healthyNode [])).
  assert (E : r = ((fst (fst (fst r)), snd (fst (fst r)), None), healthyNode []))
    by reflexivity.
  exists (fst (fst (fst r))), (snd (fst (fst r))). split; [exact E |].
  destruct (batch_request_shape _ _ _ _ _ _ E) as (H1 & H2 & _).
  split; [exact H1 | exact H2].
Defined.


(** ** What [fetchEth1Deposits] asks for and what it returns *)

Section FetchMore.
Context {lib : Eth1Lib} {W : Type} {world : Eth1World W} (cfg : Config).

(** The maps of a batch request that returns a nil error hold an entry for
    every block number and every hash asked for. *)
Lemma batch_request_maps (blocks : list Z) (hashes : list string) (w : W)
    (hs : gmap Z Header) (ts : gmap string Transaction) (w' : W) :
  eth1BatchRequestHeadersAndTxs blocks hashes w = ((hs, ts, None), w') ->
  (forall b, In b blocks -> is_Some (hs !! b)) /\
  (forall h, In h hashes -> is_Some (ts !! h)).
Proof.
  unfold eth1BatchRequestHeadersAndTxs.
  destruct (batch_built blocks hashes) as (_ & _ & Hhi & _ & Hti).
  cbn zeta in *.
  set (bt := fold_left addTxElem hashes (fold_left addHeaderElem blocks (mkBatch [] ∅ ∅ [])))
    in *.
  destruct (bool_decide (length (elems bt) = 0%nat)).
  - intros [= <- <- <-]. split; intros x Hx; rewrite lookup_fmap, fmap_is_Some; auto.
  - destruct (BatchCall (elems bt) w) as [[[e |] es] w1]; [discriminate |].
    destruct (firstError (errors bt)); [discriminate |].
    intros [= <- <- <-]. split; intros x Hx; rewrite lookup_fmap, fmap_is_Some; auto.
Qed.

(** An error of a batch request is the error of its one call, made with
    the elements for the block numbers and the hashes asked for. *)
Lemma batch_error_cause (blocks : list Z) (hashes : list string) (w : W)
    (hs : gmap Z Header) (ts : gmap string Transaction) (e : error) (w' : W) :
  eth1BatchRequestHeadersAndTxs blocks hashes w = ((hs, ts, Some e), w') ->
  exists es', BatchCall (map headerElem blocks ++ map txElem hashes) w = ((Some e, es'), w').
Proof.
  unfold eth1BatchRequestHeadersAndTxs.
  pose proof (batch_errors_nil blocks hashes) as Hnil.
  destruct (batch_built blocks hashes) as (He & _).
  cbn zeta in *.
  set (bt := fold_left addTxElem hashes (fold_left addHeaderElem blocks (mkBatch [] ∅ ∅ [])))
    in *.
  destruct (bool_decide (length (elems bt) = 0%nat)); [discriminate |].
  rewrite He.
  destruct (BatchCall (map headerElem blocks ++ map txElem hashes) w)
    as [[[e0 |] es] w1] eqn:Hc.
  - intros [= _ _ <- <-]. eauto.
  - rewrite Hnil. discriminate.
Qed.


(** The two lists of the loop over the logs are the block numbers and the
    transaction hashes of the deposits collected, in their order. *)
Lemma decodeLogs_lists (domain : bytes) (logs : list Log) :
  forall (acc acc' : Decoded) (err : option error),
    decodeLogs domain logs acc = Returns (acc', err) ->
    blocksToFetch acc = map BlockNumber (depositsToSave acc) ->
    txsToFetch acc = map (fun d => hex0x (TxHash d)) (depositsToSave acc) ->
    blocksToFetch acc' = map BlockNumber (depositsToSave acc') /\
    txsToFetch acc' = map (fun d => hex0x (TxHash d)) (depositsToSave acc').
Proof.
  induction logs as [| l logs IH]; intros acc acc' err H Hb Ht; simpl in H.
  - injection H as <- _. auto.
  - destruct (Log_Topics l) as [| topic0 topics]; [discriminate |].
    destruct (bool_decide (topic0 <> eth1DepositEventSignature)); [eapply IH; eauto |].
    destruct (UnpackDepositLogData (Log_Data l)) as [[[[[pk wc] am] sg] mi] [e |]].
    + injection H as <- _. auto.
    + eapply IH; [exact H | |]; simpl; rewrite map_app; simpl; congruence.
Qed.

Lemma sameDecoded_lists (ds ds' : list Eth1Deposit) :
  Forall2 sameDecoded ds ds' ->
  map BlockNumber ds' = map BlockNumber ds /\
  map (fun d => hex0x (TxHash d)) ds' = map (fun d => hex0x (TxHash d)) ds.
Proof.
  induction 1 as [| d d' ds ds' Hd _ [IH1 IH2]]; [auto |].
  destruct Hd as (Hh & _ & Hb & _). simpl. rewrite Hh, Hb, IH1, IH2. auto.
Qed.

(** Every deposit of a loop over the deposits that ends without an error
    has its time, input and sender from the two maps. *)
Lemma enrichDeposits_enriched (hs : gmap Z Header) (ts : gmap string Transaction)
    (ds : list Eth1Deposit) : forall ds' : list Eth1Deposit,
  enrichDeposits hs ts ds = Returns (ds', None) -> Forall (enrichedBy hs ts) ds'.
Proof.
  induction ds as [| d ds IH]; intros ds' H; simpl in H.
  - injection H as <-. constructor.
  - destruct (hs !! BlockNumber d) as [b |] eqn:Hb; [| discriminate].
    match type of H with
    | context [ts !! ?k] => destruct (ts !! k) as [[tx |] |] eqn:Ht
    end; try discriminate.
    destruct (tx_chainId tx) as [chainID |] eqn:Hc; [| discriminate].
    destruct (LondonSigner_Sender chainID tx) as [sender [e |]] eqn:Hs; [discriminate |].
    destruct (enrichDeposits hs ts ds) as [[rest' err'] | why] eqn:Hr; [| discriminate].
    injection H as <- ->. constructor; [| apply IH; reflexivity].
    exists b, tx, chainID. simpl in *. auto 10.
Qed.

(** The loop over the logs that ends with an error: it stops at the first
    deposit log whose data does not unpack, with the deposits of the logs
    before it. *)
Lemma decodeLogs_first_error (domain : bytes) (logs : list Log) :
  forall (acc acc' : Decoded) (e : error),
    decodeLogs domain logs acc = Returns (acc', Some e) ->
    exists (before : list Log) (l : Log) (after : list Log) (e0 : error),
      logs = before ++ l :: after /\
      decodeLogs domain before acc = Returns (acc', None) /\
      isDepositLog l = true /\
      snd (UnpackDepositLogData (Log_Data l)) = Some e0 /\
      e = wrapf ("error unpacking eth1-deposit-log: " +:+ hex (Log_Data l) +:+ ": ") e0.
Proof.
  induction logs as [| l logs IH]; intros acc acc' e H; simpl in H; [discriminate |].
  destruct (Log_Topics l) as [| topic0 topics] eqn:HT; [discriminate |].
  destruct (decide (topic0 = eth1DepositEventSignature)) as [Heq | Hne].
  - rewrite bool_decide_eq_false_2 in H by (intros Hc; exact (Hc Heq)).
    destruct (UnpackDepositLogData (Log_Data l))
      as [[[[[pk wc] am] sg] mi] [e0 |]] eqn:HU.
    + injection H as <- <-. exists [], l, logs, e0. split; [reflexivity |].
      split; [reflexivity |].
      split; [unfold isDepositLog; rewrite HT; apply bool_decide_eq_true_2; exact Heq |].
      rewrite HU. split; reflexivity.
    + apply IH in H as (before & l' & after & e0 & -> & HD & H).
      exists (l :: before), l', after, e0. split; [reflexivity |]. split; [| exact H].
      simpl. rewrite HT, bool_decide_eq_false_2 by (intros Hc; exact (Hc Heq)).
      rewrite HU. exact HD.
  - rewrite bool_decide_eq_true_2 in H by exact Hne.
    apply IH in H as (before & l' & after & e0 & -> & HD & H).
    exists (l :: before), l', after, e0. split; [reflexivity |]. split; [| exact H].
    simpl. rewrite HT, bool_decide_eq_true_2 by exact Hne. exact HD.
Qed.

(** With maps that hold the block and the transaction of every deposit, the
    loop over the deposits ends with an error only at the first deposit whose
    transaction has no chain id or a sender that is not recovered; the
    deposits before it are filled, this one has its time and its input, and
    the ones after it are as they were. *)
Lemma enrichDeposits_first_error (hs : gmap Z Header) (ts : gmap string Transaction)
    (ds : list Eth1Deposit) : forall (ds' : list Eth1Deposit) (e : error),
  (forall d, In d ds ->
             is_Some (hs !! BlockNumber d) /\ is_Some (ts !! hex0x (TxHash d))) ->
  enrichDeposits hs ts ds = Returns (ds', Some e) ->
  exists (pre : list Eth1Deposit) (d : Eth1Deposit) (rest pre' : list Eth1Deposit)
         (b : Header) (tx : TxInner),
    ds = pre ++ d :: rest /\
    enrichDeposits hs ts pre = Returns (pre', None) /\
    hs !! BlockNumber d = Some b /\
    ts !! hex0x (TxHash d) = Some (Some tx) /\
    ds' = pre' ++ set_TxInput (tx_data tx) (set_BlockTs (int64_of_u64 (Header_Time b)) d)
               :: rest /\
    ((tx_chainId tx = None /\ e = "error getting tx-chainId for eth1-deposit") \/
     (exists chainID sender e0,
         tx_chainId tx = Some chainID /\
         LondonSigner_Sender chainID tx = (sender, Some e0) /\
         e = wrapf ("error getting sender for eth1-deposit (txHash: " +:+ hex (TxHash d)
                    +:+ ", chainID: " +:+ pretty chainID +:+ "): ") e0)).
Proof.
  induction ds as [| d ds IH]; intros ds' e Hin H; simpl in H; [discriminate |].
  destruct (Hin d (or_introl eq_refl)) as [[b Hb] [otx Hotx]].
  rewrite Hb in H.
  match type of H with
  | context [@lookup ?K ?A ?M ?L ?k ts] =>
      change k with (hex0x (TxHash d)) in H;
      destruct (@lookup K A M L (hex0x (TxHash d)) ts) as [[tx |] |] eqn:Ht
  end; try discriminate.
  2: { exfalso. pose proof (eq_trans (eq_sym Ht) Hotx) as Hx. discriminate Hx. }
  destruct (tx_chainId tx) as [chainID |] eqn:Hc.
  2: { injection H as <- <-. exists [], d, ds, [], b, tx. auto 10. }
  destruct (LondonSigner_Sender chainID tx) as [sender [e0 |]] eqn:Hs.
  { injection H as <- <-. exists [], d, ds, [], b, tx.
    split; [reflexivity |]. split; [reflexivity |]. split; [exact Hb |].
    split; [exact Ht |]. split; [reflexivity |].
    right. exists chainID, sender, e0. auto. }
  destruct (enrichDeposits hs ts ds) as [[rest' err'] | why] eqn:Hr; [| discriminate].
  injection H as <- ->.
  destruct (IH rest' e (fun d' Hd' => Hin d' (or_intror Hd')) eq_refl)
    as (pre & d0 & rest & pre' & b0 & tx0 & -> & HP & Hb0 & Ht0 & -> & Hcause).
  eexists (d :: pre), d0, rest, (_ :: pre'), b0, tx0.
  split; [reflexivity |]. split.
  { simpl. rewrite Hb.
    match goal with
    | |- context [@lookup ?K ?A ?M ?L ?k ts] => change k with (hex0x (TxHash d))
    end.
    rewrite Ht, Hc, Hs, HP. reflexivity. }
  split; [exact Hb0 |]. split; [exact Ht0 |]. split; [reflexivity | exact Hcause].
Qed.


(** A successful fetch made one batch request, for the block numbers and
    the transaction hashes of the deposits it returns, in their order, and
    filled every deposit from the answer: the time of its block's header,
    the input of its transaction and the sender recovered from it. *)
Theorem fetch_enriched (fromBlock toBlock : Z) (w : W) (ds : list Eth1Deposit) (w' : W) :
  fetchEth1Deposits cfg fromBlock toBlock w = (Returns (ds, None), w') ->
  exists (logs : list Log) (w1 : W) (hs : gmap Z Header) (ts : gmap string Transaction),
    FilterLogs fromBlock toBlock w = ((logs, None), w1) /\
    eth1BatchRequestHeadersAndTxs (map BlockNumber ds) (map (fun d => hex0x (TxHash d)) ds) w1
    = ((hs, ts, None), w') /\
    Forall (enrichedBy hs ts) ds.
Proof.
  unfold fetchEth1Deposits. intros H.
  destruct (FilterLogs fromBlock toBlock w) as [[logs [e |]] w1] eqn:HF; [discriminate |].
  destruct (hex_DecodeString (remove0x (GenesisForkVersion cfg)))
    as [gfv [e |]] eqn:HD; [discriminate |].
  destruct (depositDomain cfg gfv) as [domain [e |]] eqn:HC; [discriminate |].
  destruct (decodeLogs domain logs (mkDecoded [] [] [])) as [[acc [e |]] | why] eqn:HL;
    try discriminate.
  apply decodeLogs_lists in HL as [Hb Ht]; [| reflexivity | reflexivity].
  destruct (eth1BatchRequestHeadersAndTxs (blocksToFetch acc) (txsToFetch acc) w1)
    as [[[hs ts] [e |]] w2] eqn:HB; [discriminate |].
  injection H as H <-.
  destruct (sameDecoded_lists _ _ (enrichDeposits_sameDecoded _ _ _ _ _ H)) as [S1 S2].
  exists logs, w1, hs, ts. split; [reflexivity |].
  split; [rewrite S1, S2, <- Hb, <- Ht; exact HB |].
  eapply enrichDeposits_enriched. exact H.
Qed.

(** Every error [fetchEth1Deposits] returns has one of seven causes, each
    a step of the run that returned it: the log filter of the run failed;
    the fork version does not decode, or the domain is not computed; the
    first deposit log of the run whose data does not unpack; the one call
    of the batch request, made for the blocks and the hashes of the run's
    deposits, failed in transport; or the loop over the deposits stopped at
    the first deposit whose transaction, the one the batch request of the
    run returned for its hash, has no chain id or a sender that is not
    recovered.  The deposits returned with the error are the ones decoded so
    far, the ones before the deposit the loop stopped at being filled.  The
    two errors for a block or a transaction missing from the fetched maps
    are not among the causes: the maps hold an entry for every deposit, so
    these two returns are never reached. *)
Theorem fetch_error_causes (fromBlock toBlock : Z) (w : W) (ds : list Eth1Deposit)
    (e : error) (w' : W) :
  fetchEth1Deposits cfg fromBlock toBlock w = (Returns (ds, Some e), w') ->
  fetchErrorCause cfg fromBlock toBlock w ds e w'.
Proof.
  unfold fetchEth1Deposits. intros H.
  destruct (FilterLogs fromBlock toBlock w) as [[logs [e0 |]] w1] eqn:HF.
  { injection H as <- <- <-. eapply cause_logs. exact HF. }
  destruct (hex_DecodeString (remove0x (GenesisForkVersion cfg)))
    as [gfv [e0 |]] eqn:HD.
  { injection H as <- <- <-. eapply cause_forkVersion; eassumption. }
  destruct (depositDomain cfg gfv) as [domain [e0 |]] eqn:HC.
  { injection H as <- <- <-. eapply cause_domain; eassumption. }
  assert (HL0 : logsFiltered cfg fromBlock toBlock w logs domain w1)
    by (exists gfv; auto).
  destruct (decodeLogs domain logs (mkDecoded [] [] [])) as [[acc [e0 |]] | why] eqn:HL;
    try discriminate.
  { injection H as <- <- <-.
    apply decodeLogs_first_error in HL as (before & l & after & e1 & Hl & Hd & Hi & Hu & ->).
    eapply cause_unpack; eassumption. }
  pose proof (decodeLogs_lists _ _ _ _ _ HL eq_refl eq_refl) as [Hb Ht].
  destruct (eth1BatchRequestHeadersAndTxs (blocksToFetch acc) (txsToFetch acc) w1)
    as [[[hs ts] [e0 |]] w2] eqn:HB.
  { injection H as <- <- <-.
    pose proof (batch_error_cause _ _ _ _ _ _ _ HB) as (es' & Hcall).
    rewrite Hb, Ht in Hcall.
    eapply cause_batch; eassumption. }
  injection H as H <-.
  pose proof (batch_request_maps _ _ _ _ _ _ HB) as [D1 D2].
  apply enrichDeposits_first_error in H.
  - destruct H as (pre & d & rest & pre' & b & tx & Hds & HP & Hhb & Htx & -> &
                   [(Hc & ->) | (chainID & sender & e0 & Hc & Hs & ->)]).
    + eapply cause_chainId; eassumption.
    + eapply cause_sender; eassumption.
  - intros d Hd. split.
    + apply D1. rewrite Hb. apply in_map. exact Hd.
    + apply D2. rewrite Ht. apply (in_map (fun d => hex0x (TxHash d))). exact Hd.
Qed.

End FetchMore.



Lemma fetch_enriched_witness :
  exists hs ts, Forall (enrichedBy (lib := scriptedLib) hs ts) [fetched_valid; fetched_invalid].
Proof.
  destruct (fetch_enriched (lib := scriptedLib) scriptedConfig 1 1001 twoDeposits _ _
              fetch_twoDeposits) as (logs & w1 & hs & ts & _ & _ & H).
  exists hs, ts. exact H.
Defined.

Lemma fetch_legacyTxNode :
  fetchEth1Deposits (lib := scriptedLib) scriptedConfig 1 1001 legacyTxNode
  = (Returns ([mkEth1Deposit [x11] [xde; xad] 0 7 1600000000 [] [xaa] [] 32000000000 [xbb]
                 [x00] false true],
              Some "error getting tx-chainId for eth1-deposit"), sc_pop legacyTxNode).
Proof. vm_compute. reflexivity. Qed.

Lemma fetch_error_causes_witness :
  fetchErrorCause (lib := scriptedLib) scriptedConfig 1 1001 legacyTxNode
    [mkEth1Deposit [x11] [xde; xad] 0 7 1600000000 [] [xaa] [] 32000000000 [xbb]
       [x00] false true]
    "error getting tx-chainId for eth1-deposit" (sc_pop legacyTxNode).
Proof.
  exact (fetch_error_causes (lib := scriptedLib) scriptedConfig 1 1001 legacyTxNode _ _ _
           fetch_legacyTxNode).
Defined.


(** ** The fork version of the four test networks *)

Section LegacyNetworks.
Context {lib : Eth1Lib} {W : Type} {world : Eth1World W}.

Lemma depositDomain_legacy (cfg : Config) (g1 g2 : bytes) :
  legacyNetwork (ConfigName cfg) = true ->
  depositDomain cfg g1 = depositDomain cfg g2.
Proof.
  unfold legacyNetwork, depositDomain. intros H.
  destruct (String.eqb (ConfigName cfg) "prater") eqn:E4; [reflexivity |].
  destruct (String.eqb (ConfigName cfg) "pyrmont") eqn:E3; [reflexivity |].
  destruct (String.eqb (ConfigName cfg) "toledo") eqn:E2; [reflexivity |].
  destruct (String.eqb (ConfigName cfg) "zinken") eqn:E1; [reflexivity | discriminate].
Qed.

(** On zinken, toledo, pyrmont and prater the configured genesis fork
    version has no effect on what [fetchEth1Deposits] does, as long as it
    decodes as hexadecimal: the domain of these networks is computed from a
    fork version fixed in the code. *)
Theorem fetch_legacy_network_ignores_fork_version (cfg : Config) (v1 v2 : string)
    (fromBlock toBlock : Z) (w : W) :
  legacyNetwork (ConfigName cfg) = true ->
  snd (hex_DecodeString (remove0x v1)) = None ->
  snd (hex_DecodeString (remove0x v2)) = None ->
  fetchEth1Deposits (withGenesisForkVersion v1 cfg) fromBlock toBlock w
  = fetchEth1Deposits (withGenesisForkVersion v2 cfg) fromBlock toBlock w.
Proof.
  intros HL H1 H2. unfold fetchEth1Deposits.
  destruct (FilterLogs fromBlock toBlock w) as [[logs [e |]] w1]; [reflexivity |].
  change (GenesisForkVersion (withGenesisForkVersion v1 cfg)) with v1.
  change (GenesisForkVersion (withGenesisForkVersion v2 cfg)) with v2.
  destruct (hex_DecodeString (remove0x v1)) as [g1 e1].
  destruct (hex_DecodeString (remove0x v2)) as [g2 e2].
  simpl in H1, H2. subst e1 e2.
  assert (HD : depositDomain (withGenesisForkVersion v1 cfg) g1
               = depositDomain (withGenesisForkVersion v2 cfg) g2).
  { rewrite (depositDomain_legacy (withGenesisForkVersion v1 cfg) g1 g2) by exact HL.
    reflexivity. }
  rewrite HD. reflexivity.
Qed.

End LegacyNetworks.

Lemma fetch_legacy_network_ignores_fork_version_witness :
  fetchEth1Deposits (lib := scriptedLib) (withGenesisForkVersion "0xdeadbeef" praterConfig)
    1 1001 twoDeposits
  = fetchEth1Deposits (lib := scriptedLib) (withGenesisForkVersion "0x00000000" praterConfig)
      1 1001 twoDeposits.
Proof.
  exact (fetch_legacy_network_ignores_fork_version (lib := scriptedLib) praterConfig
           "0xdeadbeef" "0x00000000" 1 1001 twoDeposits eq_refl eq_refl eq_refl).
Defined.

(** ** The progress of one iteration *)

Lemma scanRange_to_le (lp lf cfb head : Z) : snd (scanRange lp lf cfb head) <= head.
Proof.
  unfold scanRange. cbv zeta. simpl snd.
  match goal with
  | |- (if ?c >? head then head else ?c') <= head =>
      rewrite Z.gtb_ltb; destruct (Z.ltb_spec head c); lia
  end.
Qed.

Section IterationProgress.
Context {lib : Eth1Lib} {W : Type} {world : Eth1World W} (cfg : Config).

(** An iteration of the exporter that returns ends with a sleep, and does
    one of two things.  Either it keeps [lastFetchedBlock] and the table and
    sleeps five seconds; or it has read the chain height [head], saved a
    batch of deposits with all its upserts, and moved [lastFetchedBlock] to
    the upper end of a range it fetched, which is at most [head]: then it
    sleeps sixty seconds when it has reached [head] and five otherwise. *)
Theorem iteration_progress (lastFetchedBlock : Z) (w : W) (t : Table)
    (last' : Z) (evs : list Event) (w' : W) (t' : Table) :
  exporterIteration cfg lastFetchedBlock w t = (Returns (last', evs), w', t') ->
  exists seconds : Z,
    list.last evs = Some (EvSleep seconds) /\
    ((last' = lastFetchedBlock /\ t' = t /\ seconds = 5) \/
     (exists (w1 w2 : W) (head fromBlock : Z) (ds : list Eth1Deposit),
         db_Get w = (None, w1) /\
         HeaderByNumber w1 = ((head, None), w2) /\
         last' <= head /\
         In (EvFetch fromBlock last') evs /\
         In (EvSave ds) evs /\
         t' = fold_left (fun t d => upsert d t) ds t /\
         seconds = (if bool_decide (last' = head) then 60 else 5))).
Proof.
  unfold exporterIteration.
  destruct (db_Get w) as [[e |] w1] eqn:HG.
  { intros [= <- <- <- <-]. exists 5. split; [reflexivity | left; auto]. }
  destruct (HeaderByNumber w1) as [[head [e |]] w2] eqn:HH.
  { intros [= <- <- <- <-]. exists 5. split; [reflexivity | left; auto]. }
  pose proof (scanRange_to_le (max_block_number t) lastFetchedBlock
                (Eth1DepositContractFirstBlock cfg) head) as Hle.
  destruct (scanRange (max_block_number t) lastFetchedBlock
              (Eth1DepositContractFirstBlock cfg) head) as [fromBlock toBlock].
  simpl in Hle.
  destruct (fetchEth1Deposits cfg fromBlock toBlock w2) as [[[ds err] | why] w3];
    [| discriminate].
  match goal with
  | |- _ -> ?C =>
      assert (Tail : forall (r : run (list Eth1Deposit * option error)) (w4 : W) (to : Z)
                            (evs0 : list Event),
                 to <= head -> In (EvFetch fromBlock to) evs0 ->
                 match r with
                 | Panics why => (Panics why, w4, t)
                 | Returns (_, Some _) =>
                     (Returns (lastFetchedBlock, evs0 ++ [EvSleep 5]), w4, t)
                 | Returns (depositsToSave, None) =>
                     let '(err, w, t) := saveEth1Deposits depositsToSave w4 t in
                     match err with
                     | Some _ =>
                         (Returns (lastFetchedBlock,
                                   evs0 ++ [EvSave depositsToSave; EvSleep 5]), w, t)
                     | None =>
                         if bool_decide (head <> to)
                         then (Returns (to, evs0 ++ [EvSave depositsToSave; EvSleep 5]), w, t)
                         else (Returns (to, evs0 ++ [EvSave depositsToSave; EvSleep 60]), w, t)
                     end
                 end = (Returns (last', evs), w', t') -> C)
  end.
  { intros r w4 to evs0 Hto Hev.
    destruct r as [[ds' [e |]] | why]; [| | discriminate].
    { intros [= <- <- <- <-]. exists 5. split; [apply last_snoc | left; auto]. }
    destruct (saveEth1Deposits ds' w4 t) as [[[e |] w5] t5] eqn:HS;
      apply saveEth1Deposits_table in HS.
    { intros [= <- <- <- <-]. exists 5.
      split; [| left; auto].
      change [EvSave ds'; EvSleep 5] with ([EvSave ds'] ++ [EvSleep 5]).
      rewrite app_assoc. apply last_snoc. }
    destruct (decide (head = to)) as [Heq | Hne].
    - rewrite bool_decide_eq_false_2 by (intros Hc; exact (Hc Heq)).
      intros [= <- <- <- <-]. exists 60. split.
      { change [EvSave ds'; EvSleep 60] with ([EvSave ds'] ++ [EvSleep 60]).
        rewrite app_assoc. apply last_snoc. }
      right. exists w1, w2, head, fromBlock, ds'.
      rewrite bool_decide_eq_true_2 by congruence.
      repeat split; auto.
      + apply in_or_app. left. exact Hev.
      + apply in_or_app. right. left. reflexivity.
    - rewrite bool_decide_eq_true_2 by exact Hne.
      intros [= <- <- <- <-]. exists 5. split.
      { change [EvSave ds'; EvSleep 5] with ([EvSave ds'] ++ [EvSleep 5]).
        rewrite app_assoc. apply last_snoc. }
      right. exists w1, w2, head, fromBlock, ds'.
      rewrite bool_decide_eq_false_2 by congruence.
      repeat split; auto.
      + apply in_or_app. left. exact Hev.
      + apply in_or_app. right. left. reflexivity. }
  destruct err as [e |].
  - destruct (tooMuchResults e).
    + cbv zeta.
      set (to' := if u64 (fromBlock + 100) >? head then head else u64 (fromBlock + 100)).
      assert (Hto' : to' <= head).
      { unfold to'. rewrite Z.gtb_ltb.
        destruct (Z.ltb_spec head (u64 (fromBlock + 100))); lia. }
      destruct (fetchEth1Deposits cfg fromBlock to' w3) as [r w4].
      intros H.
      exact (Tail r w4 to' [EvFetch fromBlock toBlock; EvFetch fromBlock to'] Hto'
               (or_intror (or_introl eq_refl)) H).
    + intros H.
      exact (Tail (Returns (ds, Some e)) w3 toBlock [EvFetch fromBlock toBlock] Hle
               (or_introl eq_refl) H).
  - intros H.
    exact (Tail (Returns (ds, None)) w3 toBlock [EvFetch fromBlock toBlock] Hle
             (or_introl eq_refl) H).
Qed.

End IterationProgress.

Lemma iteration_progress_witness :
  exists seconds : Z,
    list.last [EvFetch 501 1501; EvFetch 501 601; EvSleep 5] = Some (EvSleep seconds) /\
    ((500 = 500 /\ (∅ : Table) = ∅ /\ seconds = 5) \/
     (exists (w1 w2 : Script) (head fromBlock : Z) (ds : list Eth1Deposit),
         db_Get overloadedNode = (None, w1) /\
         HeaderByNumber w1 = ((head, None), w2) /\
         500 <= head /\
         In (EvFetch fromBlock 500) [EvFetch 501 1501; EvFetch 501 601; EvSleep 5] /\
         In (EvSave ds) [EvFetch 501 1501; EvFetch 501 601; EvSleep 5] /\
         (∅ : Table) = fold_left (fun t d => upsert d t) ds ∅ /\
         seconds = (if bool_decide (500 = head) then 60 else 5))).
Proof.
  apply (iteration_progress (lib := scriptedLib) scriptedConfig 500 overloadedNode ∅
           500 _ (healthyNode []) ∅).
  vm_compute. reflexivity.
Defined.


(** * Further properties of the Prysm client *)

(** ** The two maps of [GetEpochAssignments] *)

Section AssignmentMaps.
Context {lib : PrysmLib}.

Lemma proposer_fold_lookup (v : Z) (slots : list Z) : forall (m : gmap Z Z) (k x : Z),
  fold_left (fun m slot => <[slot := v]> m) slots m !! k = Some x ->
  (In k slots /\ x = v) \/ m !! k = Some x.
Proof.
  induction slots as [| s slots IH]; intros m k x H; simpl in H; [auto |].
  apply IH in H as [[Hin ->] | H]; [left; split; [right; exact Hin | reflexivity] |].
  destruct (decide (s = k)) as [-> | Hne].
  - rewrite lookup_insert_eq in H. injection H as <-. left. split; [left |]; reflexivity.
  - rewrite lookup_insert_ne in H by exact Hne. auto.
Qed.

Lemma proposer_fold_in (v : Z) (slots : list Z) : forall (m : gmap Z Z) (k : Z),
  In k slots \/ is_Some (m !! k) ->
  is_Some (fold_left (fun m slot => <[slot := v]> m) slots m !! k).
Proof.
  induction slots as [| s slots IH]; intros m k H; simpl.
  - destruct H as [[] | H]. exact H.
  - apply IH. destruct H as [[-> | Hin] | H]; [| auto |].
    + right. rewrite lookup_insert_eq. eauto.
    + right. destruct (decide (s = k)) as [-> | Hne].
      * rewrite lookup_insert_eq. eauto.
      * rewrite lookup_insert_ne by exact Hne. exact H.
Qed.

Lemma addMembers_lookup (s c : Z) (members : list Z) :
  forall (i : Z) (m : gmap string Z) (k : string) (x : Z),
    addMembers s c i members m !! k = Some x ->
    (exists j : nat, members !! j = Some x /\
                     k = FormatAttestorAssignmentKey s c (i + Z.of_nat j)) \/
    m !! k = Some x.
Proof.
  induction members as [| v members IH]; intros i m k x H; simpl in H; [auto |].
  apply IH in H as [(j & Hj & ->) | H].
  - left. exists (S j). split; [exact Hj |]. f_equal. lia.
  - destruct (decide (FormatAttestorAssignmentKey s c i = k)) as [<- | Hne].
    + rewrite lookup_insert_eq in H. injection H as <-. left. exists 0%nat.
      split; [reflexivity |]. f_equal. lia.
    + rewrite lookup_insert_ne in H by exact Hne. auto.
Qed.

Lemma addMembers_in (s c : Z) (members : list Z) :
  forall (i : Z) (m : gmap string Z) (k : string),
    (exists j : nat, (j < length members)%nat /\
                     k = FormatAttestorAssignmentKey s c (i + Z.of_nat j)) \/
    is_Some (m !! k) ->
    is_Some (addMembers s c i members m !! k).
Proof.
  induction members as [| v members IH]; intros i m k H; simpl.
  - destruct H as [(j & Hj & _) | H]; [simpl in Hj; lia | exact H].
  - apply IH. destruct H as [([| j] & Hj & ->) | H].
    + right. replace (i + Z.of_nat 0) with i by lia. rewrite lookup_insert_eq. eauto.
    + left. exists j. simpl in Hj. split; [lia |]. f_equal. lia.
    + right. destruct (decide (FormatAttestorAssignmentKey s c i = k)) as [<- | Hne].
      * rewrite lookup_insert_eq. eauto.
      * rewrite lookup_insert_ne by exact Hne. exact H.
Qed.

Lemma fold_addAssignment_lookup (l : list CommitteeAssignment) :
  forall acc : EpochAssignments,
    (forall slot v,
        ProposerAssignments (fold_left addAssignment l acc) !! slot = Some v ->
        (exists a, In a l /\ In slot (ProposerSlots a) /\ v = CA_ValidatorIndex a) \/
        ProposerAssignments acc !! slot = Some v) /\
    (forall k v,
        AttestorAssignments (fold_left addAssignment l acc) !! k = Some v ->
        (exists a (j : nat),
            In a l /\ BeaconCommittees a !! j = Some v /\
            k = FormatAttestorAssignmentKey (AttesterSlot a) (CA_CommitteeIndex a)
                  (Z.of_nat j)) \/
        AttestorAssignments acc !! k = Some v).
Proof.
  induction l as [| a l IH]; intros acc; simpl; [auto |].
  destruct (IH (addAssignment acc a)) as [IP IA]. split.
  - intros slot v H. apply IP in H as [(a' & Hin & H) | H].
    + left. exists a'. split; [right; exact Hin | exact H].
    + simpl in H. apply proposer_fold_lookup in H as [[Hin ->] | H]; [| auto].
      left. exists a. auto.
  - intros k v H. apply IA in H as [(a' & j & Hin & H) | H].
    + left. exists a', j. split; [right; exact Hin | exact H].
    + simpl in H. apply addMembers_lookup in H as [(j & Hj & ->) | H]; [| auto].
      left. exists a, j. auto.
Qed.

Lemma fold_addAssignment_in (l : list CommitteeAssignment) :
  forall acc : EpochAssignments,
    (forall slot,
        (exists a, In a l /\ In slot (ProposerSlots a)) \/
        is_Some (ProposerAssignments acc !! slot) ->
        is_Some (ProposerAssignments (fold_left addAssignment l acc) !! slot)) /\
    (forall k,
        (exists a (j : nat),
            In a l /\ (j < length (BeaconCommittees a))%nat /\
            k = FormatAttestorAssignmentKey (AttesterSlot a) (CA_CommitteeIndex a)
                  (Z.of_nat j)) \/
        is_Some (AttestorAssignments acc !! k) ->
        is_Some (AttestorAssignments (fold_left addAssignment l acc) !! k)).
Proof.
  induction l as [| a l IH]; intros acc; simpl.
  - split.
    + intros slot [(a & [] & _) | H]. exact H.
    + intros k [(a & j & [] & _) | H]. exact H.
  - destruct (IH (addAssignment acc a)) as [IP IA]. split.
    + intros slot H. apply IP. destruct H as [(a' & [<- | Hin] & Hs) | H].
      * right. simpl. apply proposer_fold_in. auto.
      * left. eauto.
      * right. simpl. apply proposer_fold_in. auto.
    + intros k H. apply IA. destruct H as [(a' & j & [<- | Hin] & Hj & ->) | H].
      * right. simpl. apply addMembers_in. left. exists j. split; [exact Hj |].
        f_equal.
      * left. eauto.
      * right. simpl. apply addMembers_in. auto.
Qed.

Lemma buildAssignments_lookup_aux (l : list CommitteeAssignment) :
  (forall slot v,
      ProposerAssignments (buildAssignments l) !! slot = Some v ->
      exists a, In a l /\ In slot (ProposerSlots a) /\ v = CA_ValidatorIndex a) /\
  (forall a slot,
      In a l -> In slot (ProposerSlots a) ->
      is_Some (ProposerAssignments (buildAssignments l) !! slot)) /\
  (forall k v,
      AttestorAssignments (buildAssignments l) !! k = Some v ->
      exists a (j : nat),
        In a l /\ BeaconCommittees a !! j = Some v /\
        k = FormatAttestorAssignmentKey (AttesterSlot a) (CA_CommitteeIndex a)
              (Z.of_nat j)) /\
  (forall a (j : nat),
      In a l -> (j < length (BeaconCommittees a))%nat ->
      is_Some (AttestorAssignments (buildAssignments l)
               !! FormatAttestorAssignmentKey (AttesterSlot a) (CA_CommitteeIndex a)
                    (Z.of_nat j))).
Proof.
  unfold buildAssignments.
  destruct (fold_addAssignment_lookup l (mkEpochAssignments ∅ ∅)) as [LP LA].
  destruct (fold_addAssignment_in l (mkEpochAssignments ∅ ∅)) as [IP IA].
  split; [| split; [| split]].
  - intros slot v H. apply LP in H as [H | H]; [exact H |].
    simpl in H. rewrite lookup_empty in H. discriminate.
  - intros a slot Ha Hs. apply IP. left. eauto.
  - intros k v H. apply LA in H as [H | H]; [exact H |].
    simpl in H. rewrite lookup_empty in H. discriminate.
  - intros a j Ha Hj. apply IA. left. eauto.
Qed.

(** The two maps that [GetEpochAssignments] computes from the assignments
    of the node hold nothing but what the node sent: a proposer slot maps to
    the validator of an assignment that lists the slot, and an attester key
    to the member of a committee at the position of the key; and every
    proposer slot and every committee position sent has an entry. *)
Theorem buildAssignments_lookup (l : list CommitteeAssignment) :
  (forall slot v,
      ProposerAssignments (buildAssignments l) !! slot = Some v ->
      exists a, In a l /\ In slot (ProposerSlots a) /\ v = CA_ValidatorIndex a) /\
  (forall a slot,
      In a l -> In slot (ProposerSlots a) ->
      is_Some (ProposerAssignments (buildAssignments l) !! slot)) /\
  (forall k v,
      AttestorAssignments (buildAssignments l) !! k = Some v ->
      exists a (j : nat),
        In a l /\ BeaconCommittees a !! j = Some v /\
        k = FormatAttestorAssignmentKey (AttesterSlot a) (CA_CommitteeIndex a)
              (Z.of_nat j)) /\
  (forall a (j : nat),
      In a l -> (j < length (BeaconCommittees a))%nat ->
      is_Some (AttestorAssignments (buildAssignments l)
               !! FormatAttestorAssignmentKey (AttesterSlot a) (CA_CommitteeIndex a)
                    (Z.of_nat j))).
Proof. exact (buildAssignments_lookup_aux l). Qed.

Lemma gmap_nonempty_lookup {K : Type} `{Countable K} {A : Type} (m : gmap K A) :
  m <> ∅ <-> exists k, is_Some (m !! k).
Proof.
  split.
  - intros Hne. destruct (map_choose m Hne) as (k & x & Hk). exists k. eauto.
  - intros (k & x & Hk) ->. rewrite lookup_empty in Hk. discriminate.
Qed.

(** The assignments pass the guard before the cache exactly when the node
    sent at least one proposer slot and at least one committee member. *)
Theorem assignments_cached_iff (l : list CommitteeAssignment) :
  bothNonEmpty (buildAssignments l) = true <->
  (exists a, In a l /\ ProposerSlots a <> []) /\
  (exists a, In a l /\ BeaconCommittees a <> []).
Proof.
  rewrite bothNonEmpty_spec.
  destruct (buildAssignments_lookup_aux l) as (P1 & P2 & A1 & A2).
  rewrite !gmap_nonempty_lookup. split.
  - intros [(k & v & Hk) (slot & v' & Hs)]. split.
    + apply P1 in Hs as (a & Ha & Hin & _). exists a. split; [exact Ha |].
      intros E. rewrite E in Hin. exact Hin.
    + apply A1 in Hk as (a & j & Ha & Hj & _). exists a. split; [exact Ha |].
      intros E. rewrite E in Hj. discriminate.
  - intros [(a & Ha & Hp) (a' & Ha' & Hc)]. split.
    + destruct (BeaconCommittees a') as [| v vs] eqn:E; [contradiction |].
      eexists. apply (A2 a' 0%nat Ha'). rewrite E. simpl. lia.
    + destruct (ProposerSlots a) as [| s ss] eqn:E; [contradiction |].
      exists s. apply (P2 a s Ha). rewrite E. left. reflexivity.
Qed.

End AssignmentMaps.


(** ** The size of the cache and a repeated call *)

Lemma lru_find_None {V : Type} (key : Z) (es : list (Z * V)) :
  lru.find key es = None <-> ~ In key (map fst es).
Proof.
  induction es as [| [k x] es IH]; simpl; [tauto |].
  destruct (Z.eqb_spec k key) as [-> | Hne].
  - split; [discriminate | intros H; exfalso; apply H; left; reflexivity].
  - rewrite IH. tauto.
Qed.

Lemma lru_remove_keys {V : Type} (key : Z) (es : list (Z * V)) (k : Z) :
  In k (map fst (lru.remove key es)) -> In k (map fst es).
Proof.
  induction es as [| [k0 y] es IH]; simpl; [auto |].
  destruct (k0 =? key); simpl; intuition.
Qed.

Lemma lru_remove_NoDup {V : Type} (key : Z) (es : list (Z * V)) :
  List.NoDup (map fst es) ->
  List.NoDup (map fst (lru.remove key es)) /\ ~ In key (map fst (lru.remove key es)).
Proof.
  induction es as [| [k y] es IH]; simpl; intros H.
  - split; [constructor | tauto].
  - inversion H as [| ? ? Hnin Hnd]; subst.
    destruct (Z.eqb_spec k key) as [-> | Hne].
    + split; assumption.
    + destruct (IH Hnd) as [I1 I2]. simpl. split.
      * constructor; [| exact I1]. intros Hin. apply Hnin. eapply lru_remove_keys. exact Hin.
      * intros [E | Hin]; [exact (Hne E) | exact (I2 Hin)].
Qed.

Lemma lru_remove_length {V : Type} (key : Z) (es : list (Z * V)) (v : V) :
  lru.find key es = Some v -> S (length (lru.remove key es)) = length es.
Proof.
  induction es as [| [k y] es IH]; simpl; [discriminate |].
  destruct (k =? key); [reflexivity |]. intros H. simpl. rewrite (IH H). reflexivity.
Qed.

Lemma NoDup_removelast {A : Type} (l : list A) : List.NoDup l -> List.NoDup (removelast l).
Proof.
  induction l as [| a l IH]; [auto |]. intros H. inversion H as [| ? ? Hnin Hnd]; subst.
  destruct l as [| b l]; [constructor |].
  change (removelast (a :: b :: l)) with (a :: removelast (b :: l)).
  constructor; [| apply IH; exact Hnd].
  intros Hin. apply Hnin. apply In_removelast. exact Hin.
Qed.

Lemma map_removelast {A B : Type} (f : A -> B) (l : list A) :
  map f (removelast l) = removelast (map f l).
Proof.
  induction l as [| a l IH]; [reflexivity |].
  destruct l as [| b l]; [reflexivity |].
  simpl in *. f_equal. exact IH.
Qed.

Lemma length_removelast {A : Type} (l : list A) : length (removelast l) = pred (length l).
Proof.
  induction l as [| a l IH]; [reflexivity |].
  destruct l as [| b l]; [reflexivity |].
  simpl in *. f_equal. exact IH.
Qed.

Lemma cacheBounded_touch {V : Type} (key : Z) (v v' : V) (c : lru.Cache V) :
  cacheBounded c -> lru.find key (lru.entries c) = Some v ->
  cacheBounded (lru.mkCache (lru.size c) ((key, v') :: lru.remove key (lru.entries c))).
Proof.
  intros (H1 & H2 & H3) E. unfold cacheBounded. cbn [lru.size lru.entries].
  pose proof (lru_remove_length _ _ _ E) as HL.
  destruct (lru_remove_NoDup key _ H3) as [N1 N2].
  split; [exact H1 |]. split; [simpl; lia |]. simpl. constructor; assumption.
Qed.

Lemma cacheBounded_Get {V : Type} (key : Z) (c : lru.Cache V) :
  cacheBounded c -> cacheBounded (snd (lru.Get key c)).
Proof.
  intros H. unfold lru.Get.
  destruct (lru.find key (lru.entries c)) as [v |] eqn:E; simpl; [| exact H].
  eapply cacheBounded_touch; eassumption.
Qed.

Lemma cacheBounded_Add {V : Type} (key : Z) (v : V) (c : lru.Cache V) :
  cacheBounded c -> cacheBounded (lru.Add key v c).
Proof.
  intros H. unfold lru.Add.
  destruct (lru.find key (lru.entries c)) as [v0 |] eqn:E.
  - eapply cacheBounded_touch; eassumption.
  - destruct H as (H1 & H2 & H3). apply lru_find_None in E. cbv zeta.
    assert (ND : List.NoDup (map fst ((key, v) :: lru.entries c)))
      by (simpl; constructor; assumption).
    destruct (Nat.ltb_spec (lru.size c) (length ((key, v) :: lru.entries c))) as [Hlt | Hge];
      unfold cacheBounded; cbn [lru.size lru.entries].
    + split; [exact H1 |]. split.
      * rewrite length_removelast. simpl. lia.
      * rewrite map_removelast. apply NoDup_removelast. exact ND.
    + split; [exact H1 |]. split; [exact Hge | exact ND].
Qed.

Lemma lru_size_Get {V : Type} (key : Z) (c : lru.Cache V) :
  lru.size (snd (lru.Get key c)) = lru.size c.
Proof. unfold lru.Get. destruct (lru.find key (lru.entries c)); reflexivity. Qed.

Lemma lru_size_Add {V : Type} (key : Z) (v : V) (c : lru.Cache V) :
  lru.size (lru.Add key v c) = lru.size c.
Proof.
  unfold lru.Add. destruct (lru.find key (lru.entries c)); [reflexivity |].
  cbv zeta. destruct (lru.size c <? length ((key, v) :: lru.entries c))%nat; reflexivity.
Qed.

(** After [Add] the key is found with the value added. *)
Lemma lru_find_Add {V : Type} (key : Z) (v : V) (c : lru.Cache V) :
  (1 <= lru.size c)%nat -> lru.find key (lru.entries (lru.Add key v c)) = Some v.
Proof.
  intros H1. unfold lru.Add.
  destruct (lru.find key (lru.entries c)) as [v0 |].
  - simpl. rewrite Z.eqb_refl. reflexivity.
  - cbv zeta.
    destruct (Nat.ltb_spec (lru.size c) (length ((key, v) :: lru.entries c))) as [Hlt | Hge];
      cbn [lru.entries].
    + destruct (lru.entries c) as [| x es]; [simpl in Hlt; lia |].
      change (removelast ((key, v) :: x :: es)) with ((key, v) :: removelast (x :: es)).
      simpl. rewrite Z.eqb_refl. reflexivity.
    + simpl. rewrite Z.eqb_refl. reflexivity.
Qed.

Section CacheMore.
Context {lib : PrysmLib} {N : Type} {client : BeaconChainClient N} (cfg : Config).

Lemma GetEpochAssignments_cache (fuel : nat) (epoch : Z) (pc : PrysmClient N)
    (r : outcome EpochAssignments) (pc' : PrysmClient N) :
  GetEpochAssignments cfg fuel epoch pc = Some (r, pc') ->
  assignmentsCache pc' = snd (lru.Get epoch (assignmentsCache pc)) \/
  exists a, assignmentsCache pc' = lru.Add epoch a (snd (lru.Get epoch (assignmentsCache pc))).
Proof.
  unfold GetEpochAssignments.
  destruct (lru.Get epoch (assignmentsCache pc)) as [[v |] cache]; simpl.
  - intros [= _ <-]. left. reflexivity.
  - destruct (listValidatorAssignments cfg fuel
                (if epoch =? 0 then Filter_Genesis true else Filter_Epoch epoch) ""
                [] (node pc)) as [[[vs [e |]] n] |]; try discriminate.
    + intros [= _ <-]. left. reflexivity.
    + intros [= _ <-]. simpl. destruct (bothNonEmpty (buildAssignments vs)); eauto.
Qed.

Lemma reachable_cacheBounded (pc : PrysmClient N) :
  reachable cfg pc ->
  lru.size (assignmentsCache pc) = 10%nat /\ cacheBounded (assignmentsCache pc).
Proof.
  induction 1 as [n | pc n _ IH | pc fuel epoch r pc' _ [IS IB] H].
  - split; [reflexivity |]. unfold cacheBounded. simpl. repeat split; try lia. constructor.
  - exact IH.
  - apply GetEpochAssignments_cache in H as [-> | [a ->]].
    + rewrite lru_size_Get. split; [exact IS | apply cacheBounded_Get; exact IB].
    + rewrite lru_size_Add, lru_size_Get.
      split; [exact IS | apply cacheBounded_Add, cacheBounded_Get; exact IB].
Qed.

(** In every state a client reaches from [NewPrysmClient] its cache holds
    the assignments of at most ten epochs, each epoch once. *)
Theorem cache_holds_ten_epochs (pc : PrysmClient N) :
  reachable cfg pc ->
  (length (lru.entries (assignmentsCache pc)) <= 10)%nat /\
  List.NoDup (map fst (lru.entries (assignmentsCache pc))).
Proof.
  intros H. apply reachable_cacheBounded in H as (HS & _ & HL & HN).
  rewrite HS in HL. split; assumption.
Qed.

(** A call that returned assignments with both maps non-empty has left them
    in the cache: the next call for the epoch returns them whatever the node
    would answer, without asking it.  A call that returned assignments with
    an empty map has left the cache as it was, without the epoch: the next
    call for the epoch asks the node again. *)
Theorem repeated_call (fuel : nat) (epoch : Z) (pc : PrysmClient N)
    (a : EpochAssignments) (pc' : PrysmClient N) :
  reachable cfg pc ->
  GetEpochAssignments cfg fuel epoch pc = Some (Ok a, pc') ->
  (bothNonEmpty a = true ->
   forall fuel' : nat,
   exists cache, GetEpochAssignments cfg fuel' epoch pc'
                 = Some (Ok a, mkPrysmClient cache (node pc'))) /\
  (bothNonEmpty a = false ->
   assignmentsCache pc' = assignmentsCache pc /\
   forall fuel' : nat,
     GetEpochAssignments cfg fuel' epoch pc'
     = match listValidatorAssignments cfg fuel' (filterOf epoch) "" [] (node pc') with
       | None => None
       | Some ((_, Some e), n) => Some (Err e, mkPrysmClient (assignmentsCache pc') n)
       | Some ((vs, None), n) =>
           Some (Ok (buildAssignments vs),
                 mkPrysmClient
                   (if bothNonEmpty (buildAssignments vs)
                    then lru.Add epoch (buildAssignments vs) (assignmentsCache pc')
                    else assignmentsCache pc') n)
       end).
Proof.
  intros HR H.
  pose proof (reachable_cacheNonEmpty cfg pc HR) as HNE.
  pose proof (reachable_cacheBounded pc HR) as (_ & H1 & _).
  destruct (lru.find epoch (lru.entries (assignmentsCache pc))) as [v |] eqn:E.
  - rewrite (GetEpochAssignments_hit cfg _ _ _ _ E) in H. injection H as <- <-.
    assert (Hv : bothNonEmpty v = true).
    { rewrite cacheNonEmpty_In in HNE. apply lru_find_In in E. eauto. }
    split; [| congruence].
    intros _ fuel'. eexists. apply GetEpochAssignments_hit.
    unfold lru.Get. rewrite E. simpl. rewrite Z.eqb_refl. reflexivity.
  - rewrite (GetEpochAssignments_miss cfg _ _ _ E) in H.
    destruct (listValidatorAssignments cfg fuel (filterOf epoch) "" [] (node pc))
      as [[[vs [e |]] n] |]; try discriminate.
    injection H as <- <-. split; intros B; rewrite B; cbn [assignmentsCache node].
    + intros fuel'. eexists. apply GetEpochAssignments_hit. cbn [assignmentsCache].
      apply lru_find_Add. exact H1.
    + split; [reflexivity |]. intros fuel'.
      apply (GetEpochAssignments_miss cfg fuel' epoch (mkPrysmClient (assignmentsCache pc) n)).
      exact E.
Qed.

End CacheMore.


(** The first call for epoch 2 of a new client whose node answers with
    [onePage]. *)
Lemma first_call_onePage :
  GetEpochAssignments (lib := scriptedPrysmLib) scriptedConfig 1 2
    (NewPrysmClient [(onePage, None)])
  = Some (Ok (buildAssignments (lib := scriptedPrysmLib) (Assignments onePage)),
          mkPrysmClient
            (lru.Add 2 (buildAssignments (lib := scriptedPrysmLib) (Assignments onePage))
               (lru.New 10)) []).
Proof. vm_compute. reflexivity. Qed.

Lemma cache_holds_ten_epochs_witness :
  exists pc' : PrysmClient (list (ValidatorAssignments * option error)),
    reachable (lib := scriptedPrysmLib) scriptedConfig pc' /\
    lru.find 2 (lru.entries (assignmentsCache pc'))
    = Some (buildAssignments (lib := scriptedPrysmLib) (Assignments onePage)) /\
    (length (lru.entries (assignmentsCache pc')) <= 10)%nat /\
    List.NoDup (map fst (lru.entries (assignmentsCache pc'))).
Proof.
  eexists. 
  assert (HR : reachable (lib := scriptedPrysmLib) scriptedConfig
                 (mkPrysmClient
                    (lru.Add 2 (buildAssignments (lib := scriptedPrysmLib)
                                  (Assignments onePage)) (lru.New 10)) [])).
  { eapply reachable_get; [apply (reachable_new scriptedConfig [(onePage, None)]) |].
    exact first_call_onePage. }
  split; [exact HR |]. split; [reflexivity |].
  exact (cache_holds_ten_epochs scriptedConfig _ HR).
Defined.

Lemma repeated_call_witness :
  exists cache,
    GetEpochAssignments (lib := scriptedPrysmLib) scriptedConfig 0 2
      (mkPrysmClient
         (lru.Add 2 (buildAssignments (lib := scriptedPrysmLib) (Assignments onePage))
            (lru.New 10)) [])
    = Some (Ok (buildAssignments (lib := scriptedPrysmLib) (Assignments onePage)),
            mkPrysmClient cache []).
Proof.
  destruct (repeated_call (lib := scriptedPrysmLib) scriptedConfig 1 2
              (NewPrysmClient [(onePage, None)]) _ _
              (reachable_new scriptedConfig [(onePage, None)]) first_call_onePage)
    as [H _].
  apply (H ltac:(vm_compute; reflexivity) 0%nat).
Defined.


(** ** The transactions and the base fee of a payload *)

Section TransactionFacts.
Context {lib : PrysmLib}.

Lemma parseTransactions_Ok (blockHash : bytes) (rawTxs : list bytes) :
  forall (i : Z) (acc txs : list CanonTransaction),
    parseTransactions blockHash i rawTxs acc = Ok txs ->
    exists new, txs = acc ++ new /\ Forall2 decodedFrom rawTxs new.
Proof.
  induction rawTxs as [| rawTx rest IH]; intros i acc txs H; simpl in H.
  - injection H as <-. exists []. rewrite app_nil_r. split; [reflexivity | constructor].
  - destruct (UnmarshalBinary rawTx) as [decTx [e |]] eqn:EU; [discriminate |].
    destruct (signer_Sender decTx) as [sender [e |]] eqn:ES; [discriminate |].
    apply IH in H as (new & -> & HF). eexists (_ :: new). split.
    + rewrite <- app_assoc. reflexivity.
    + constructor; [| exact HF]. exists decTx. simpl.
      repeat split; try assumption; destruct (dtx_To decTx); reflexivity.
Qed.

Lemma parseTransactions_Err (blockHash : bytes) (rawTxs : list bytes) :
  forall (i : Z) (acc : list CanonTransaction) (e : error),
    parseTransactions blockHash i rawTxs acc = Err e ->
    exists (j : nat) (rawTx : bytes) (before : list CanonTransaction),
      rawTxs !! j = Some rawTx /\
      Forall2 decodedFrom (take j rawTxs) before /\
      undecodable blockHash (i + Z.of_nat j) rawTx e.
Proof.
  induction rawTxs as [| rawTx rest IH]; intros i acc e H; simpl in H; [discriminate |].
  destruct (UnmarshalBinary rawTx) as [decTx [e0 |]] eqn:EU.
  { injection H as <-. exists 0%nat, rawTx, []. split; [reflexivity |].
    split; [constructor |]. exists decTx. left. exists e0.
    replace (i + Z.of_nat 0) with i by lia. auto. }
  destruct (signer_Sender decTx) as [sender [e0 |]] eqn:ES.
  { injection H as <-. exists 0%nat, rawTx, []. split; [reflexivity |].
    split; [constructor |]. exists decTx. right. exists sender, e0. auto. }
  apply IH in H as (j & raw & before & Hj & HB & HU).
  exists (S j), raw.
  exists (mkCanonTransaction rawTx (dtx_Hash decTx) (dtx_Nonce decTx)
            (bigInt_Bytes (dtx_GasPrice decTx)) (dtx_Gas decTx) sender
            (default [] (dtx_To decTx)) (bigInt_Bytes (dtx_Value decTx)) (dtx_Data decTx)
            (bigInt_Uint64 (dtx_GasTipCap decTx)) (bigInt_Uint64 (dtx_GasFeeCap decTx))
          :: before).
  split; [exact Hj |]. split.
  - simpl. constructor; [| exact HB]. exists decTx. simpl. auto.
  - replace (i + Z.of_nat (S j)) with (i + 1 + Z.of_nat j) by lia. exact HU.
Qed.

Lemma parseTransactions_no_panic (blockHash : bytes) (rawTxs : list bytes) :
  forall (i : Z) (acc : list CanonTransaction) (why : string),
    parseTransactions blockHash i rawTxs acc <> Panic why.
Proof.
  induction rawTxs as [| rawTx rest IH]; intros i acc why; simpl; [discriminate |].
  destruct (UnmarshalBinary rawTx) as [decTx [e0 |]]; [discriminate |].
  destruct (signer_Sender decTx) as [sender [e0 |]]; [discriminate |]. apply IH.
Qed.

(** The transactions of a payload that a Bellatrix or Capella parser
    returns are the raw transactions of the wire payload decoded, one for
    one and in their order.  When the parser of the payload returns an
    error, some raw transaction does not decode or has no recoverable
    sender: all those before it decode, and the error is the one for its
    position. *)
Theorem payload_transactions (slot : Z) (blockRoot : bytes)
    (payload : WireExecutionPayload) :
  hasPayload (Some payload) = Some payload ->
  (forall ep,
      parseBellatrixPayload (Some payload) = Ok (Some ep) \/
      parseCapellaPayload slot blockRoot (Some payload) = Ok (Some ep) ->
      Forall2 decodedFrom (WP_Transactions payload) (EP_Transactions ep)) /\
  (forall e,
      parseBellatrixPayload (Some payload) = Err e \/
      parseCapellaPayload slot blockRoot (Some payload) = Err e ->
      exists (j : nat) (rawTx : bytes) (before : list CanonTransaction),
        WP_Transactions payload !! j = Some rawTx /\
        Forall2 decodedFrom (take j (WP_Transactions payload)) before /\
        undecodable (WP_BlockHash payload) (Z.of_nat j) rawTx e).
Proof.
  intros HP. unfold parseBellatrixPayload, parseCapellaPayload. rewrite HP.
  destruct (parseTransactions (WP_BlockHash payload) 0 (WP_Transactions payload) [])
    as [txs | e0 | why] eqn:ET.
  - apply parseTransactions_Ok in ET as (new & -> & HF). simpl. split.
    + unfold executionPayloadOf.
      destruct (LittleEndian_Uint64 (WP_BaseFeePerGas payload));
        intros ep [H | H]; try discriminate; injection H as <-; exact HF.
    + unfold executionPayloadOf.
      destruct (LittleEndian_Uint64 (WP_BaseFeePerGas payload));
        intros e [H | H]; discriminate.
  - split; [intros ep [H | H]; discriminate |].
    intros e He. assert (e = e0) as -> by (destruct He as [H | H]; congruence).
    apply parseTransactions_Err in ET as (j & raw & before & H). exists j, raw, before.
    exact H.
  - exfalso. exact (parseTransactions_no_panic _ _ _ _ _ ET).
Qed.

Lemma byte_bound (x : byte) : 0 <= Z.of_N (Byte.to_N x) < 2 ^ 8.
Proof. pose proof (Byte.to_N_bounded x). change (2 ^ 8) with 256. lia. Qed.

Lemma LittleEndian_Uint64_le_value (b : bytes) :
  LittleEndian_Uint64 b
  = if (length b <? 8)%nat then None else Some (le_value b mod 2 ^ 64).
Proof.
  destruct b as [| b0 [| b1 [| b2 [| b3 [| b4 [| b5 [| b6 [| b7 rest]]]]]]]];
    try reflexivity.
  match goal with
  | |- context [(?n <? 8)%nat] =>
      destruct (Nat.ltb_spec n 8) as [Hlt | _]; [simpl in Hlt; lia |]
  end.
  cbn [LittleEndian_Uint64 le_value]. f_equal.
  pose proof (byte_bound b0). pose proof (byte_bound b1). pose proof (byte_bound b2).
  pose proof (byte_bound b3). pose proof (byte_bound b4). pose proof (byte_bound b5).
  pose proof (byte_bound b6). pose proof (byte_bound b7).
  generalize dependent (le_value rest). intros r.
  generalize dependent (Z.of_N (Byte.to_N b0)). intros z0.
  generalize dependent (Z.of_N (Byte.to_N b1)). intros z1.
  generalize dependent (Z.of_N (Byte.to_N b2)). intros z2.
  generalize dependent (Z.of_N (Byte.to_N b3)). intros z3.
  generalize dependent (Z.of_N (Byte.to_N b4)). intros z4.
  generalize dependent (Z.of_N (Byte.to_N b5)). intros z5.
  generalize dependent (Z.of_N (Byte.to_N b6)). intros z6.
  generalize dependent (Z.of_N (Byte.to_N b7)). intros z7.
  intros H7 H6 H5 H4 H3 H2 H1 H0.
  change (2 ^ 8) with 256 in *. change (2 ^ 16) with 65536.
  change (2 ^ 24) with 16777216. change (2 ^ 32) with 4294967296.
  change (2 ^ 40) with 1099511627776. change (2 ^ 48) with 281474976710656.
  change (2 ^ 56) with 72057594037927936. change (2 ^ 64) with 18446744073709551616.
  apply Z.mod_unique with (q := r); lia.
Qed.

(** The base fee of a parsed payload is the little-endian number of the
    wire payload's base fee reduced modulo 2^64: only its first eight bytes
    count, and a base fee of 2^64 or more comes out truncated.  A base fee of
    fewer than eight bytes makes the parser panic. *)
Theorem base_fee_truncated (payload : WireExecutionPayload) (txs : list CanonTransaction)
    (withdrawals : option (list Withdrawals)) :
  (forall ep,
      executionPayloadOf payload txs withdrawals = Ok (Some ep) ->
      EP_BaseFeePerGas ep = le_value (WP_BaseFeePerGas payload) mod 2 ^ 64) /\
  ((length (WP_BaseFeePerGas payload) < 8)%nat ->
   executionPayloadOf payload txs withdrawals = Panic "index out of range [7]").
Proof.
  unfold executionPayloadOf. rewrite LittleEndian_Uint64_le_value.
  destruct (Nat.ltb_spec (length (WP_BaseFeePerGas payload)) 8) as [Hlt | Hge]; split.
  - discriminate.
  - reflexivity.
  - intros ep [= <-]. reflexivity.
  - lia.
Qed.

End TransactionFacts.

Lemma payload_transactions_witness :
  exists (j : nat) (rawTx : bytes) (before : list CanonTransaction),
    WP_Transactions badTxPayload !! j = Some rawTx /\
    Forall2 (decodedFrom (lib := scriptedPrysmLib)) (take j (WP_Transactions badTxPayload))
      before /\
    undecodable (lib := scriptedPrysmLib) (WP_BlockHash badTxPayload) (Z.of_nat j) rawTx
      "error parsing tx 1 block ee: typed transaction too short".
Proof.
  apply (proj2 (payload_transactions (lib := scriptedPrysmLib) 200 [xcd] badTxPayload
                  eq_refl)).
  left. vm_compute. reflexivity.
Defined.

Lemma base_fee_truncated_witness :
  exists ep,
    executionPayloadOf wideFeePayload [] None = Ok (Some ep) /\
    le_value (WP_BaseFeePerGas wideFeePayload) = 2 ^ 64 + 7 /\
    EP_BaseFeePerGas ep = 7.
Proof.
  eexists. split; [reflexivity |]. split; [reflexivity |].
  rewrite (proj1 (base_fee_truncated wideFeePayload [] None) _ eq_refl).
  reflexivity.
Defined.


(** ** The client after a block is parsed, and the errors of the parser *)

Section ParserMore.
Context {lib : PrysmLib} {N : Type} {client : BeaconChainClient N} (cfg : Config).

Lemma parseAttestations_reachable (fuel : nat) (attestations : list WireAttestation) :
  forall (pc : PrysmClient N) (r : outcome (list Attestation)) (pc' : PrysmClient N),
    reachable cfg pc ->
    parseAttestations cfg fuel attestations pc = Some (r, pc') ->
    reachable cfg pc'.
Proof.
  induction attestations as [| attestation rest IH]; intros pc r pc' HR H; simpl in H.
  - injection H as _ <-. exact HR.
  - assert (HA : forall r1 pc1, parseAttestation cfg fuel attestation pc = Some (r1, pc1) ->
                                reachable cfg pc1).
    { intros r1 pc1. unfold parseAttestation.
      destruct (SlotsPerEpoch cfg =? 0); [intros [= _ <-]; exact HR |].
      destruct (GetEpochAssignments cfg fuel
                  (AD_Slot (WA_Data attestation) / SlotsPerEpoch cfg) pc)
        as [[x pc2] |] eqn:E; [| discriminate].
      assert (reachable cfg pc2) by (eapply reachable_get; eassumption).
      destruct x; intros [= _ <-]; assumption. }
    destruct (parseAttestation cfg fuel attestation pc) as [[[a | e | why] pc1] |] eqn:E;
      try discriminate.
    + specialize (HA _ _ eq_refl).
      destruct (parseAttestations cfg fuel rest pc1) as [[x pc2] |] eqn:E';
        [| discriminate].
      apply (IH pc1 x pc2 HA) in E'. destruct x; injection H as _ <-; exact E'.
    + injection H as _ <-. eapply HA. reflexivity.
    + injection H as _ <-. eapply HA. reflexivity.
Qed.

Lemma withAttestations_reachable (fuel : nat) (blk : SignedBeaconBlock) (pc : PrysmClient N)
    (k : list Attestation -> Block) (r : outcome Block) (pc' : PrysmClient N) :
  reachable cfg pc -> withAttestations cfg fuel blk pc k = Some (r, pc') -> reachable cfg pc'.
Proof.
  intros HR. unfold withAttestations.
  destruct (parseAttestations cfg fuel (SB_Attestations blk) pc) as [[x pc1] |] eqn:E;
    [| discriminate].
  apply (parseAttestations_reachable _ _ _ _ _ HR) in E.
  destruct x; intros [= _ <-]; exact E.
Qed.

(** A run of the loop over the pages that ends with an error ends with a
    call for the filter of the run that fails. *)
Lemma Paginate_failing_call filter pageToken acc (n : N) pages e n' :
  Paginate cfg filter pageToken acc n (pages, Some e) n' ->
  exists pageToken' n1 resp e0,
    ListValidatorAssignments
      (mkListValidatorAssignmentsRequest filter (PageSize cfg) pageToken') n1
    = ((resp, Some e0), n') /\
    e = "error retrieving validator assignment response for caching: " +:+ e0.
Proof.
  intros H. remember (pages, Some e) as r eqn:Hr. revert pages e Hr.
  induction H as [pageToken acc n resp e0 n' E
                 | pageToken acc n resp n' E L
                 | pageToken acc n resp n' r n'' E L _ IH]; intros pages e Hr.
  - injection Hr as _ <-. do 4 eexists. split; [exact E | reflexivity].
  - discriminate.
  - eapply IH. exact Hr.
Qed.

Lemma withAttestations_fail (fuel : nat) (blk : SignedBeaconBlock) (pc : PrysmClient N)
    (k : list Attestation -> Block) (e : error) (pc' : PrysmClient N) :
  withAttestations cfg fuel blk pc k = Some (Err e, pc') ->
  exists (pre : list WireAttestation) (attestation : WireAttestation)
         (rest : list WireAttestation) (parsed : list Attestation) (pc1 : PrysmClient N)
         (pages : list CommitteeAssignment) (pageToken : string) (n1 : N)
         (resp : ValidatorAssignments) (e0 : error),
    SB_Attestations blk = pre ++ attestation :: rest /\
    resolvedInTurn cfg fuel pre pc parsed pc1 /\
    lru.find (AD_Slot (WA_Data attestation) / SlotsPerEpoch cfg)
      (lru.entries (assignmentsCache pc1)) = None /\
    Paginate cfg (filterOf (AD_Slot (WA_Data attestation) / SlotsPerEpoch cfg)) "" []
      (node pc1)
      (pages, Some ("error retrieving validator assignment response for caching: " +:+ e0))
      (node pc') /\
    ListValidatorAssignments
      (mkListValidatorAssignmentsRequest
         (filterOf (AD_Slot (WA_Data attestation) / SlotsPerEpoch cfg)) (PageSize cfg)
         pageToken) n1
    = ((resp, Some e0), node pc') /\
    assignmentsCache pc' = assignmentsCache pc1 /\
    e = "error receiving epoch assignment for epoch "
        +:+ pretty (AD_Slot (WA_Data attestation) / SlotsPerEpoch cfg) +:+ ": "
        +:+ ("error retrieving validator assignment response for caching: " +:+ e0).
Proof.
  unfold withAttestations.
  destruct (parseAttestations cfg fuel (SB_Attestations blk) pc) as [[x pc1] |] eqn:E;
    [| discriminate].
  destruct x as [a | e1 | why]; intros [= <- <-].
  apply parseAttestations_fail in E
    as (pre & attestation & rest & parsed & pc2 & pages & e2 & Hs & HR & HF & HP & HC & ->).
  destruct (Paginate_failing_call _ _ _ _ _ _ _ HP) as (pageToken & n1 & resp & e0 & Hcall & ->).
  exists pre, attestation, rest, parsed, pc2, pages, pageToken, n1, resp, e0.
  auto 10.
Qed.

Lemma parseRpcBlock_reachable_aux (fuel : nat) (block : BeaconBlockContainer)
    (pc : PrysmClient N) (r : outcome Block) (pc' : PrysmClient N) :
  reachable cfg pc -> parseRpcBlock cfg fuel block pc = Some (r, pc') -> reachable cfg pc'.
Proof.
  intros HR.
  unfold parseRpcBlock, parsePhase0Block, parseAltairBlock, parseBellatrixBlock,
    parseCapellaBlock, GetPhase0Block, GetAltairBlock, GetBellatrixBlock, GetCapellaBlock.
  destruct (BC_Block block) as [| [blk |] | [blk |] | [blk |] | [blk |]];
    try (intros [= _ <-]; exact HR);
    try (apply withAttestations_reachable; exact HR).
  - destruct (parseBellatrixPayload (SB_ExecutionPayload blk));
      try (intros [= _ <-]; exact HR).
    apply withAttestations_reachable; exact HR.
  - destruct (parseCapellaPayload (SB_Slot blk) (BC_BlockRoot block)
                (SB_ExecutionPayload blk)); try (intros [= _ <-]; exact HR).
    apply withAttestations_reachable; exact HR.
Qed.

(** Parsing a block moves the client only by calls of
    [GetEpochAssignments]: after [parseRpcBlock], whatever it returns, the
    client is in a state reachable from [NewPrysmClient], so its cache holds
    at most ten epochs and every entry has both maps non-empty. *)
Theorem parseRpcBlock_keeps_cache (fuel : nat) (block : BeaconBlockContainer)
    (pc : PrysmClient N) (r : outcome Block) (pc' : PrysmClient N) :
  reachable cfg pc ->
  parseRpcBlock cfg fuel block pc = Some (r, pc') ->
  reachable cfg pc' /\
  cacheNonEmpty (assignmentsCache pc') /\
  (length (lru.entries (assignmentsCache pc')) <= 10)%nat.
Proof.
  intros HR H. pose proof (parseRpcBlock_reachable_aux _ _ _ _ _ HR H) as HR'.
  split; [exact HR' |]. split; [apply (reachable_cacheNonEmpty cfg); exact HR' |].
  apply reachable_cacheBounded in HR' as (HS & _ & HL & _). rewrite HS in HL. exact HL.
Qed.

Lemma payload_Err1 (payload : option WireExecutionPayload) (e : error) :
  match hasPayload payload with
  | None => Ok None
  | Some payload =>
      match parseTransactions (WP_BlockHash payload) 0 (WP_Transactions payload) [] with
      | Err e => Err e
      | Panic why => Panic why
      | Ok txs => executionPayloadOf payload txs None
      end
  end = Err e ->
  exists p (j : nat) (rawTx : bytes),
    hasPayload payload = Some p /\ WP_Transactions p !! j = Some rawTx /\
    undecodable (WP_BlockHash p) (Z.of_nat j) rawTx e.
Proof.
  destruct (hasPayload payload) as [p |]; [| discriminate].
  destruct (parseTransactions (WP_BlockHash p) 0 (WP_Transactions p) []) as [txs | e0 | why]
    eqn:ET; try discriminate.
  - unfold executionPayloadOf. destruct (LittleEndian_Uint64 (WP_BaseFeePerGas p));
      discriminate.
  - intros [= <-]. apply parseTransactions_Err in ET as (j & raw & before & Hj & _ & HU).
    exists p, j, raw. auto.
Qed.

Lemma payload_Err2 (slot : Z) (blockRoot : bytes) (payload : option WireExecutionPayload)
    (e : error) :
  parseCapellaPayload slot blockRoot payload = Err e ->
  exists p (j : nat) (rawTx : bytes),
    hasPayload payload = Some p /\ WP_Transactions p !! j = Some rawTx /\
    undecodable (WP_BlockHash p) (Z.of_nat j) rawTx e.
Proof.
  unfold parseCapellaPayload.
  destruct (hasPayload payload) as [p |]; [| discriminate].
  destruct (parseTransactions (WP_BlockHash p) 0 (WP_Transactions p) []) as [txs | e0 | why]
    eqn:ET; try discriminate.
  - unfold executionPayloadOf. destruct (LittleEndian_Uint64 (WP_BaseFeePerGas p));
      discriminate.
  - intros [= <-]. apply parseTransactions_Err in ET as (j & raw & before & Hj & _ & HU).
    exists p, j, raw. auto.
Qed.

(** An error of [parseRpcBlock] has one of three causes.  No variant of
    the container is set: the error names the four forks.  A transaction of
    the payload does not decode or has no recoverable sender: the error is
    the one for its position, and the client is untouched, no assignment
    having been asked for.  The node failed while the assignments of the
    epoch of an attestation of the block were fetched: the attestations
    before it were resolved in turn, its epoch is not in the cache they have
    left, the run of the loop over the pages for the filter of that epoch
    ends with a call of the node that fails, leaving the cache as it was,
    and the error carries that epoch and the error of that call.  The four
    errors for a variant that cannot be got are never returned, since a
    parser is only called for a variant that is set. *)
Theorem parseRpcBlock_error_causes (fuel : nat) (block : BeaconBlockContainer)
    (pc : PrysmClient N) (e : error) (pc' : PrysmClient N) :
  parseRpcBlock cfg fuel block pc = Some (Err e, pc') ->
  (blockOfContainer block = None /\ pc' = pc /\
   e = "block is neither phase0 nor altair nor bellatrix nor capella") \/
  (exists blk payload (j : nat) (rawTx : bytes),
      blockOfContainer block = Some blk /\
      hasPayload (SB_ExecutionPayload blk) = Some payload /\
      WP_Transactions payload !! j = Some rawTx /\
      undecodable (WP_BlockHash payload) (Z.of_nat j) rawTx e /\
      pc' = pc) \/
  (exists (blk : SignedBeaconBlock)
          (pre : list WireAttestation) (attestation : WireAttestation)
          (rest : list WireAttestation) (parsed : list Attestation) (pc1 : PrysmClient N)
          (pages : list CommitteeAssignment) (pageToken : string) (n1 : N)
          (resp : ValidatorAssignments) (e0 : error),
      blockOfContainer block = Some blk /\
      SB_Attestations blk = pre ++ attestation :: rest /\
      resolvedInTurn cfg fuel pre pc parsed pc1 /\
      lru.find (AD_Slot (WA_Data attestation) / SlotsPerEpoch cfg)
        (lru.entries (assignmentsCache pc1)) = None /\
      Paginate cfg (filterOf (AD_Slot (WA_Data attestation) / SlotsPerEpoch cfg)) "" []
        (node pc1)
        (pages, Some ("error retrieving validator assignment response for caching: " +:+ e0))
        (node pc') /\
      ListValidatorAssignments
        (mkListValidatorAssignmentsRequest
           (filterOf (AD_Slot (WA_Data attestation) / SlotsPerEpoch cfg)) (PageSize cfg)
           pageToken) n1
      = ((resp, Some e0), node pc') /\
      assignmentsCache pc' = assignmentsCache pc1 /\
      e = "error receiving epoch assignment for epoch "
          +:+ pretty (AD_Slot (WA_Data attestation) / SlotsPerEpoch cfg) +:+ ": "
          +:+ ("error retrieving validator assignment response for caching: " +:+ e0)).
Proof.
  unfold parseRpcBlock, parsePhase0Block, parseAltairBlock, parseBellatrixBlock,
    parseCapellaBlock, GetPhase0Block, GetAltairBlock, GetBellatrixBlock, GetCapellaBlock,
    blockOfContainer.
  destruct (BC_Block block) as [| [blk |] | [blk |] | [blk |] | [blk |]];
    try (intros [= <- <-]; left; auto; fail);
    try (intros H; right; right; exists blk;
         apply withAttestations_fail in H
           as (pre & a & rest & parsed & pc1 & pages & tok & n1 & resp & e0 & H);
         exists pre, a, rest, parsed, pc1, pages, tok, n1, resp, e0;
         split; [reflexivity | exact H]; fail).
  - destruct (parseBellatrixPayload (SB_ExecutionPayload blk)) as [ep | e1 | why] eqn:EP.
    + intros H. right; right; exists blk.
      apply withAttestations_fail in H
        as (pre & a & rest & parsed & pc1 & pages & tok & n1 & resp & e0 & H).
      exists pre, a, rest, parsed, pc1, pages, tok, n1, resp, e0.
      split; [reflexivity | exact H].
    + intros [= <- <-]. apply payload_Err1 in EP as (p & j & raw & H1 & H2 & H3).
      right. left. exists blk, p, j, raw. auto.
    + discriminate.
  - destruct (parseCapellaPayload (SB_Slot blk) (BC_BlockRoot block)
                (SB_ExecutionPayload blk)) as [ep | e1 | why] eqn:EP.
    + intros H. right; right; exists blk.
      apply withAttestations_fail in H
        as (pre & a & rest & parsed & pc1 & pages & tok & n1 & resp & e0 & H).
      exists pre, a, rest, parsed, pc1, pages, tok, n1, resp, e0.
      split; [reflexivity | exact H].
    + intros [= <- <-]. apply payload_Err2 in EP as (p & j & raw & H1 & H2 & H3).
      right. left. exists blk, p, j, raw. auto.
    + discriminate.
Qed.

End ParserMore.

Lemma parse_badTxContainer :
  parseRpcBlock (lib := scriptedPrysmLib) scriptedConfig 0 badTxContainer
    (NewPrysmClient [(onePage, None)])
  = Some (Err "error parsing tx 1 block ee: typed transaction too short",
          NewPrysmClient [(onePage, None)]).
Proof. reflexivity. Qed.

(** The node fails at the first call: the block of the examples is not
    parsed. *)
Lemma parse_attestedContainer_down :
  parseRpcBlock (lib := scriptedPrysmLib) scriptedConfig 1 attestedContainer
    (NewPrysmClient [(onePage, Some "node down")])
  = Some (Err ("error receiving epoch assignment for epoch 2: "
               +:+ "error retrieving validator assignment response for caching: node down"),
          NewPrysmClient []).
Proof. reflexivity. Qed.

Lemma parseRpcBlock_error_causes_witness :
  exists (pre : list WireAttestation) (attestation : WireAttestation)
         (rest : list WireAttestation) (pageToken : string)
         (n1 : list (ValidatorAssignments * option error)) (resp : ValidatorAssignments)
         (e0 : error),
    SB_Attestations attestedBlock = pre ++ attestation :: rest /\
    ListValidatorAssignments
      (mkListValidatorAssignmentsRequest
         (filterOf (AD_Slot (WA_Data attestation) / SlotsPerEpoch scriptedConfig))
         (PageSize scriptedConfig) pageToken) n1
    = ((resp, Some e0), []) /\
    "error receiving epoch assignment for epoch 2: "
    +:+ "error retrieving validator assignment response for caching: node down"
    = "error receiving epoch assignment for epoch "
      +:+ pretty (AD_Slot (WA_Data attestation) / SlotsPerEpoch scriptedConfig) +:+ ": "
      +:+ ("error retrieving validator assignment response for caching: " +:+ e0).
Proof.
  destruct (parseRpcBlock_error_causes (lib := scriptedPrysmLib) scriptedConfig 1
              attestedContainer (NewPrysmClient [(onePage, Some "node down")]) _ _
              parse_attestedContainer_down)
    as [(H & _) | [(blk & payload & j & rawTx & H1 & H2 & _)
                  | (blk & pre & a & rest & parsed & pc1 & pages & tok & n1 & resp & e0
                     & H1 & H2 & _ & _ & _ & H3 & _ & H4)]].
  - discriminate H.
  - injection H1 as <-. discriminate H2.
  - injection H1 as <-. exists pre, a, rest, tok, n1, resp, e0. auto.
Defined.

Lemma parseRpcBlock_keeps_cache_witness :
  exists (r : outcome (Block (lib := scriptedPrysmLib)))
         (pc' : PrysmClient (list (ValidatorAssignments * option error))),
    parseRpcBlock (lib := scriptedPrysmLib) scriptedConfig 1 attestedContainer
      (NewPrysmClient [(onePage, None)]) = Some (r, pc') /\
    cacheNonEmpty (assignmentsCache pc') /\
    (length (lru.entries (assignmentsCache pc')) <= 10)%nat.
Proof.
  destruct parse_attestedContainer as (b & pc' & E & _).
  exists (Ok b), pc'. split; [exact E |].
  exact (proj2 (parseRpcBlock_keeps_cache (lib := scriptedPrysmLib) scriptedConfig 1
                  attestedContainer (NewPrysmClient [(onePage, None)]) (Ok b) pc'
                  (reachable_new scriptedConfig [(onePage, None)]) E)).
Defined.


(** * The lists of blocks *)

Section BlockListFacts.
Context {lib : PrysmLib} {N : Type} {client : BeaconChainClient N}
        {blocksClient : BeaconBlocksClient N} (cfg : Config).

Lemma parseListedBlock_Ok (fuel : nat) (block : ListedContainer) (pc : PrysmClient N)
    (b : Block) (pc' : PrysmClient N) :
  parseListedBlock cfg fuel (defaultEth1Data block) pc = Some (Ok b, pc') ->
  parsedFrom block b.
Proof.
  unfold parseListedBlock, defaultEth1Data, parsedFrom.
  destruct block as [c isNil]. cbn [LC_Container LC_Eth1DataNil].
  destruct (GetAltairBlock c) as [ablk |] eqn:EA.
  - assert (HB : blockOfContainer c = Some ablk).
    { unfold GetAltairBlock in EA. unfold blockOfContainer.
      destruct (BC_Block c); try discriminate. exact EA. }
    destruct isNil; cbn [LC_Container LC_Eth1DataNil].
    + unfold blockOfContainer at 1. cbn [BC_Block]. intros H.
      apply parseRpcBlock_Ok in H as (blk & sa & ep & atts & bls & Hblk & _ & -> & _).
      unfold blockOfContainer in Hblk. cbn [BC_Block] in Hblk. injection Hblk as <-.
      exists ablk. split; [exact HB |]. repeat split.
    + rewrite HB. intros H.
      apply parseRpcBlock_Ok in H as (blk & sa & ep & atts & bls & Hblk & _ & -> & _).
      exists blk. split; [congruence |]. repeat split.
  - cbn [LC_Container LC_Eth1DataNil].
    destruct (blockOfContainer c) as [blk0 |] eqn:HB.
    + destruct isNil; [discriminate |]. intros H.
      apply parseRpcBlock_Ok in H as (blk & sa & ep & atts & bls & Hblk & _ & -> & _).
      exists blk. split; [congruence |]. repeat split.
    + intros H.
      apply parseRpcBlock_Ok in H as (blk & sa & ep & atts & bls & Hblk & _).
      congruence.
Qed.

Lemma parseListedBlocks_Ok (fuel : nat) (containers : list ListedContainer) :
  forall (pc : PrysmClient N) (acc blocks : list Block) (pc' : PrysmClient N),
    parseListedBlocks cfg fuel containers pc acc = Some (Ok blocks, pc') ->
    exists new, blocks = acc ++ new /\ Forall2 (parsedFrom) containers new.
Proof.
  induction containers as [| block rest IH]; intros pc acc blocks pc' H; simpl in H.
  - injection H as <- _. exists []. rewrite app_nil_r. split; [reflexivity | constructor].
  - destruct (parseListedBlock cfg fuel (defaultEth1Data block) pc)
      as [[[b | e | why] pc1] |] eqn:E; try discriminate.
    apply parseListedBlock_Ok in E.
    apply IH in H as (new & -> & HF). exists (b :: new). split.
    + rewrite <- app_assoc. reflexivity.
    + constructor; assumption.
Qed.

Lemma parseListedBlocks_app (fuel : nat) (pre : list ListedContainer) :
  forall (rest : list ListedContainer) (pc : PrysmClient N) (acc blocks : list Block)
         (pc1 : PrysmClient N),
    parseListedBlocks cfg fuel pre pc acc = Some (Ok blocks, pc1) ->
    parseListedBlocks cfg fuel (pre ++ rest) pc acc
    = parseListedBlocks cfg fuel rest pc1 blocks.
Proof.
  induction pre as [| block pre IH]; intros rest pc acc blocks pc1 H; simpl in H.
  - injection H as <- <-. reflexivity.
  - simpl. destruct (parseListedBlock cfg fuel (defaultEth1Data block) pc)
      as [[[b | e | why] pc2] |]; try discriminate.
    apply IH. exact H.
Qed.

(** When [GetBlocksBySlot] returns blocks, the node answered the one
    request, for the genesis when the slot is 0 and for the slot otherwise;
    a response with total size 0 gives no block, whatever containers it
    holds, and any other response gives one block for every container, in
    order: the block of the container, with status 1 and the container's
    root and canonical flag, and with the empty Eth1Data when the container
    holds an Altair block without Eth1Data. *)
Theorem GetBlocksBySlot_Ok (fuel : nat) (slot : Z) (pc : PrysmClient N)
    (blocks : list Block) (pc' : PrysmClient N) :
  GetBlocksBySlot cfg fuel slot pc = Some (Ok blocks, pc') ->
  exists (resp : ListBeaconBlocksResponse) (n' : N),
    ListBeaconBlocks
      (mkListBlocksRequest
         (if slot =? 0 then BlocksFilter_Genesis true else BlocksFilter_Slot slot)
         (PageSize cfg)) (node pc)
    = ((resp, None), n') /\
    ((LBR_TotalSize resp = 0 /\ blocks = [] /\
      pc' = mkPrysmClient (assignmentsCache pc) n') \/
     (LBR_TotalSize resp <> 0 /\ Forall2 parsedFrom (BlockContainers resp) blocks)).
Proof.
  unfold GetBlocksBySlot.
  destruct (ListBeaconBlocks _ (node pc)) as [[resp [e |]] n'] eqn:E; [discriminate |].
  intros H. exists resp, n'. split; [reflexivity |].
  destruct (Z.eqb_spec (LBR_TotalSize resp) 0) as [Hz | Hnz].
  - injection H as <- <-. left. auto.
  - right. split; [exact Hnz |].
    apply parseListedBlocks_Ok in H as (new & -> & HF). exact HF.
Qed.

(** The default of lines 539-546 reaches Altair blocks only.  When a
    response lists, after containers that parse, a container whose block is
    of another variant and has no Eth1Data, [GetBlocksBySlot] panics at that
    container and returns no block. *)
Theorem GetBlocksBySlot_nil_Eth1Data (fuel : nat) (slot : Z) (pc : PrysmClient N)
    (resp : ListBeaconBlocksResponse) (n' : N) (pre rest : list ListedContainer)
    (block : ListedContainer) (blk : SignedBeaconBlock) (parsed : list Block)
    (pc1 : PrysmClient N) :
  ListBeaconBlocks
    (mkListBlocksRequest
       (if slot =? 0 then BlocksFilter_Genesis true else BlocksFilter_Slot slot)
       (PageSize cfg)) (node pc)
  = ((resp, None), n') ->
  LBR_TotalSize resp <> 0 ->
  BlockContainers resp = pre ++ block :: rest ->
  parseListedBlocks cfg fuel pre (mkPrysmClient (assignmentsCache pc) n') []
  = Some (Ok parsed, pc1) ->
  LC_Eth1DataNil block = true ->
  blockOfContainer (LC_Container block) = Some blk ->
  GetAltairBlock (LC_Container block) = None ->
  GetBlocksBySlot cfg fuel slot pc
  = Some (Panic "invalid memory address or nil pointer dereference", pc1).
Proof.
  intros E Hnz Hc Hpre Hnil Hblk Halt. unfold GetBlocksBySlot. rewrite E.
  rewrite (proj2 (Z.eqb_neq _ _) Hnz), Hc.
  rewrite (parseListedBlocks_app _ _ _ _ _ _ _ Hpre). simpl.
  unfold defaultEth1Data. rewrite Halt. unfold parseListedBlock. rewrite Hblk, Hnil.
  reflexivity.
Qed.

Lemma parseListedBlocks_first_Err (fuel : nat) (containers : list ListedContainer) :
  forall (pc : PrysmClient N) (acc : list Block) (e : error) (pc' : PrysmClient N),
    parseListedBlocks cfg fuel containers pc acc = Some (Err e, pc') ->
    exists (pre : list ListedContainer) (block : ListedContainer)
           (rest : list ListedContainer) (parsed : list Block) (pc1 : PrysmClient N),
      containers = pre ++ block :: rest /\
      parsedInTurn cfg fuel pre pc parsed pc1 /\
      parseListedBlock cfg fuel (defaultEth1Data block) pc1 = Some (Err e, pc') /\
      parseRpcBlock cfg fuel (LC_Container (defaultEth1Data block)) pc1 = Some (Err e, pc').
Proof.
  induction containers as [| block rest IH]; intros pc acc e pc' H; simpl in H;
    [discriminate |].
  destruct (parseListedBlock cfg fuel (defaultEth1Data block) pc)
    as [[[b | e1 | why] pc1] |] eqn:E; try discriminate.
  - apply IH in H as (pre & c & rest' & parsed & pc2 & -> & HP & H).
    exists (block :: pre), c, rest', (b :: parsed), pc2.
    split; [reflexivity |]. split; [| exact H].
    eapply parsedInTurn_cons; [exact E | exact HP].
  - injection H as <- <-. exists [], block, rest, [], pc.
    split; [reflexivity |]. split; [constructor |]. split; [exact E |].
    unfold parseListedBlock in E.
    destruct (blockOfContainer (LC_Container (defaultEth1Data block))); [| exact E].
    destruct (LC_Eth1DataNil (defaultEth1Data block)); [discriminate | exact E].
Qed.

Lemma parsedInTurn_parseListedBlocks (fuel : nat) (pre : list ListedContainer)
    (pc : PrysmClient N) (parsed : list Block) (pc1 : PrysmClient N) :
  parsedInTurn cfg fuel pre pc parsed pc1 ->
  forall acc, parseListedBlocks cfg fuel pre pc acc = Some (Ok (acc ++ parsed), pc1).
Proof.
  induction 1 as [pc | block rest pc pc1 pc' b blocks E _ IH]; intros acc; simpl.
  - rewrite app_nil_r. reflexivity.
  - rewrite E, IH, <- app_assoc. reflexivity.
Qed.

(** [GetBlocksBySlot] returns an error in two cases, and in no other.
    The request fails: the error is the error of the request.  Or the node
    answers with a total size other than 0, and a container of the response
    does not parse after every container before it has been parsed in turn,
    from the client the request has left: the error is the error of
    [parseRpcBlock] for that container, the first that does not parse, which
    ends the call; neither the containers after it are read nor the blocks
    parsed before it returned. *)
Theorem GetBlocksBySlot_Err (fuel : nat) (slot : Z) (pc : PrysmClient N)
    (e : error) (pc' : PrysmClient N) :
  GetBlocksBySlot cfg fuel slot pc = Some (Err e, pc') <->
  exists (resp : ListBeaconBlocksResponse) (n' : N) (err : option error),
    ListBeaconBlocks
      (mkListBlocksRequest
         (if slot =? 0 then BlocksFilter_Genesis true else BlocksFilter_Slot slot)
         (PageSize cfg)) (node pc)
    = ((resp, err), n') /\
    ((err = Some e /\ pc' = mkPrysmClient (assignmentsCache pc) n') \/
     (err = None /\ LBR_TotalSize resp <> 0 /\
      exists (pre : list ListedContainer) (block : ListedContainer)
             (rest : list ListedContainer) (parsed : list Block) (pc1 : PrysmClient N),
        BlockContainers resp = pre ++ block :: rest /\
        parsedInTurn cfg fuel pre (mkPrysmClient (assignmentsCache pc) n') parsed pc1 /\
        parseListedBlock cfg fuel (defaultEth1Data block) pc1 = Some (Err e, pc') /\
        parseRpcBlock cfg fuel (LC_Container (defaultEth1Data block)) pc1
        = Some (Err e, pc'))).
Proof.
  unfold GetBlocksBySlot. split.
  - destruct (ListBeaconBlocks _ (node pc)) as [[resp [e0 |]] n'] eqn:E.
    + intros [= <- <-]. exists resp, n', (Some e0). split; [reflexivity |]. left. auto.
    + intros H. exists resp, n', None. split; [reflexivity |]. right.
      destruct (Z.eqb_spec (LBR_TotalSize resp) 0) as [Hz | Hnz]; [discriminate |].
      split; [reflexivity |]. split; [exact Hnz |].
      eapply parseListedBlocks_first_Err. exact H.
  - intros (resp & n' & err & -> & [(-> & ->) | (-> & Hnz & pre & block & rest & parsed
                                                   & pc1 & Hc & HP & HE & _)]);
      [reflexivity |].
    rewrite (proj2 (Z.eqb_neq _ _) Hnz), Hc.
    rewrite (parseListedBlocks_app _ _ _ _ _ _ _ (parsedInTurn_parseListedBlocks _ _ _ _ _ HP [])).
    simpl. rewrite HE. reflexivity.
Qed.

(** The blocks of [GetBlockStatusByEpoch]: none when the total size of the
    response is 0, and else one for every container, with the container's
    root and canonical flag.  The slot is the slot of the block for a phase 0
    and for an Altair block, and 0 for a Bellatrix and for a Capella block,
    whose slot is not read. *)
Theorem GetBlockStatusByEpoch_slots (epoch : Z) (n : N) (blocks : list CanonBlock) (n' : N) :
  GetBlockStatusByEpoch cfg epoch n = (Ok blocks, n') ->
  exists resp : ListBeaconBlocksResponse,
    ListBeaconBlocks (mkListBlocksRequest (BlocksFilter_Epoch epoch) (PageSize cfg)) n
    = ((resp, None), n') /\
    ((LBR_TotalSize resp = 0 /\ blocks = []) \/
     (LBR_TotalSize resp <> 0 /\
      Forall2 (fun block b =>
                 CB_BlockRoot b = BC_BlockRoot (LC_Container block) /\
                 CB_Canonical b = BC_Canonical (LC_Container block) /\
                 CB_Slot b = match BC_Block (LC_Container block) with
                             | Phase0Block (Some blk) | AltairBlock (Some blk) => SB_Slot blk
                             | _ => 0
                             end)
        (BlockContainers resp) blocks)).
Proof.
  unfold GetBlockStatusByEpoch.
  destruct (ListBeaconBlocks _ n) as [[resp [e |]] n1] eqn:E; [discriminate |].
  destruct (Z.eqb_spec (LBR_TotalSize resp) 0) as [Hz | Hnz]; intros [= <- <-];
    exists resp; (split; [reflexivity |]); [left; auto | right].
  split; [exact Hnz |].
  induction (BlockContainers resp) as [| block rest IH]; simpl; constructor; [| exact IH].
  repeat split. unfold statusSlot, GetAltairBlock, GetPhase0Block.
  destruct (BC_Block (LC_Container block)) as [| [blk |] | [blk |] | [blk |] | [blk |]];
    reflexivity.
Qed.

End BlockListFacts.


Lemma GetBlocksBySlot_Ok_witness :
  exists (blocks : list (Block (lib := scriptedPrysmLib)))
         (pc' : PrysmClient (list (ValidatorAssignments * option error))),
    GetBlocksBySlot (lib := scriptedPrysmLib) scriptedConfig 0 0 (NewPrysmClient [])
    = Some (Ok blocks, pc') /\
    Forall2 (parsedFrom (lib := scriptedPrysmLib)) [genesisAltair] blocks.
Proof.
  set (r := GetBlocksBySlot (lib := scriptedPrysmLib) scriptedConfig 0 0 (NewPrysmClient [])).
  assert (E : r = Some (Ok (match r with Some (Ok bs, _) => bs | _ => [] end),
                        NewPrysmClient [])) by reflexivity.
  eexists. eexists. split; [exact E |].
  destruct (GetBlocksBySlot_Ok (lib := scriptedPrysmLib) scriptedConfig 0 0
              (NewPrysmClient []) _ _ E) as (resp & n' & HL & [(Hz & _) | (_ & HF)]).
  - injection HL as <- _. discriminate Hz.
  - injection HL as <- _. exact HF.
Defined.

Lemma GetBlocksBySlot_nil_Eth1Data_witness :
  GetBlocksBySlot (lib := scriptedPrysmLib) scriptedConfig 0 1 (NewPrysmClient [])
  = Some (Panic "invalid memory address or nil pointer dereference", NewPrysmClient []).
Proof.
  apply (GetBlocksBySlot_nil_Eth1Data (lib := scriptedPrysmLib) scriptedConfig 0 1
           (NewPrysmClient []) (mkListBeaconBlocksResponse [bareBlock] "" 1) [] [] []
           bareBlock (emptyBlock 1 None) [] (NewPrysmClient []));
    try reflexivity.
  discriminate.
Defined.

Lemma GetBlocksBySlot_Err_witness :
  (exists (resp : ListBeaconBlocksResponse) (n' : list (ValidatorAssignments * option error))
          (err : option error),
      ListBeaconBlocks (mkListBlocksRequest (BlocksFilter_Slot 2) 500) [] = ((resp, err), n') /\
      err = Some "node is syncing") /\
  GetBlocksBySlot (lib := scriptedPrysmLib) scriptedConfig 0 3 (NewPrysmClient [])
  = Some (Err "error parsing tx 1 block ee: typed transaction too short", NewPrysmClient []).
Proof.
  split.
  - assert (E : GetBlocksBySlot (lib := scriptedPrysmLib) scriptedConfig 0 2
                   (NewPrysmClient [])
                 = Some (Err "node is syncing", NewPrysmClient [])) by reflexivity.
    destruct (proj1 (GetBlocksBySlot_Err (lib := scriptedPrysmLib) scriptedConfig 0 2
                       (NewPrysmClient []) "node is syncing" (NewPrysmClient [])) E)
      as (resp & n' & err & HL & [(He & _) | (He & _ & pre & block & rest & _ & _ & Hc & _)]).
    + exists resp, n', err. split; [exact HL | exact He].
    + exfalso. injection HL as <- _ _. destruct pre; discriminate Hc.
  - apply (proj2 (GetBlocksBySlot_Err (lib := scriptedPrysmLib) scriptedConfig 0 3
                    (NewPrysmClient []) _ (NewPrysmClient []))).
    exists (mkListBeaconBlocksResponse
              [mkListedContainer capellaContainer false;
               mkListedContainer badTxContainer false] "" 2), [], None.
    split; [reflexivity |]. right. split; [reflexivity |]. split; [discriminate |].
    exists [mkListedContainer capellaContainer false],
           (mkListedContainer badTxContainer false), [].
    eexists. exists (NewPrysmClient []).
    split; [reflexivity |]. split; [| split; reflexivity].
    eapply parsedInTurn_cons; [reflexivity | apply parsedInTurn_nil].
Defined.

Lemma GetBlockStatusByEpoch_slots_witness :
  GetBlockStatusByEpoch scriptedConfig 3 ([] : list (ValidatorAssignments * option error))
  = (Ok [mkCanonBlock [x00] 0 true; mkCanonBlock [xcd] 0 true; mkCanonBlock [xab] 0 true], [])
  /\ SB_Slot (emptyBlock 200 (Some capellaPayload)) = 200
  /\ exists resp : ListBeaconBlocksResponse,
       ListBeaconBlocks (mkListBlocksRequest (BlocksFilter_Epoch 3) 500)
         ([] : list (ValidatorAssignments * option error))
       = ((resp, None), []) /\
       LBR_TotalSize resp = 3.
Proof.
  assert (E : GetBlockStatusByEpoch scriptedConfig 3
                 ([] : list (ValidatorAssignments * option error))
               = (Ok [mkCanonBlock [x00] 0 true; mkCanonBlock [xcd] 0 true;
                      mkCanonBlock [xab] 0 true], [])) by reflexivity.
  split; [exact E |]. split; [reflexivity |].
  destruct (GetBlockStatusByEpoch_slots scriptedConfig 3
              ([] : list (ValidatorAssignments * option error)) _ _ E)
    as (resp & HL & _).
  exists resp. split; [exact HL |]. injection HL as <-. reflexivity.
Defined.


(** * The balances *)

Lemma listedLast_cons (x : Z * Z) (data : list (Z * Z)) (i b : Z) :
  listedLast (x :: data) i b <->
  listedLast data i b \/
  (u64 (fst x) = i /\ u64 (snd x) = b /\ Forall (fun y => u64 (fst y) <> i) data).
Proof.
  unfold listedLast. split.
  - intros (before & after & y & E & H1 & H2 & H3).
    destruct before as [| z before]; simpl in E; injection E as -> ->.
    + right. auto.
    + left. exists before, after, y. auto.
  - intros [(before & after & y & -> & H1 & H2 & H3) | (H1 & H2 & H3)].
    + exists (x :: before), after, y. auto.
    + exists [], data, x. auto.
Qed.

Lemma balances_fold_lookup (data : list (Z * Z)) : forall (m : gmap Z Z) (i b : Z),
  fold_left (fun m b => <[u64 (fst b) := u64 (snd b)]> m) data m !! i = Some b <->
  listedLast data i b \/ (Forall (fun y => u64 (fst y) <> i) data /\ m !! i = Some b).
Proof.
  induction data as [| x data IH]; intros m i b; simpl.
  - split.
    + intros H. right. split; [constructor | exact H].
    + intros [(before & after & y & E & _) | [_ H]]; [| exact H].
      destruct before; discriminate.
  - rewrite IH, listedLast_cons. destruct (decide (u64 (fst x) = i)) as [Heq | Hne].
    + subst i. rewrite lookup_insert_eq. split.
      * intros [H | [HF [= <-]]]; [left; left; exact H |].
        left. right. auto.
      * intros [[H | (_ & <- & HF)] | [HF H]].
        -- left. exact H.
        -- right. auto.
        -- inversion HF as [| ? ? Hx _]. contradiction.
    + rewrite lookup_insert_ne by exact Hne. split.
      * intros [H | [HF H]]; [left; left; exact H |]. right. split; [| exact H].
        constructor; assumption.
      * intros [[H | (Heq & _)] | [HF H]]; [left; exact H | contradiction |].
        right. inversion HF. auto.
Qed.

Section RestFacts.
Context {H : Type} {http : HttpClient H} {json : JsonLib}.

Lemma clamp_max (slot : Z) : (if slot <? 0 then 0 else slot) = Z.max 0 slot.
Proof. destruct (Z.ltb_spec slot 0); lia. Qed.

(** [GetBalancesForSlot] returns a map without an error only when the node
    answered the request for the state of the slot, or of slot 0 for a
    negative slot, with status 200 and a body that was read to its end and
    parses.  The map then holds exactly the validators listed, each with the
    balance listed last for it. *)
Theorem GetBalancesForSlot_Ok (endpoint : string) (slot : Z) (h : H)
    (om : option (gmap Z Z)) (h' : H) :
  GetBalancesForSlot endpoint slot h = ((om, None), h') ->
  exists (resp : HttpResponse) (body : bytes) (data : list (Z * Z)) (m : gmap Z Z),
    om = Some m /\
    http_Get (balancesUrl endpoint (Z.max 0 slot)) h = (inl resp, h') /\
    StatusCode resp = 200 /\
    Body resp = (body, None) /\
    json_Unmarshal_balances body = (data, None) /\
    forall i b, m !! i = Some b <-> listedLast data i b.
Proof.
  unfold GetBalancesForSlot, get. rewrite clamp_max. cbv zeta.
  destruct (http_Get (balancesUrl endpoint (Z.max 0 slot)) h) as [[resp | e] h1] eqn:E;
    [| discriminate].
  destruct (Body resp) as [body rerr] eqn:EB.
  destruct (decide (StatusCode resp = 200)) as [Hs | Hs].
  - rewrite bool_decide_eq_false_2 by (intros Hc; exact (Hc Hs)).
    destruct rerr as [e |]; [discriminate |]. simpl.
    destruct (json_Unmarshal_balances body) as [data [e |]] eqn:EJ; [discriminate |].
    intros [= <- <-]. do 4 eexists. split; [reflexivity |].
    repeat (split; [first [reflexivity | eassumption] |]).
    intros i b. rewrite balances_fold_lookup, lookup_empty. split; [| auto].
    intros [Hl | [_ Hc]]; [exact Hl | discriminate].
  - rewrite bool_decide_eq_true_2 by exact Hs.
    destruct (StatusCode resp =? 404); discriminate.
Qed.

(** When [GetBalancesForSlot] returns an error, it returns the nil map
    with a fixed message if the body does not parse, whatever the parser
    said, and the empty map with the error of [get] otherwise: the error of
    the transport; the message for status 404; the message with the address
    and the body for any other status but 200, whether or not the body could
    be read; or the error of reading the body of an answer with status
    200. *)
Theorem GetBalancesForSlot_Err (endpoint : string) (slot : Z) (h : H)
    (om : option (gmap Z Z)) (e : error) (h' : H) :
  GetBalancesForSlot endpoint slot h = ((om, Some e), h') ->
  (om = None /\ e = "error parsing response for validator_balances" /\
   exists (resp : HttpResponse) (body : bytes) (data : list (Z * Z)) (e0 : error),
     http_Get (balancesUrl endpoint (Z.max 0 slot)) h = (inl resp, h') /\
     StatusCode resp = 200 /\ Body resp = (body, None) /\
     json_Unmarshal_balances body = (data, Some e0)) \/
  (om = Some ∅ /\
   (http_Get (balancesUrl endpoint (Z.max 0 slot)) h = (inr e, h') \/
    exists resp : HttpResponse,
      http_Get (balancesUrl endpoint (Z.max 0 slot)) h = (inl resp, h') /\
      ((StatusCode resp = 404 /\ e = "not found 404") \/
       (StatusCode resp <> 200 /\ StatusCode resp <> 404 /\
        e = "url: " +:+ balancesUrl endpoint (Z.max 0 slot) +:+ ", error-response: "
            +:+ string_of_list_byte (fst (Body resp))) \/
       (StatusCode resp = 200 /\ snd (Body resp) = Some e)))).
Proof.
  unfold GetBalancesForSlot, get. rewrite clamp_max. cbv zeta.
  destruct (http_Get (balancesUrl endpoint (Z.max 0 slot)) h) as [[resp | e0] h1] eqn:E.
  2: { intros [= <- <- <-]. right. split; [reflexivity |]. left. reflexivity. }
  destruct (Body resp) as [body rerr] eqn:EB.
  destruct (decide (StatusCode resp = 200)) as [Hs | Hs].
  - rewrite bool_decide_eq_false_2 by (intros Hc; exact (Hc Hs)).
    destruct rerr as [e0 |].
    + intros [= <- <- <-]. right. split; [reflexivity |]. right. exists resp.
      split; [reflexivity |]. right. right. split; [exact Hs | rewrite EB; reflexivity].
    + simpl. destruct (json_Unmarshal_balances body) as [data [e0 |]] eqn:EJ;
        [| discriminate].
      intros [= <- <- <-]. left. split; [reflexivity |]. split; [reflexivity |].
      exists resp, body, data, e0. repeat split; first [reflexivity | assumption].
  - rewrite bool_decide_eq_true_2 by exact Hs.
    destruct (Z.eqb_spec (StatusCode resp) 404) as [H4 | H4]; intros [= <- <- <-];
      right; (split; [reflexivity |]); right; exists resp; (split; [reflexivity |]).
    + left. split; [exact H4 | reflexivity].
    + right. left. split; [exact Hs |]. split; [exact H4 | rewrite EB; reflexivity].
Qed.

End RestFacts.

Section EpochBalancesFacts.
Context {N : Type} {balancesClient : BeaconBalancesClient N} (cfg : Config).

Lemma page_fold_lookup (page : list ValidatorBalance) : forall (m : gmap Z Z) (i b : Z),
  fold_left (fun m balance => <[u64 (VB_Index balance) := VB_Balance balance]> m) page m !! i
  = Some b ->
  (exists x, In x page /\ u64 (VB_Index x) = i /\ VB_Balance x = b) \/ m !! i = Some b.
Proof.
  induction page as [| x page IH]; intros m i b Hl; simpl in Hl; [auto |].
  apply IH in Hl as [(y & Hin & Hy) | Hl].
  - left. exists y. split; [right; exact Hin | exact Hy].
  - destruct (decide (u64 (VB_Index x) = i)) as [Heq | Hne].
    + rewrite <- Heq, lookup_insert_eq in Hl. injection Hl as <-.
      left. exists x. split; [left; reflexivity | auto].
    + rewrite lookup_insert_ne in Hl by exact Hne. auto.
Qed.

Lemma listValidatorBalances_mono (filter : BalancesFilter) (fuel : nat) :
  forall (fuel' : nat) (pageToken : string) (m : gmap Z Z) (n : N)
         (r : (gmap Z Z * option error) * N),
    (fuel <= fuel')%nat ->
    listValidatorBalances cfg fuel filter pageToken m n = Some r ->
    listValidatorBalances cfg fuel' filter pageToken m n = Some r.
Proof.
  induction fuel as [| fuel IH]; intros fuel' pageToken m n r Hle Hr; [discriminate |].
  destruct fuel' as [| fuel']; [lia |]. simpl in *.
  destruct (ListValidatorBalances
              (mkListValidatorBalancesRequest filter (PageSize cfg) pageToken) n)
    as [[resp [e |]] n1]; [exact Hr |].
  destruct (VB_TotalSize resp =? 0); [exact Hr |].
  destruct (String.eqb (VB_NextPageToken resp) ""); [exact Hr |].
  apply IH; [lia | exact Hr].
Qed.

Lemma listValidatorBalances_entries (filter : BalancesFilter) (fuel : nat) :
  forall (pageToken : string) (m : gmap Z Z) (n : N) (m' : gmap Z Z)
         (err : option error) (n' : N),
    listValidatorBalances cfg fuel filter pageToken m n = Some ((m', err), n') ->
    (forall i b, m' !! i = Some b ->
       (exists resp x, keptPage cfg filter resp /\ In x (Balances resp) /\
                       u64 (VB_Index x) = i /\ VB_Balance x = b) \/
       m !! i = Some b) /\
    (forall e, err = Some e ->
       exists (token : string) (n1 : N) (resp : ValidatorBalances),
         ListValidatorBalances (mkListValidatorBalancesRequest filter (PageSize cfg) token) n1
         = ((resp, Some e), n')).
Proof.
  induction fuel as [| fuel IH]; intros pageToken m n m' err n' Hr; [discriminate |].
  simpl in Hr.
  destruct (ListValidatorBalances
              (mkListValidatorBalancesRequest filter (PageSize cfg) pageToken) n)
    as [[resp [e |]] n1] eqn:E.
  { injection Hr as <- <- <-. split; [auto |]. intros e' [= <-]. eauto. }
  destruct (Z.eqb_spec (VB_TotalSize resp) 0) as [Hz | Hnz].
  { injection Hr as <- <- <-. split; [auto | discriminate]. }
  assert (HK : keptPage cfg filter resp) by (exists pageToken, n, n1; auto).
  assert (HP : forall i b,
             fold_left (fun m balance => <[u64 (VB_Index balance) := VB_Balance balance]> m)
               (Balances resp) m !! i = Some b ->
             (exists resp x, keptPage cfg filter resp /\ In x (Balances resp) /\
                             u64 (VB_Index x) = i /\ VB_Balance x = b) \/
             m !! i = Some b).
  { intros i b Hl. apply page_fold_lookup in Hl as [(x & Hin & Hx) | Hl]; [| auto].
    left. exists resp, x. tauto. }
  destruct (String.eqb (VB_NextPageToken resp) "").
  { injection Hr as <- <- <-. split; [exact HP | discriminate]. }
  apply IH in Hr as [H1 H2]. split; [| exact H2].
  intros i b Hl. apply H1 in Hl as [Hl | Hl]; [left; exact Hl | apply HP; exact Hl].
Qed.

Lemma balancesFilterOf_spec (epoch : Z) :
  (if (if epoch <? 0 then 0 else epoch) =? 0
   then BalancesFilter_Genesis true
   else BalancesFilter_Epoch (if epoch <? 0 then 0 else epoch))
  = balancesFilterOf epoch.
Proof.
  unfold balancesFilterOf.
  destruct (Z.ltb_spec epoch 0); destruct (Z.leb_spec epoch 0); try lia; try reflexivity.
  - destruct (Z.eqb_spec epoch 0); [reflexivity | lia].
  - destruct (Z.eqb_spec epoch 0); [lia | reflexivity].
Qed.

(** What [GetBalancesForEpoch] returns holds nothing but balances the node
    listed for the epoch, or for the genesis when the epoch is 0 or
    negative, on a page it answered without error and with a total size
    other than 0.  An error it returns is the error of the node for one of
    these requests, and comes with the balances of the pages before.  With
    more fuel the loop returns the same. *)
Theorem GetBalancesForEpoch_pages (fuel : nat) (epoch : Z) (n : N) (m : gmap Z Z)
    (err : option error) (n' : N) :
  GetBalancesForEpoch cfg fuel epoch n = Some ((m, err), n') ->
  (forall i b, m !! i = Some b ->
     exists resp x, keptPage cfg (balancesFilterOf epoch) resp /\ In x (Balances resp) /\
                    u64 (VB_Index x) = i /\ VB_Balance x = b) /\
  (forall e, err = Some e ->
     exists (token : string) (n1 : N) (resp : ValidatorBalances),
       ListValidatorBalances
         (mkListValidatorBalancesRequest (balancesFilterOf epoch) (PageSize cfg) token) n1
       = ((resp, Some e), n')) /\
  (forall fuel' : nat, (fuel <= fuel')%nat ->
     GetBalancesForEpoch cfg fuel' epoch n = Some ((m, err), n')).
Proof.
  unfold GetBalancesForEpoch. cbv zeta. rewrite balancesFilterOf_spec. intros Hr.
  pose proof (listValidatorBalances_entries _ _ _ _ _ _ _ _ Hr) as [H1 H2].
  split; [| split; [exact H2 |]].
  - intros i b Hl. apply H1 in Hl as [Hl | Hl]; [exact Hl |].
    rewrite lookup_empty in Hl. discriminate.
  - intros fuel' Hle. eapply listValidatorBalances_mono; eassumption.
Qed.

(** A failure of the node in the middle of the pages does not discard
    what was collected: when the first page is answered and names a next
    page, and the request for that page fails, [GetBalancesForEpoch] returns
    the balances of the first page together with the error. *)
Theorem GetBalancesForEpoch_partial (fuel : nat) (epoch : Z) (n : N)
    (resp1 resp2 : ValidatorBalances) (n1 n2 : N) (e : error) :
  ListValidatorBalances
    (mkListValidatorBalancesRequest (balancesFilterOf epoch) (PageSize cfg) "") n
  = ((resp1, None), n1) ->
  VB_TotalSize resp1 <> 0 ->
  VB_NextPageToken resp1 <> "" ->
  ListValidatorBalances
    (mkListValidatorBalancesRequest (balancesFilterOf epoch) (PageSize cfg)
       (VB_NextPageToken resp1)) n1
  = ((resp2, Some e), n2) ->
  GetBalancesForEpoch cfg (S (S fuel)) epoch n
  = Some ((fold_left (fun m balance => <[u64 (VB_Index balance) := VB_Balance balance]> m)
             (Balances resp1) ∅, Some e), n2).
Proof.
  intros E1 Hnz Htok E2. unfold GetBalancesForEpoch. cbv zeta.
  rewrite balancesFilterOf_spec. simpl. rewrite E1.
  rewrite (proj2 (Z.eqb_neq _ _) Hnz).
  rewrite (proj2 (String.eqb_neq _ _) Htok).
  destruct fuel; simpl; rewrite E2; reflexivity.
Qed.

End EpochBalancesFacts.


Lemma GetBalancesForSlot_Ok_witness :
  exists (m : gmap Z Z) (data : list (Z * Z)),
    GetBalancesForSlot (json := scriptedJson) "http://node" (-5) []
    = ((Some m, None), ["http://node/eth/v1/beacon/states/0/validator_balances"]) /\
    m !! 1 = Some 32000000002 /\
    listedLast data 1 32000000002.
Proof.
  set (r := GetBalancesForSlot (json := scriptedJson) "http://node" (-5) []).
  assert (E : r = ((Some (default ∅ (fst (fst r))), None),
                   ["http://node/eth/v1/beacon/states/0/validator_balances"]))
    by reflexivity.
  destruct (GetBalancesForSlot_Ok (json := scriptedJson) "http://node" (-5) [] _ _ E)
    as (resp & body & data & m & Hom & _ & _ & _ & _ & Hl).
  exists (default ∅ (fst (fst r))), data. split; [exact E |].
  assert (Hm : default ∅ (fst (fst r)) !! 1 = Some 32000000002) by reflexivity.
  split; [exact Hm |].
  injection Hom as Hom. apply Hl. rewrite <- Hom. exact Hm.
Defined.

Lemma GetBalancesForSlot_Err_witness :
  GetBalancesForSlot (json := scriptedJson) "http://node" 7 []
  = ((Some ∅,
      Some "url: http://node/eth/v1/beacon/states/7/validator_balances, error-response: oops"),
     ["http://node/eth/v1/beacon/states/7/validator_balances"]) /\
  exists resp : HttpResponse,
    http_Get (balancesUrl "http://node" (Z.max 0 7)) []
    = (inl resp, ["http://node/eth/v1/beacon/states/7/validator_balances"]) /\
    StatusCode resp = 503.
Proof.
  assert (E : GetBalancesForSlot (json := scriptedJson) "http://node" 7 []
              = ((Some ∅,
                  Some "url: http://node/eth/v1/beacon/states/7/validator_balances, error-response: oops"),
                 ["http://node/eth/v1/beacon/states/7/validator_balances"]))
    by reflexivity.
  split; [exact E |].
  destruct (GetBalancesForSlot_Err (json := scriptedJson) "http://node" 7 [] _ _ _ E)
    as [(Hn & _) | (_ & [HG | (resp & HG & _)])].
  - discriminate Hn.
  - exfalso. vm_compute in HG. discriminate HG.
  - exists resp. split; [exact HG |]. vm_compute in HG. injection HG as <-. reflexivity.
Defined.

Lemma GetBalancesForEpoch_pages_witness :
  exists m : gmap Z Z,
    GetBalancesForEpoch scriptedConfig 3 5 0%nat
    = Some ((m, Some "deadline exceeded"), 3%nat) /\
    GetBalancesForEpoch scriptedConfig 10 5 0%nat
    = Some ((m, Some "deadline exceeded"), 3%nat) /\
    m !! 2 = Some 21.
Proof.
  set (r := GetBalancesForEpoch scriptedConfig 3 5 0%nat).
  set (m := match r with Some ((m, _), _) => m | None => ∅ end).
  assert (E : r = Some ((m, Some "deadline exceeded"), 3%nat)) by reflexivity.
  exists m. split; [exact E |].
  destruct (GetBalancesForEpoch_pages scriptedConfig 3 5 0%nat _ _ _ E) as (_ & _ & HM).
  split; [apply HM; lia | reflexivity].
Defined.

Lemma GetBalancesForEpoch_partial_witness :
  GetBalancesForEpoch scriptedConfig 2 9 0%nat
  = Some ((fold_left (fun m balance => <[u64 (VB_Index balance) := VB_Balance balance]> m)
             [mkValidatorBalance 1 10; mkValidatorBalance 2 20] ∅,
           Some "connection reset"), 2%nat).
Proof.
  apply (GetBalancesForEpoch_partial scriptedConfig 0 9 0%nat
           (mkValidatorBalances [mkValidatorBalance 1 10; mkValidatorBalance 2 20] "p2" 5)
           (mkValidatorBalances [] "" 0) 1%nat 2%nat "connection reset");
    first [reflexivity | discriminate].
Defined.


(** * The epoch and slot aggregator *)

Lemma u64_add_idemp (a b : Z) : u64 (u64 a + b) = u64 (a + b).
Proof. unfold u64. apply Z.add_mod_idemp_l. lia. Qed.

Lemma i64_small (z : Z) : - 2 ^ 63 <= z < 2 ^ 63 -> i64 z = z.
Proof.
  intros Hz. unfold i64, int64_of_u64, u64.
  destruct (Z.le_gt_cases 0 z) as [Hpos | Hneg].
  - rewrite Z.mod_small by lia. destruct (Z.ltb_spec z (2 ^ 63)); lia.
  - replace (z mod 2 ^ 64) with (z + 2 ^ 64).
    + destruct (Z.ltb_spec (z + 2 ^ 64) (2 ^ 63)); lia.
    + apply Z.mod_unique with (q := -1); lia.
Qed.

Lemma totalFor_cons (v : Z) (wd : Withdrawals) (wds : list Withdrawals) :
  totalFor v (wd :: wds)
  = if W_ValidatorIndex wd =? v then W_Amount wd + totalFor v wds else totalFor v wds.
Proof. unfold totalFor. simpl. destruct (W_ValidatorIndex wd =? v); reflexivity. Qed.

Lemma totalFor_none (v : Z) (wds : list Withdrawals) :
  existsb (fun wd => W_ValidatorIndex wd =? v) wds = false -> totalFor v wds = 0.
Proof.
  induction wds as [| wd wds IH]; [reflexivity |]. simpl. rewrite totalFor_cons.
  destruct (W_ValidatorIndex wd =? v); [discriminate | exact IH].
Qed.

Lemma addWithdrawals_app (wds1 wds2 : list Withdrawals) :
  forall vw : option (gmap Z Z),
    addWithdrawals vw (wds1 ++ wds2)
    = match addWithdrawals vw wds1 with
      | Panics why => Panics why
      | Returns vw' => addWithdrawals vw' wds2
      end.
Proof.
  induction wds1 as [| wd wds1 IH]; intros vw; simpl; [reflexivity |].
  destruct (addWithdrawal vw wd) as [vw' | why]; [apply IH | reflexivity].
Qed.

(** The loop over the withdrawals, on a map that is not nil: the total of
    every validator grows by the sum of its amounts, modulo 2^64. *)
Lemma addWithdrawals_total (wds : list Withdrawals) : forall m : gmap Z Z,
  amountsInRange wds -> valuesInRange m ->
  exists m' : gmap Z Z,
    addWithdrawals (Some m) wds = Returns (Some m') /\
    valuesInRange m' /\
    forall v, m' !! v
              = if existsb (fun wd => W_ValidatorIndex wd =? v) wds
                then Some (u64 (default 0 (m !! v) + totalFor v wds))
                else m !! v.
Proof.
  induction wds as [| wd wds IH]; intros m HA HV.
  - exists m. split; [reflexivity |]. split; [exact HV |]. intros v. reflexivity.
  - inversion HA as [| ? ? Hwd HA']; subst.
    set (new := match m !! W_ValidatorIndex wd with
                | Some value => u64 (value + W_Amount wd)
                | None => W_Amount wd
                end).
    assert (Hstep : addWithdrawal (Some m) wd
                    = Returns (Some (<[W_ValidatorIndex wd := new]> m))).
    { unfold addWithdrawal, new. destruct (m !! W_ValidatorIndex wd); reflexivity. }
    assert (Hnew : uint64 new).
    { unfold new. destruct (m !! W_ValidatorIndex wd); [apply u64_range | exact Hwd]. }
    assert (HV1 : valuesInRange (<[W_ValidatorIndex wd := new]> m)).
    { intros v x. destruct (decide (W_ValidatorIndex wd = v)) as [<- | Hne].
      - rewrite lookup_insert_eq. intros [= <-]. exact Hnew.
      - rewrite lookup_insert_ne by exact Hne. apply HV. }
    destruct (IH _ HA' HV1) as (m' & Hrun & HV' & Hl).
    exists m'. split; [simpl; rewrite Hstep; exact Hrun |]. split; [exact HV' |].
    intros v. rewrite Hl. simpl existsb. rewrite totalFor_cons.
    destruct (Z.eqb_spec (W_ValidatorIndex wd) v) as [<- | Hne].
    + rewrite lookup_insert_eq. simpl.
      destruct (existsb (fun wd0 => W_ValidatorIndex wd0 =? W_ValidatorIndex wd) wds) eqn:Ex.
      * f_equal. unfold new. destruct (m !! W_ValidatorIndex wd) as [value |]; simpl.
        -- rewrite u64_add_idemp. f_equal. lia.
        -- reflexivity.
      * rewrite (totalFor_none _ _ Ex). f_equal. unfold new.
        destruct (m !! W_ValidatorIndex wd) as [value |]; simpl.
        -- f_equal. lia.
        -- rewrite Z.add_0_r. symmetry. apply u64_small. exact Hwd.
    + rewrite lookup_insert_ne by exact Hne. reflexivity.
Qed.

Lemma addWithdrawals_nil (wds : list Withdrawals) :
  addWithdrawals None wds
  = match wds with
    | [] => Returns None
    | _ :: _ => Panics "assignment to entry in nil map"
    end.
Proof. destruct wds; reflexivity. Qed.

Section AggregatorFacts.
Context {lib : PrysmLib}.

Lemma addBlocksWithdrawals_flat (bs : list Block) : forall vw : option (gmap Z Z),
  addBlocksWithdrawals vw bs = addWithdrawals vw (flat_map withdrawalsOf bs).
Proof.
  induction bs as [| b bs IH]; intros vw; simpl; [reflexivity |].
  rewrite addWithdrawals_app.
  destruct (addWithdrawals vw (withdrawalsOf b)); [apply IH | reflexivity].
Qed.

Lemma epochWithdrawals_counted (head : Z) (slots : list (Z * list Block)) :
  forall vw : option (gmap Z Z),
    epochWithdrawals head slots vw = addWithdrawals vw (countedWithdrawals head slots).
Proof.
  induction slots as [| [slot bs] slots IH]; intros vw; simpl; [reflexivity |].
  destruct (slot >? head).
  - rewrite addWithdrawals_app, addBlocksWithdrawals_flat.
    destruct (addWithdrawals vw (flat_map withdrawalsOf bs)); [apply IH | reflexivity].
  - simpl. apply IH.
Qed.

(** The loop of [GetEpochData] over the withdrawals counts the withdrawals
    of the blocks of the slots after [PrysmLatestHeadSlot], and no others.
    On a map that is not nil it adds, for every validator, the sum of the
    amounts counted for it to the total the map held, modulo 2^64, and
    leaves the other validators as they were; so the result does not depend
    on the order in which the blocks of a slot are visited. *)
Theorem epochWithdrawals_total (head : Z) (slots : list (Z * list Block)) (m : gmap Z Z) :
  amountsInRange (countedWithdrawals head slots) -> valuesInRange m ->
  exists m' : gmap Z Z,
    epochWithdrawals head slots (Some m) = Returns (Some m') /\
    forall v, m' !! v
              = if existsb (fun wd => W_ValidatorIndex wd =? v)
                     (countedWithdrawals head slots)
                then Some (u64 (default 0 (m !! v)
                                + totalFor v (countedWithdrawals head slots)))
                else m !! v.
Proof.
  intros HA HV. rewrite epochWithdrawals_counted.
  destruct (addWithdrawals_total _ m HA HV) as (m' & Hrun & _ & Hl).
  exists m'. split; assumption.
Qed.


(** [GetSlotData] raises [PrysmLatestHeadSlot] to the slot of the block
    before anything else, so, in a call that no other call of it interleaves
    with, the later test that the slot is above it fails: the withdrawals of
    the block are never added to the totals, and a nil map is never
    written. *)
Theorem GetSlotData_adds_no_withdrawal (block : Block) (head : Z)
    (validatorWithdrawal : option (gmap Z Z)) :
  GetSlotData_withdrawals block head validatorWithdrawal
  = (Z.max (B_Slot block) head, Returns validatorWithdrawal).
Proof.
  unfold GetSlotData_withdrawals, slotWithdrawals, raiseHead. cbv zeta.
  rewrite !Z.gtb_ltb.
  destruct (Z.ltb_spec head (B_Slot block)) as [Hlt | Hge].
  - rewrite Z.ltb_irrefl. f_equal. lia.
  - destruct (Z.ltb_spec head (B_Slot block)); [lia |]. f_equal. lia.
Qed.

(** After the loop that fills the slots without a block, every slot that
    held blocks holds them unchanged, and every other slot with a proposer
    holds one block under the key ["0x0"]: the placeholder for the slot
    and its proposer, with status 0 and root 00 when the slot is in the
    future and status 2 and root 01 when it is past.  No other slot gets an
    entry. *)
Theorem fillMissed_lookup (inFuture : Z -> bool) (assignments : EpochAssignments)
    (blocks : gmap Z (gmap string Block)) (slot : Z) :
  fillMissed inFuture assignments blocks !! slot
  = match blocks !! slot with
    | Some bs => Some bs
    | None =>
        match ProposerAssignments assignments !! slot with
        | Some proposer =>
            Some {["0x0" := if inFuture slot
                           then setStatus 0 [x00] (placeholder slot proposer)
                           else setStatus 2 [x01] (placeholder slot proposer)]}
        | None => None
        end
    end.
Proof.
  unfold fillMissed. revert slot.
  apply (map_fold_weak_ind
           (fun (r : gmap Z (gmap string Block)) (m : gmap Z Z) =>
              forall slot,
                r !! slot
                = match blocks !! slot with
                  | Some bs => Some bs
                  | None =>
                      match m !! slot with
                      | Some proposer =>
                          Some {["0x0" := if inFuture slot
                                         then setStatus 0 [x00] (placeholder slot proposer)
                                         else setStatus 2 [x01] (placeholder slot proposer)]}
                      | None => None
                      end
                  end)).
  - intros slot. rewrite lookup_empty. destruct (blocks !! slot); reflexivity.
  - intros i x m r Hi IH slot. unfold fillSlot. rewrite (IH i), Hi.
    destruct (blocks !! i) as [bs |] eqn:Hb.
    + rewrite IH. destruct (decide (i = slot)) as [<- | Hne].
      * rewrite Hb. reflexivity.
      * rewrite lookup_insert_ne by exact Hne. reflexivity.
    + cbv zeta. destruct (decide (i = slot)) as [<- | Hne].
      * rewrite !lookup_insert_eq, Hb. reflexivity.
      * rewrite !lookup_insert_ne by exact Hne. apply IH.
Qed.

End AggregatorFacts.

(** The slots whose states [GetEpochData] reads, when the products do not
    overflow: the first slot of the epoch as long as no head slot is known,
    and else the last slot of the epoch or the head slot, whichever is
    smaller; and the slots 7200, 50400 and 223200 before it, or 0 where the
    chain is younger than that. *)
Theorem state_slots (head epoch slotsPerEpoch : Z) :
  uint64 head -> 0 <= epoch -> 0 < slotsPerEpoch -> (epoch + 1) * slotsPerEpoch < 2 ^ 63 ->
  lastSlotOf head epoch slotsPerEpoch
  = (if head =? 0 then epoch * slotsPerEpoch
     else Z.min head ((epoch + 1) * slotsPerEpoch - 1)) /\
  historicSlots (lastSlotOf head epoch slotsPerEpoch)
  = (Z.max 0 (lastSlotOf head epoch slotsPerEpoch - 7200),
     Z.max 0 (lastSlotOf head epoch slotsPerEpoch - 50400),
     Z.max 0 (lastSlotOf head epoch slotsPerEpoch - 223200)).
Proof.
  intros Hh He Hs Hb.
  assert (H63 : 2 ^ 63 < 2 ^ 64) by (apply Z.pow_lt_mono_r; lia).
  assert (H0 : 0 < 2 ^ 63) by (apply Z.pow_pos_nonneg; lia).
  assert (HL : lastSlotOf head epoch slotsPerEpoch
               = (if head =? 0 then epoch * slotsPerEpoch
                  else Z.min head ((epoch + 1) * slotsPerEpoch - 1))).
  { unfold lastSlotOf. destruct (head =? 0).
    - apply u64_small. unfold uint64. nia.
    - cbv zeta. rewrite (u64_small (epoch + 1)) by (unfold uint64; nia).
      rewrite (u64_small ((epoch + 1) * slotsPerEpoch)) by (unfold uint64; nia).
      rewrite (u64_small ((epoch + 1) * slotsPerEpoch - 1)) by (unfold uint64; nia).
      destruct (Z.ltb_spec head ((epoch + 1) * slotsPerEpoch - 1)); lia. }
  split; [exact HL |].
  assert (HR : 0 <= lastSlotOf head epoch slotsPerEpoch < 2 ^ 63).
  { rewrite HL. unfold uint64 in Hh. destruct (head =? 0); [nia | lia]. }
  generalize dependent (lastSlotOf head epoch slotsPerEpoch). intros s _ HR.
  unfold historicSlots. cbv zeta.
  assert (Hi : int64_of_u64 s = s).
  { unfold int64_of_u64. destruct (Z.ltb_spec s (2 ^ 63)); lia. }
  rewrite Hi, !i64_small by lia.
  change (7200 * 7) with 50400. change (7200 * 31) with 223200.
  destruct (Z.ltb_spec (s - 7200) 0); destruct (Z.ltb_spec (s - 50400) 0);
    destruct (Z.ltb_spec (s - 223200) 0); repeat f_equal; lia.
Qed.


Lemma epochWithdrawals_total_witness :
  exists m' : gmap Z Z,
    epochWithdrawals 100 [(64, [withdrawalBlock]); (200, [withdrawalBlock])]
      (Some {[9 := 100]})
    = Returns (Some m') /\
    m' !! 9 = Some 1600 /\ m' !! 4 = Some 2000 /\ m' !! 5 = None.
Proof.
  destruct (epochWithdrawals_total 100 [(64, [withdrawalBlock]); (200, [withdrawalBlock])]
              {[9 := 100]}) as (m' & Hrun & Hl).
  - unfold amountsInRange. cbn. repeat constructor; cbn; lia.
  - intros v x Hv. apply lookup_singleton_Some in Hv as [_ <-]. unfold uint64. lia.
  - exists m'. split; [exact Hrun |]. rewrite !Hl. repeat split.
Defined.


Lemma state_slots_witness :
  lastSlotOf 300000 10000 32 = 300000 /\
  historicSlots (lastSlotOf 300000 10000 32) = (292800, 249600, 76800) /\
  lastSlotOf 0 3 32 = 96 /\
  historicSlots (lastSlotOf 0 3 32) = (0, 0, 0).
Proof.
  assert (H1 : uint64 300000) by (unfold uint64; lia).
  assert (H2 : uint64 0) by (unfold uint64; lia).
  destruct (state_slots 300000 10000 32 H1 ltac:(lia) ltac:(lia) ltac:(lia)) as [A1 A2].
  destruct (state_slots 0 3 32 H2 ltac:(lia) ltac:(lia) ltac:(lia)) as [B1 B2].
  split; [rewrite A1; reflexivity |]. split; [rewrite A2, A1; reflexivity |].
  split; [rewrite B1; reflexivity |]. rewrite B2, B1. reflexivity.
Defined.


(** ** The blocks of an epoch *)

Section EpochBlocksFacts.
Context {lib : PrysmLib} {N : Type} {client : BeaconChainClient N}
        {blocksClient : BeaconBlocksClient N} (cfg : Config).

Lemma storeBlock_wellKeyed (Q : Block -> Prop) (blocks : gmap Z (gmap string Block))
    (b : Block) :
  wellKeyed Q blocks -> Q b -> wellKeyed Q (storeBlock blocks b).
Proof.
  intros HW HQ slot bs. unfold storeBlock.
  destruct (decide (B_Slot b = slot)) as [<- | Hne].
  - rewrite lookup_insert_eq. intros [= <-]. split.
    + apply insert_non_empty.
    + intros key b'. destruct (decide (hex (B_BlockRoot b) = key)) as [<- | Hk].
      * rewrite lookup_insert_eq. intros [= <-]. auto.
      * rewrite lookup_insert_ne by exact Hk.
        destruct (blocks !! B_Slot b) as [old |] eqn:Hold; simpl.
        -- intros Hl. exact (proj2 (HW _ _ Hold) _ _ Hl).
        -- rewrite lookup_empty. discriminate.
  - rewrite lookup_insert_ne by exact Hne. apply HW.
Qed.

Lemma storeBlocks_wellKeyed (Q : Block -> Prop) (bs : list Block) :
  forall blocks : gmap Z (gmap string Block),
    wellKeyed Q blocks -> (forall b, In b bs -> Q b) ->
    wellKeyed Q (fold_left storeBlock bs blocks).
Proof.
  induction bs as [| b bs IH]; intros blocks HW HQ; simpl; [exact HW |].
  apply IH.
  - apply storeBlock_wellKeyed; [exact HW | apply HQ; left; reflexivity].
  - intros b' Hin. apply HQ. right. exact Hin.
Qed.

Lemma collectBlocks_wellKeyed (Q : Block -> Prop) (fuel : nat) (slots : list Z) :
  forall (pc : PrysmClient N) (blocks blocks' : gmap Z (gmap string Block))
         (pc' : PrysmClient N),
    wellKeyed Q blocks ->
    (forall b, listedFor cfg fuel slots b -> Q b) ->
    collectBlocks cfg fuel slots pc blocks = Some (Ok blocks', pc') ->
    wellKeyed Q blocks'.
Proof.
  induction slots as [| slot rest IH]; intros pc blocks blocks' pc' HW HQ Hrun;
    simpl in Hrun.
  - injection Hrun as <- _. exact HW.
  - destruct (GetBlocksBySlot cfg fuel slot pc) as [[[bs | e | why] pc1] |] eqn:E;
      try discriminate.
    eapply IH; [| | exact Hrun].
    + apply storeBlocks_wellKeyed; [exact HW |].
      intros b Hin. apply HQ. exists slot, pc, pc1, bs.
      split; [left; reflexivity | auto].
    + intros b (s & pc2 & pc3 & listed & Hs & Hl & Hin). apply HQ.
      exists s, pc2, pc3, listed. split; [right; exact Hs | auto].
Qed.

(** The map of blocks that [GetEpochData] builds for an epoch: every slot
    with an entry holds at least one block, and every block of the map was
    listed by [GetBlocksBySlot] for a slot of the epoch and is stored under
    its own slot, which need not be the slot asked for, and under the
    hexadecimal form of its root. *)
Theorem epochBlocks_wellKeyed (fuel : nat) (epoch : Z) (pc : PrysmClient N)
    (blocks : gmap Z (gmap string Block)) (pc' : PrysmClient N) :
  epochBlocks cfg fuel epoch pc = Some (Ok blocks, pc') ->
  exists slots : list Z,
    epochSlots epoch (SlotsPerEpoch cfg) = Some slots /\
    wellKeyed (listedFor cfg fuel slots) blocks.
Proof.
  unfold epochBlocks.
  destruct (epochSlots epoch (SlotsPerEpoch cfg)) as [slots |]; [| discriminate].
  intros Hrun. exists slots. split; [reflexivity |].
  eapply collectBlocks_wellKeyed; [| | exact Hrun].
  - intros slot bs Hl. rewrite lookup_empty in Hl. discriminate.
  - auto.
Qed.

End EpochBlocksFacts.

Lemma epochBlocks_wellKeyed_witness :
  exists (blocks : gmap Z (gmap string (Block (lib := scriptedPrysmLib))))
         (bs : gmap string (Block (lib := scriptedPrysmLib)))
         (b : Block (lib := scriptedPrysmLib)),
    epochBlocks (lib := scriptedPrysmLib) scriptedConfig 0 6 (NewPrysmClient [])
    = Some (Ok blocks, NewPrysmClient []) /\
    blocks !! 200 = Some bs /\ bs !! "cd" = Some b /\
    B_Slot b = 200 /\ "cd" = hex (B_BlockRoot b).
Proof.
  set (r := epochBlocks (lib := scriptedPrysmLib) scriptedConfig 0 6 (NewPrysmClient [])).
  set (blocks := match r with Some (Ok blocks, _) => blocks | _ => ∅ end).
  assert (E : r = Some (Ok blocks, NewPrysmClient [])) by reflexivity.
  destruct (epochBlocks_wellKeyed (lib := scriptedPrysmLib) scriptedConfig 0 6
              (NewPrysmClient []) _ _ E) as (slots & _ & HW).
  set (bs := default ∅ (blocks !! 200)).
  set (b := default (placeholder (lib := scriptedPrysmLib) 0 0) (bs !! "cd")).
  assert (Hbs : blocks !! 200 = Some bs) by reflexivity.
  assert (Hb : bs !! "cd" = Some b) by reflexivity.
  exists blocks, bs, b. split; [exact E |]. split; [exact Hbs |]. split; [exact Hb |].
  destruct (proj2 (HW 200 bs Hbs) "cd" b Hb) as (H1 & H2 & _). split; assumption.
Defined.
